(** * Annotation-dataset utilities: path normalizer, image locator, annotation extractor

    A shallow embedding of the three batch scripts

      - [clean_json_image_paths.py]  (Path Normalizer),
      - [find_and_copy_images.py]    (Image Locator/Copier),
      - [streamlit_app.py]           (Annotation Extractor, [extract_annotation_data]),

    together with the properties of their behaviour.

    Python values that come out of [json.loads] are modelled by the type
    [json]; Python exceptions by the error monad [pyresult]; Python [str] by
    [string], a character being a code point below 256 ([str.lower] and the
    regular expression class [\s] are those of Python on these code
    points). *)

From Stdlib Require Import ZArith Floats Ascii String.
From stdpp Require Import base option list strings gmap.

(** ** Characters and strings *)

Module Str.

(** The double quote character (code 34). *)
Definition dq : ascii := "034"%char.
Definition DQ : string := String dq "".

(** The code points below 256 that [str.lower] changes: A to Z, and the
    capital letters of Latin-1 (192 to 222 without the multiplication sign
    215); each moves up by 32. *)
Definition is_upper (c : ascii) : bool :=
  let n := nat_of_ascii c in
  ((65 <=? n)%nat && (n <=? 90)%nat) ||
  ((192 <=? n)%nat && (n <=? 222)%nat && negb (n =? 215)%nat).

Definition lower_char (c : ascii) : ascii :=
  if is_upper c then ascii_of_nat (nat_of_ascii c + 32) else c.

(** [s.lower()] *)
Fixpoint lower (s : string) : string :=
  match s with
  | "" => ""
  | String c s' => String (lower_char c) (lower s')
  end.

(** [s.startswith(p)] *)
Fixpoint startswith (p s : string) : bool :=
  match p, s with
  | "", _ => true
  | String a p', String b s' => if Ascii.eqb a b then startswith p' s' else false
  | String _ _, "" => false
  end.

(** [sub in s] on two strings: [sub] occurs in [s] as a contiguous run. *)
Fixpoint contains (sub s : string) : bool :=
  startswith sub s ||
  match s with
  | "" => false
  | String _ s' => contains sub s'
  end.

(** [s.endswith(suf)] *)
Fixpoint endswith (suf s : string) : bool :=
  String.eqb suf s ||
  match s with
  | "" => false
  | String _ s' => endswith suf s'
  end.

(** [c in s] for a one-character needle. *)
Fixpoint has_char (c : ascii) (s : string) : bool :=
  match s with
  | "" => false
  | String a s' => Ascii.eqb a c || has_char c s'
  end.

(** [s.split(sep)] for a one-character separator: never the empty list. *)
Fixpoint split (sep : ascii) (s : string) : list string :=
  match s with
  | "" => [""]
  | String c s' =>
      if Ascii.eqb c sep then "" :: split sep s'
      else match split sep s' with
           | h :: t => String c h :: t
           | [] => [String c ""]
           end
  end.

(** [sep.join(l)] *)
Fixpoint join (sep : string) (l : list string) : string :=
  match l with
  | [] => ""
  | [x] => x
  | x :: rest => x +:+ sep +:+ join sep rest
  end.

(** Text with double quotes is written with single quotes in this file:
    [dquote] turns every single quote into a double quote. *)
Fixpoint dquote (s : string) : string :=
  match s with
  | "" => ""
  | String c s' => String (if Ascii.eqb c "'" then dq else c) (dquote s')
  end.

(** The characters of a string, each as a one-character string
    (what iterating over a [str] yields). *)
Fixpoint chars (s : string) : list string :=
  match s with
  | "" => []
  | String c s' => String c "" :: chars s'
  end.

End Str.

(** ** JSON values and the Python operations the scripts apply to them *)

(** What [json.loads] returns: [None], [bool], [int], [float], [str],
    [list], and [dict] with string keys.  A [dict] keeps insertion order, so
    an object is an association list. *)
#[warnings="-register-all"]
Inductive json : Type :=
| JNull
| JBool (b : bool)
| JInt (n : Z)
| JFloat (x : float)
| JStr (s : string)
| JList (l : list json)
| JDict (kvs : list (string * json)).

Inductive exn : Type :=
| TypeError
| AttributeError
| KeyError
| IndexError
| OSError.

Inductive pyresult (A : Type) : Type :=
| Ok (a : A)
| Raise (e : exn).
Arguments Ok {A} a.
Arguments Raise {A} e.

#[global] Instance result_ret : MRet pyresult := fun _ a => Ok a.
#[global] Instance result_bind : MBind pyresult := fun _ _ f m =>
  match m with
  | Ok a => f a
  | Raise e => Raise e
  end.

Module Py.

(** Lookup in a [dict]: the value stored under the key. *)
Fixpoint lookup (k : string) (kvs : list (string * json)) : option json :=
  match kvs with
  | [] => None
  | (k', v) :: rest => if String.eqb k k' then Some v else lookup k rest
  end.

(** [d[k] = v] on a [dict]: replaces the value in place when the key is
    there, appends the key otherwise. *)
Fixpoint store (k : string) (v : json) (kvs : list (string * json))
  : list (string * json) :=
  match kvs with
  | [] => [(k, v)]
  | (k', v') :: rest =>
      if String.eqb k k' then (k', v) :: rest else (k', v') :: store k v rest
  end.

Definition is_dict (v : json) : bool :=
  match v with JDict _ => true | _ => false end.

Definition eq_str (v : json) (s : string) : bool :=
  match v with JStr t => String.eqb t s | _ => false end.

(** [bool(v)] *)
Definition truthy (v : json) : bool :=
  match v with
  | JNull => false
  | JBool b => b
  | JInt n => negb (n =? 0)%Z
  | JFloat x => negb (PrimFloat.eqb x 0%float)
  | JStr s => negb (String.eqb s "")
  | JList l => match l with [] => false | _ => true end
  | JDict kvs => match kvs with [] => false | _ => true end
  end.

(** [k in v] for a string [k]: key test on a [dict], element test on a
    [list], substring test on a [str]; [TypeError] on anything else. *)
Definition contains (k : string) (v : json) : pyresult bool :=
  match v with
  | JDict kvs => Ok (match lookup k kvs with Some _ => true | None => false end)
  | JList l => Ok (existsb (fun x => eq_str x k) l)
  | JStr s => Ok (Str.contains k s)
  | _ => Raise TypeError
  end.

(** [v[k]] for a string [k]. *)
Definition getitem (v : json) (k : string) : pyresult json :=
  match v with
  | JDict kvs => match lookup k kvs with Some x => Ok x | None => Raise KeyError end
  | _ => Raise TypeError
  end.

(** [v.get(k, default)] *)
Definition get (v : json) (k : string) (default : json) : pyresult json :=
  match v with
  | JDict kvs => Ok (match lookup k kvs with Some x => x | None => default end)
  | _ => Raise AttributeError
  end.

(** [v[k] = x] for a string [k]. *)
Definition setitem (v : json) (k : string) (x : json) : pyresult json :=
  match v with
  | JDict kvs => Ok (JDict (store k x kvs))
  | _ => Raise TypeError
  end.

(** [v.split(sep)]: a method of [str] only. *)
Definition split (v : json) (sep : ascii) : pyresult (list string) :=
  match v with
  | JStr s => Ok (Str.split sep s)
  | _ => Raise AttributeError
  end.

(** [l[-1]] and [l[0]] on a list of strings. *)
Definition last_item (l : list string) : pyresult string :=
  match last l with Some x => Ok x | None => Raise IndexError end.
Definition first_item (l : list string) : pyresult string :=
  match l with x :: _ => Ok x | [] => Raise IndexError end.

(** [sep.join(v)]: [v] must be iterable and yield only [str]. *)
Fixpoint as_strings (l : list json) : pyresult (list string) :=
  match l with
  | [] => Ok []
  | JStr s :: rest => strs ← as_strings rest; Ok (s :: strs)
  | _ :: _ => Raise TypeError
  end.

(** [len(v)] *)
Definition len (v : json) : pyresult nat :=
  match v with
  | JStr s => Ok (String.length s)
  | JList l => Ok (length l)
  | JDict kvs => Ok (length kvs)
  | _ => Raise TypeError
  end.

(** What [for x in v] runs through: the elements of a [list], the keys of
    a [dict], the characters of a [str]. *)
Definition iter (v : json) : pyresult (list json) :=
  match v with
  | JList l => Ok l
  | JDict kvs => Ok (map (fun kv => JStr (fst kv)) kvs)
  | JStr s => Ok (map JStr (Str.chars s))
  | _ => Raise TypeError
  end.

Definition join (sep : string) (v : json) : pyresult string :=
  items ← iter v;
  strs ← as_strings items;
  Ok (Str.join sep strs).

End Py.

(** ** Regular expressions, as far as the scripts' pattern needs them

    A backtracking matcher in the style of Python's [re]: alternatives are
    tried left to right, a star is greedy and gives characters back one at a
    time, and the first way that lets the rest of the pattern succeed wins. *)

Module Re.

Inductive regex : Type :=
| Eps
| Cls (p : ascii -> bool)        (* one character of a class *)
| Seq (r1 r2 : regex)
| Alt (r1 r2 : regex)            (* r1|r2 *)
| Star (p : ascii -> bool)       (* [class]*, greedy *)
| Group (r : regex).             (* ( r ), the capture group *)

Definition chr (c : ascii) : regex := Cls (Ascii.eqb c).

Fixpoint lit (s : string) : regex :=
  match s with
  | "" => Eps
  | String c s' => Seq (chr c) (lit s')
  end.

Definition Plus (p : ascii -> bool) : regex := Seq (Cls p) (Star p).
Definition Opt (r : regex) : regex := Alt r Eps.

(** The text of [s] in front of its suffix [s']. *)
Definition consumed (s s' : string) : string :=
  String.substring 0 (String.length s - String.length s') s.

Section Matcher.
Context {A : Type}.

Fixpoint star_k (p : ascii -> bool) (s : string) (k : string -> option A)
  : option A :=
  match s with
  | String c s' =>
      if p c then
        match star_k p s' k with
        | Some x => Some x
        | None => k s
        end
      else k s
  | "" => k s
  end.

(** [match_k r s cap k]: match [r] at the front of [s], then hand the
    rest of the text and the capture to [k]; [None] when no way of
    matching [r] makes [k] succeed. *)
Fixpoint match_k (r : regex) (s : string) (cap : option string)
         (k : string -> option string -> option A) : option A :=
  match r with
  | Eps => k s cap
  | Cls p =>
      match s with
      | String c s' => if p c then k s' cap else None
      | "" => None
      end
  | Seq r1 r2 => match_k r1 s cap (fun s' cap' => match_k r2 s' cap' k)
  | Alt r1 r2 =>
      match match_k r1 s cap k with
      | Some x => Some x
      | None => match_k r2 s cap k
      end
  | Star p => star_k p s (fun s' => k s' cap)
  | Group r1 => match_k r1 s cap (fun s' _ => k s' (Some (consumed s s')))
  end.
End Matcher.

(** [re.match]-like: the capture and the text after the match. *)
Definition match_at (r : regex) (s : string) : option (string * string) :=
  match_k r s None (fun s' cap => Some (default "" cap, s')).

(** [\s]: the code points 9 to 13, 28 to 32, 133 and 160. *)
Definition is_space (c : ascii) : bool :=
  let n := nat_of_ascii c in
  ((9 <=? n)%nat && (n <=? 13)%nat) || ((28 <=? n)%nat && (n <=? 32)%nat) ||
  (n =? 133)%nat || (n =? 160)%nat.

Definition none_of (l : list ascii) (c : ascii) : bool :=
  negb (existsb (Ascii.eqb c) l).

Definition not_quote : ascii -> bool := none_of [Str.dq].
Definition name_char : ascii -> bool := none_of [Str.dq; "/"; "?"]%char.

(** Group 1: [[^Q/?]+], a dot, and one of jpg, jpeg, png (Q is the double
    quote). *)
Definition filename_group : regex :=
  Group (Seq (Plus name_char)
        (Seq (chr ".")
             (Alt (lit "jpg") (Alt (lit "jpeg") (lit "png"))))).

(** The optional query: a question mark followed by [[^Q]*]. *)
Definition query_part : regex := Opt (Seq (chr "?") (Star not_quote)).

(** The pattern of both scripts, piece by piece: the literal Q image Q;
    [\s*]; a colon; [\s*]; Q; [[^Q]*]; a slash; group 1; the optional
    query; Q. *)
Definition image_pattern : regex :=
  Seq (lit (Str.DQ +:+ "image" +:+ Str.DQ))
 (Seq (Star is_space)
 (Seq (chr ":")
 (Seq (Star is_space)
 (Seq (chr Str.dq)
 (Seq (Star not_quote)
 (Seq (chr "/")
 (Seq filename_group
 (Seq query_part
      (chr Str.dq))))))))).

(** The replacement template: the key [image], a colon, a blank, and
    group 1 between double quotes. *)
Definition image_replacement (cap : string) : string :=
  Str.DQ +:+ "image" +:+ Str.DQ +:+ ": " +:+ Str.DQ +:+ cap +:+ Str.DQ.

(** [re.sub(pattern, replacement, s)]: leftmost matches, not overlapping,
    each replaced; everything else copied.  The fuel is the length of the
    text; a match of [image_pattern] is never empty. *)
Fixpoint sub_go (fuel : nat) (s : string) : string :=
  match fuel with
  | 0 => s
  | S fuel' =>
      match s with
      | "" => ""
      | String c s' =>
          match match_at image_pattern s with
          | Some (cap, rest) => image_replacement cap +:+ sub_go fuel' rest
          | None => String c (sub_go fuel' s')
          end
      end
  end.

Definition sub (s : string) : string := sub_go (String.length s) s.

(** [re.findall(pattern, s)]: the captures of the same matches. *)
Fixpoint findall_go (fuel : nat) (s : string) : list string :=
  match fuel with
  | 0 => []
  | S fuel' =>
      match s with
      | "" => []
      | String c s' =>
          match match_at image_pattern s with
          | Some (cap, rest) => cap :: findall_go fuel' rest
          | None => findall_go fuel' s'
          end
      end
  end.

Definition findall (s : string) : list string := findall_go (String.length s) s.

End Re.

(** ** Path Normalizer ([clean_json_image_paths.py]) *)

Module Normalizer.

(** The body of the loop over the records: the record after the iteration
    (the nested [dict] is updated in place) and whether it was counted as
    modified. *)
Definition clean_item (item : json) : pyresult (json * bool) :=
  if Py.is_dict item then
    has_data ← Py.contains "data" item;
    if has_data : bool then
      data ← Py.get item "data" (JDict []);
      has_image ← Py.contains "image" data;
      if has_image : bool then
        data ← Py.getitem item "data";
        image_url ← Py.getitem data "image";
        has_slash ← Py.contains "/" image_url;
        if has_slash : bool then
          parts ← Py.split image_url "/";
          filename ← Py.last_item parts;
          filename ←
            (if Str.contains "?" filename
             then Py.first_item (Str.split "?" filename)
             else Ok filename);
          data' ← Py.setitem data "image" (JStr filename);
          item' ← Py.setitem item "data" data';
          Ok (item', true)
        else Ok (item, false)
      else Ok (item, false)
    else Ok (item, false)
  else Ok (item, false).

(** The loop [for idx, item in enumerate(data)] with its counter. *)
Fixpoint clean_items (items : list json) (modified_count : nat)
  : pyresult (list json * nat) :=
  match items with
  | [] => Ok ([], modified_count)
  | item :: rest =>
      '(item', modified) ← clean_item item;
      '(rest', n) ← clean_items rest (if modified : bool then S modified_count
                                      else modified_count);
      Ok (item' :: rest', n)
  end.

(** The [try] block after [json.loads]: [len(data)], the loop, and the
    value handed to [json.dump].  Only the elements of a top-level [list]
    are records of the document; the keys of a [dict] and the characters
    of a [str] are fresh strings. *)
Definition clean_data (data : json) : pyresult (json * nat) :=
  _ ← Py.len data;
  items ← Py.iter data;
  '(items', n) ← clean_items items 0;
  Ok (match data with JList _ => JList items' | _ => data end, n).

(** What is written to the output file. *)
Inductive output : Type :=
| Structured (data : json) (modified_count : nat)
    (* [json.dump(data, f, indent=4)] *)
| Fallback (modified_content : string).
    (* [f.write(modified_content)] *)

Section Script.
(** [json.loads]: [None] stands for [json.JSONDecodeError]. *)
Variable json_loads : string -> option json.

(** [clean_image_paths_in_json], from the text of the input file to what
    is written.  [except (json.JSONDecodeError, TypeError)]: any other
    exception leaves the function. *)
Definition clean_image_paths_in_json (json_content : string) : pyresult output :=
  match json_loads json_content with
  | None => Ok (Fallback (Re.sub json_content))
  | Some data =>
      match clean_data data with
      | Ok (data', n) => Ok (Structured data' n)
      | Raise TypeError => Ok (Fallback (Re.sub json_content))
      | Raise e => Raise e
      end
  end.
End Script.

End Normalizer.

(** ** Image Locator/Copier ([find_and_copy_images.py]) *)

Module Locator.

Definition image_extensions : list string := [".jpg"; ".jpeg"; ".png"].

(** [any(ext in filename.lower() for ext in ['.jpg', '.jpeg', '.png'])] *)
Definition mentions_image_extension (filename : string) : bool :=
  existsb (fun ext => Str.contains ext (Str.lower filename)) image_extensions.

(** [file.lower().endswith(('.jpg', '.jpeg', '.png'))] *)
Definition has_image_extension (file : string) : bool :=
  existsb (fun ext => Str.endswith ext (Str.lower file)) image_extensions.

(** *** Name extraction *)

(** One iteration of the loop over the records: the name appended to
    [image_names], if any. *)
Definition name_of_item (item : json) : pyresult (option string) :=
  if Py.is_dict item then
    has_data ← Py.contains "data" item;
    if has_data : bool then
      data ← Py.get item "data" (JDict []);
      has_image ← Py.contains "image" data;
      if has_image : bool then
        data ← Py.getitem item "data";
        image_url ← Py.getitem data "image";
        parts ← Py.split image_url "/";
        match parts with
        | [] => Ok None
        | _ :: _ =>
            last_part ← Py.last_item parts;
            filename ← Py.first_item (Str.split "?" last_part);
            if mentions_image_extension filename
            then Ok (Some filename)
            else Ok None
        end
      else Ok None
    else Ok None
  else Ok None.

Fixpoint collect_names (items : list json) (image_names : list string)
  : pyresult (list string) :=
  match items with
  | [] => Ok image_names
  | item :: rest =>
      name ← name_of_item item;
      collect_names rest
        (match name with Some f => image_names ++ [f] | None => image_names end)
  end.

Section Extraction.
(** [json.loads]: [None] stands for [json.JSONDecodeError]. *)
Variable json_loads : string -> option json.

(** [extract_image_names_from_json], from the text of the file.  On
    [json.JSONDecodeError] or [TypeError] the names are those the
    pattern finds in the text. *)
Definition extract_image_names_from_json (json_content : string)
  : pyresult (list string) :=
  match json_loads json_content with
  | None => Ok (Re.findall json_content)
  | Some data =>
      match (_ ← Py.len data; items ← Py.iter data; collect_names items []) with
      | Ok image_names => Ok image_names
      | Raise TypeError => Ok (Re.findall json_content)
      | Raise e => Raise e
      end
  end.
End Extraction.

(** *** Search and copy *)

(** [os.path.join(a, b)] (POSIX). *)
Definition path_join (a b : string) : string :=
  if Str.startswith "/" b then b
  else if String.eqb a "" || Str.endswith "/" a then a +:+ b
  else a +:+ "/" +:+ b.

(** The lines the walk prints per file. *)
Inductive event : Type :=
| Copied (file : string) (image_name : string)   (* [Copied: file] *)
| CopyError (file : string).                     (* [Error copying file: e] *)

Section Walk.
(** The file system the script runs on: its states, [os.path.exists],
    [os.makedirs] ([None]: it raises) and [shutil.copy2] (the state it
    leaves, and whether it returned rather than raised). *)
Variable FS : Type.
Variable path_exists : FS -> string -> bool.
Variable makedirs : FS -> string -> option FS.
Variable copy2 : FS -> string -> string -> FS * bool.

Record state : Type := State {
  fs : FS;
  found_images : gset string;
  log : list event
}.

Variable target_dir : string.
Variable image_names : list string.

(** The [try] statement for a matched file, followed by [break]. *)
Definition copy_matched (root file image_name : string) (st : state) : state :=
  let source_path := path_join root file in
  let target_path := path_join target_dir file in
  match copy2 (fs st) source_path target_path with
  | (fs', true) =>
      State fs' ({[image_name]} ∪ found_images st) (log st ++ [Copied file image_name])
  | (fs', false) =>
      State fs' (found_images st) (log st ++ [CopyError file])
  end.

(** [for image_name in image_names: if image_name in file: ...; break] *)
Fixpoint scan_names (root file : string) (names : list string) (st : state)
  : state :=
  match names with
  | [] => st
  | image_name :: rest =>
      if Str.contains image_name file
      then copy_matched root file image_name st
      else scan_names root file rest st
  end.

(** The body of [for file in files]. *)
Definition visit_file (root file : string) (st : state) : state :=
  if has_image_extension file then scan_names root file image_names st else st.

Definition visit_files (root : string) (files : list string) (st : state) : state :=
  foldl (fun st file => visit_file root file st) st files.

(** [for root, _, files in os.walk(source_dir)], over the directories
    the walk yields. *)
Definition visit_dirs (walk : list (string * list string)) (st : state) : state :=
  foldl (fun st dir => visit_files (fst dir) (snd dir) st) st walk.

Record report : Type := Report {
  final : state;
  not_found : gset string     (* [set(image_names) - found_images] *)
}.

(** [recursive_search_and_copy], given what [os.walk(source_dir)] yields. *)
Definition recursive_search_and_copy
  (walk : list (string * list string)) (fs0 : FS) : pyresult report :=
  fs1 ← (if path_exists fs0 target_dir then Ok fs0
         else match makedirs fs0 target_dir with
              | Some fs1 => Ok fs1
              | None => Raise OSError
              end);
  let st := visit_dirs walk (State fs1 ∅ []) in
  Ok (Report st (list_to_set image_names ∖ found_images st)).
End Walk.

Arguments State {FS} _ _ _.
Arguments fs {FS} _.
Arguments found_images {FS} _.
Arguments log {FS} _.
Arguments Report {FS} _ _.
Arguments final {FS} _.
Arguments not_found {FS} _.
Arguments copy_matched {FS} _ _ _ _ _ _.
Arguments scan_names {FS} _ _ _ _ _ _.
Arguments visit_file {FS} _ _ _ _ _ _.
Arguments visit_files {FS} _ _ _ _ _ _.
Arguments visit_dirs {FS} _ _ _ _ _.
Arguments recursive_search_and_copy {FS} _ _ _ _ _ _ _.

End Locator.

(** ** Annotation Extractor ([extract_annotation_data] of [streamlit_app.py]) *)

Module Extractor.

Definition IMAGE_PREFIX : string :=
  "https://graffity-public-assets.s3.ap-southeast-1.amazonaws.com/ronn-temp/label_images/".

(** The four label variables of the loop body. *)
Record labels : Type := Labels {
  image_quality : string;
  pizza_quality : string;
  pizza_quality_reason : string;
  comments : json       (* the value under [text], whatever it is *)
}.

(** The [dict] appended to [annotation_data]: the keys [image] and
    [image_filename], and the four label variables under their names. *)
Record FlatRecord : Type := Flat {
  image : string;
  image_filename : json;
  fields : labels
}.

(** The default values. *)
Definition defaults : labels := Labels "N/A" "N/A" "N/A" (JStr "N/A").

(** [from_name == tag and 'value' in result and key in result['value']] *)
Definition tagged (from_name result : json) (tag key : string) : pyresult bool :=
  if Py.eq_str from_name tag then
    has_value ← Py.contains "value" result;
    if has_value : bool then
      value ← Py.getitem result "value";
      Py.contains key value
    else Ok false
  else Ok false.

(** [", ".join(result['value']['choices'])] *)
Definition joined_choices (result : json) : pyresult string :=
  value ← Py.getitem result "value";
  choices ← Py.getitem value "choices";
  Py.join ", " choices.

(** The body of [for result in annotation['result']]: the [if]/[elif]
    chain on [from_name]. *)
Definition apply_result (result : json) (l : labels) : pyresult labels :=
  from_name ← Py.get result "from_name" (JStr "");
  c ← tagged from_name result "image_quality" "choices";
  if c : bool then
    s ← joined_choices result;
    Ok (Labels s (pizza_quality l) (pizza_quality_reason l) (comments l))
  else
  c ← tagged from_name result "pizza_quality" "choices";
  if c : bool then
    s ← joined_choices result;
    Ok (Labels (image_quality l) s (pizza_quality_reason l) (comments l))
  else
  c ← tagged from_name result "pizza_quality_reason" "choices";
  if c : bool then
    s ← joined_choices result;
    Ok (Labels (image_quality l) (pizza_quality l) s (comments l))
  else
  c ← tagged from_name result "comments" "text";
  if c : bool then
    value ← Py.getitem result "value";
    text ← Py.getitem value "text";
    Ok (Labels (image_quality l) (pizza_quality l) (pizza_quality_reason l) text)
  else Ok l.

Fixpoint apply_results (results : list json) (l : labels) : pyresult labels :=
  match results with
  | [] => Ok l
  | result :: rest => l' ← apply_result result l; apply_results rest l'
  end.

(** The body of [for annotation in annotations]. *)
Definition apply_annotation (annotation : json) (l : labels) : pyresult labels :=
  has_result ← Py.contains "result" annotation;
  if has_result : bool then
    results ← Py.getitem annotation "result";
    results ← Py.iter results;
    apply_results results l
  else Ok l.

Fixpoint apply_annotations (annotations : list json) (l : labels) : pyresult labels :=
  match annotations with
  | [] => Ok l
  | annotation :: rest => l' ← apply_annotation annotation l; apply_annotations rest l'
  end.

(** [if annotations: for annotation in annotations: ...], from the
    default values. *)
Definition extract_labels (annotations : json) : pyresult labels :=
  if Py.truthy annotations then
    annotations ← Py.iter annotations;
    apply_annotations annotations defaults
  else Ok defaults.

(** The variables that live across the iterations of the loop over the
    records: the output list, and [image_filename], which is unbound until
    its first assignment and keeps its value afterwards. *)
Record env : Type := Env {
  annotation_data : list FlatRecord;
  image_filename_var : option json
}.

Section Extract.
(** [str(v)] for a value that is not a [str] (as the f-string formats it). *)
Variable str_of : json -> string.

Definition format (v : json) : string :=
  match v with JStr s => s | _ => str_of v end.

(** The body of [for item in data]. *)
Definition extract_item (item : json) (e : env) : pyresult env :=
  if negb (Py.is_dict item) then Ok e else
  has_data ← Py.contains "data" item;
  has_annotations ← (if has_data : bool then Py.contains "annotations" item
                     else Ok false);
  if negb has_data || negb has_annotations then Ok e else
  data ← Py.get item "data" (JDict []);
  has_image ← Py.contains "image" data;
  '(image_path, filename_var) ←
    (if has_image : bool then
       data ← Py.getitem item "data";
       image_filename ← Py.getitem data "image";
       Ok (Some (IMAGE_PREFIX +:+ format image_filename), Some image_filename)
     else Ok (None, image_filename_var e));
  annotations ← Py.get item "annotations" (JList []);
  l ← extract_labels annotations;
  match image_path with
  | Some path =>
      if negb (String.eqb path "") then
        Ok (Env (annotation_data e ++
                   [Flat path
                         (match filename_var with
                          | Some v => v
                          | None => JStr "N/A"
                          end)
                         l])
                filename_var)
      else Ok (Env (annotation_data e) filename_var)
  | None => Ok (Env (annotation_data e) filename_var)
  end.

Fixpoint extract_items (items : list json) (e : env) : pyresult env :=
  match items with
  | [] => Ok e
  | item :: rest => e' ← extract_item item e; extract_items rest e'
  end.

(** [extract_annotation_data(data)] *)
Definition extract_annotation_data (data : json) : pyresult (list FlatRecord) :=
  items ← Py.iter data;
  e ← extract_items items (Env [] None);
  Ok (annotation_data e).
End Extract.

End Extractor.

(** ** The specification's notions, for comparison with the code *)

Module Spec.

(** The final path segment: what follows the last separator (the whole
    text when there is none). *)
Fixpoint after_last (sep : ascii) (s : string) : string :=
  match s with
  | "" => ""
  | String c s' =>
      if Str.has_char sep s' then after_last sep s'
      else if Ascii.eqb c sep then s' else s
  end.

(** The text in front of the first separator (the whole text when there
    is none). *)
Fixpoint before_first (sep : ascii) (s : string) : string :=
  match s with
  | "" => ""
  | String c s' => if Ascii.eqb c sep then "" else String c (before_first sep s')
  end.

(** A bare filename: the final path segment without its query suffix. *)
Definition bare_filename (s : string) : string :=
  before_first "?" (after_last "/" s).

End Spec.

(** ** Sample documents *)

Module Docs.

(** A record with the given image value and nothing else. *)
Definition image_record (image_url : string) : json :=
  JDict [("data", JDict [("image", JStr image_url)])].

(** A one-record document before and after normalization, as text (with
    single quotes for double quotes) and as [json.loads] reads it. *)
Definition raw_text : string :=
  Str.dquote "[{'data': {'image': 'http://x/y/name.png?token=abc'}}]".
Definition raw_doc : json := JList [image_record "http://x/y/name.png?token=abc"].

Definition nl : string := String "010" "".
Definition clean_text : string :=
  Str.dquote ("[" +:+ nl +:+
              "    {" +:+ nl +:+
              "        'data': {" +:+ nl +:+
              "            'image': 'name.png'" +:+ nl +:+
              "        }" +:+ nl +:+
              "    }" +:+ nl +:+
              "]").
Definition clean_doc : json := JList [image_record "name.png"].

(** A document whose top-level value is an object, not a list. *)
Definition object_text : string := Str.dquote "{'image': 'a/b.jpg'}".
Definition object_doc : json := JDict [("image", JStr "a/b.jpg")].

(** A document whose top-level value is a number. *)
Definition number_text : string := "5".
Definition number_doc : json := JInt 5.

(** Text that is not JSON (the last closing brace is missing). *)
Definition broken_text : string :=
  Str.dquote "[{'data': {'image': 'azure-blob://pizza-image/FILENAME.jpg?QUERY'}]".

(** A record whose image value has an image extension in the middle of
    its file name. *)
Definition backup_text : string :=
  Str.dquote "[{'data': {'image': 'imgs/photo.jpg.bak'}}]".
Definition backup_doc : json := JList [image_record "imgs/photo.jpg.bak"].

(** [json.loads] on the sample texts: what it returns for each of them
    ([broken_text] is not among them, it does not parse). *)
Definition parsed : list (string * json) :=
  [(raw_text, raw_doc); (clean_text, clean_doc); (object_text, object_doc);
   (number_text, number_doc); (backup_text, backup_doc)].

Definition loads (s : string) : option json := Py.lookup s parsed.

(** The serializer on the sample documents. *)
Definition dumps (v : json) : string :=
  match v with
  | JList [JDict [("data", JDict [("image", JStr "name.png")])]] => clean_text
  | _ => ""
  end.

End Docs.

(** ** Shapes of JSON values *)

Module Shape.

(** [None], [bool], [int], [float]: the values [len] and [in] refuse. *)
Definition scalar (v : json) : bool :=
  match v with
  | JNull | JBool _ | JInt _ | JFloat _ => true
  | JStr _ | JList _ | JDict _ => false
  end.

Definition is_list (v : json) : bool :=
  match v with JList _ => true | _ => false end.

(** Every character of the text is in the class. *)
Fixpoint all_chars (p : ascii → bool) (s : string) : bool :=
  match s with
  | "" => true
  | String c s' => p c && all_chars p s'
  end.

End Shape.

(** ** Proof steps *)

(** Decide the comparisons of two given characters. *)
Ltac eqb_chars :=
  match goal with
  | |- context [Ascii.eqb ?a ?b] =>
      let v := eval vm_compute in (Ascii.eqb a b) in
      lazymatch v with
      | true => change (Ascii.eqb a b) with true
      | false => change (Ascii.eqb a b) with false
      end
  end.

(** One step through a computation in the error monad that is known to
    return: a bind whose first part must have returned, or a conditional. *)
Ltac step_ok H :=
  match type of H with
  | mbind _ ?m = Ok _ =>
      let E := fresh "E" in
      destruct m eqn:E; cbn [mbind result_bind] in H; [|discriminate H]
  | (if ?b then _ else _) = Ok _ =>
      let E := fresh "E" in destruct b eqn:E
  | Ok _ = Ok _ => injection H as H; subst
  end.

(** Run the matcher on the part of the text that is given. *)
Ltac run_match :=
  repeat (progress
            (repeat change (String.append (String ?c ?s) ?t)
               with (String c (String.append s t));
             repeat change (String.append EmptyString ?w) with w;
             cbn [Re.match_k Re.lit Re.chr Re.Plus Re.Opt];
             repeat eqb_chars)).

(** ** The image field of the fallback pattern *)

Module Field.

(** The text of an image field: the key between double quotes, blanks, a
    colon, blanks, and the value between double quotes. *)
Definition image_field (ws1 ws2 value : string) : string :=
  Str.DQ +:+ "image" +:+ Str.DQ +:+ ws1 +:+ ":" +:+ ws2 +:+ Str.DQ +:+ value
    +:+ Str.DQ.

(** An optional query: nothing, or a question mark and text without a
    double quote and without a slash. *)
Definition is_query (query : string) : Prop :=
  query = "" ∨
  ∃ q, query = String "?" q ∧ Shape.all_chars Re.not_quote q = true ∧
       Str.has_char "/" q = false.

Definition is_extension (ext : string) : Prop :=
  ext = "jpg" ∨ ext = "jpeg" ∨ ext = "png".

End Field.

(** ** Records and result entries, as the specification names them *)

Module Dataset.

Import Extractor.

(** The image value of a record that has the [data] and [annotations]
    keys and whose [data] is a mapping with an [image] key. *)
Definition included_image (item : json) : option json :=
  match item with
  | JDict kvs =>
      match Py.lookup "data" kvs, Py.lookup "annotations" kvs with
      | Some (JDict d), Some _ => Py.lookup "image" d
      | _, _ => None
      end
  | _ => None
  end.

(** The four recognized tags. *)
Inductive tag : Type :=
| ImageQuality
| PizzaQuality
| PizzaQualityReason
| Comments.

Definition tag_name (t : tag) : string :=
  match t with
  | ImageQuality => "image_quality"
  | PizzaQuality => "pizza_quality"
  | PizzaQualityReason => "pizza_quality_reason"
  | Comments => "comments"
  end.

(** The key of [value] a tag reads. *)
Definition key_of (t : tag) : string :=
  match t with
  | Comments => "text"
  | _ => "choices"
  end.

(** The output field of a tag. *)
Definition field_of (t : tag) (l : labels) : json :=
  match t with
  | ImageQuality => JStr (image_quality l)
  | PizzaQuality => JStr (pizza_quality l)
  | PizzaQualityReason => JStr (pizza_quality_reason l)
  | Comments => comments l
  end.

(** What a tag writes for the value found under its key: the choices
    joined with a comma and a blank, or the text as it is. *)
Definition render (t : tag) (payload : json) : pyresult json :=
  match t with
  | Comments => Ok payload
  | _ => s ← Py.join ", " payload; Ok (JStr s)
  end.

(** The result entries an annotation contributes, in order. *)
Definition results_in (annotation : json) : list json :=
  match Py.contains "result" annotation with
  | Ok true =>
      match Py.getitem annotation "result" ≫= Py.iter with
      | Ok results => results
      | Raise _ => []
      end
  | _ => []
  end.

(** A record with a string image and the given annotations. *)
Definition annotated (image_url : string) (annotations : json) : json :=
  JDict [("data", JDict [("image", JStr image_url)]); ("annotations", annotations)].

(** A result entry. *)
Definition entry (from_name key : string) (payload : json) : json :=
  JDict [("from_name", JStr from_name); ("value", JDict [(key, payload)])].

(** [str(v)] is not needed for records with string images. *)
Definition no_str : json → string := fun _ => "".

End Dataset.

(** ** Sample records *)

Module Samples.

(** One annotation with two [comments] entries, first then second. *)
Definition two_comments : json :=
  JList [JDict [("result",
                 JList [Dataset.entry "comments" "text" (JStr "first");
                        Dataset.entry "comments" "text" (JStr "second")])]].

(** A result entry with a recognized tag whose [value] is null. *)
Definition null_value : json :=
  JList [JDict [("result",
                 JList [JDict [("from_name", JStr "image_quality");
                               ("value", JNull)]])]].

End Samples.

(** ** Records that follow the types of the data model *)

Module Typed.

(** A list of strings. *)
Definition strings (v : json) : bool :=
  match v with
  | JList l => forallb (fun x => match x with JStr _ => true | _ => false end) l
  | _ => false
  end.

(** [value]: a mapping whose [choices], when present, is a list of
    strings. *)
Definition value_ok (v : json) : bool :=
  match v with
  | JDict kv =>
      match Py.lookup "choices" kv with
      | Some c => strings c
      | None => true
      end
  | _ => false
  end.

(** A result entry: a mapping whose [value], when present, is as above. *)
Definition result_ok (r : json) : bool :=
  match r with
  | JDict kvs =>
      match Py.lookup "value" kvs with
      | Some v => value_ok v
      | None => true
      end
  | _ => false
  end.

(** An annotation: a mapping whose [result], when present, is a list of
    result entries. *)
Definition annotation_ok (a : json) : bool :=
  match a with
  | JDict kvs =>
      match Py.lookup "result" kvs with
      | Some (JList rs) => forallb result_ok rs
      | Some _ => false
      | None => true
      end
  | _ => false
  end.

(** [annotations]: a list of annotations, or a value that counts as
    false (null, for one). *)
Definition annotations_ok (a : json) : bool :=
  match a with
  | JList l => forallb annotation_ok l
  | _ => negb (Py.truthy a)
  end.

(** A record: anything that is not a mapping or lacks one of the two
    keys (it is skipped), or a mapping whose [data] is a mapping and whose
    [annotations] are as above. *)
Definition record_ok (item : json) : bool :=
  match item with
  | JDict kvs =>
      match Py.lookup "data" kvs, Py.lookup "annotations" kvs with
      | Some d, Some a => Py.is_dict d && annotations_ok a
      | _, _ => true
      end
  | _ => true
  end.

End Typed.

(** ** The walk of the Image Locator, as the specification tells it *)

Module Match.

(** The first target name, in extraction order, that is a substring of
    the file name. *)
Definition first_match (image_names : list string) (file : string) : option string :=
  List.find (fun image_name => Str.contains image_name file) image_names.

(** A file system for examples: the list of copies made, where copying a
    file whose name mentions [locked] fails. *)
Definition copies : Type := list (string * string).
Definition copy_unless_locked (done : copies) (src dst : string) : copies * bool :=
  if Str.contains "locked" src then (done, false) else (done ++ [(src, dst)], true).

(** The names marked found are those of the copies made: every name marked
    found has a [Copied] line, and every [Copied] line is for a file with an
    image extension whose first match is that name. *)
Definition tallied {FS : Type} (image_names : list string) (st : Locator.state FS)
  : Prop :=
  (∀ m, m ∈ Locator.found_images st ↔ ∃ f, Locator.Copied f m ∈ Locator.log st) ∧
  (∀ f m, Locator.Copied f m ∈ Locator.log st →
          Locator.has_image_extension f = true ∧
          first_match image_names f = Some m).

End Match.

(** ** The end-to-end scenario of the specification *)

Module Scenario.

Definition good_pizza : json :=
  JList [JDict [("result",
                 JList [Dataset.entry "pizza_quality" "choices" (JList [JStr "Good"])])]].

(** Three records: an image URL with a query and one [pizza_quality]
    choice; a bare image name and no annotations; a record without the
    [annotations] key. *)
Definition input : json :=
  JList [Dataset.annotated "https://cdn/x/pizza1.jpg?sig=1" good_pizza;
         Dataset.annotated "pizza2.png" (JList []);
         Docs.image_record "pizza3.png"].

Definition normalized : json :=
  JList [Dataset.annotated "pizza1.jpg" good_pizza;
         Dataset.annotated "pizza2.png" (JList []);
         Docs.image_record "pizza3.png"].

End Scenario.

(** ** Records the Path Normalizer rewrites *)

Module Rewrite.

(** The string image value of a record, when it has one. *)
Definition image_string (item : json) : option string :=
  match item with
  | JDict kvs =>
      match Py.lookup "data" kvs with
      | Some (JDict d) =>
          match Py.lookup "image" d with
          | Some (JStr s) => Some s
          | _ => None
          end
      | _ => None
      end
  | _ => None
  end.

(** A record whose image value is a string with a slash. *)
Definition slash_image (item : json) : bool :=
  match image_string item with
  | Some s => Str.has_char "/" s
  | None => false
  end.

(** An image value as the structured pass leaves it. *)
Definition normalized_value (v : json) : json :=
  match v with
  | JStr s => if Str.has_char "/" s then JStr (Spec.bare_filename s) else v
  | _ => v
  end.

(** An image value on which [split] is called although it has no such
    method: a list with the element slash, or a mapping with the key slash. *)
Definition splits_non_string (v : json) : bool :=
  match v with
  | JList l => existsb (fun x => Py.eq_str x "/") l
  | JDict kvs => match Py.lookup "/" kvs with Some _ => true | None => false end
  | _ => false
  end.

End Rewrite.

(** ** More sample documents *)

Module MoreDocs.

(** A list whose second record has a number as [data]. *)
Definition number_data_text : string :=
  Str.dquote "[{'data': {'image': 'imgs/a.jpg'}}, {'data': 5}]".
Definition number_data_doc : json :=
  JList [Docs.image_record "imgs/a.jpg"; JDict [("data", JInt 5)]].

(** A list whose only record has a list as image value. *)
Definition list_image_text : string := Str.dquote "[{'data': {'image': ['/']}}]".
Definition list_image_doc : json :=
  JList [JDict [("data", JDict [("image", JList [JStr "/"])])]].

(** [json.loads] on these texts. *)
Definition parsed : list (string * json) :=
  [(number_data_text, number_data_doc); (list_image_text, list_image_doc)].

Definition loads (s : string) : option json := Py.lookup s parsed.

End MoreDocs.

(** ** The texts a pattern matches *)

Module Lang.

(** [lang r u]: the pattern [r] matches the whole of [u]. *)
Inductive lang : Re.regex → string → Prop :=
| lang_eps : lang Re.Eps ""
| lang_cls (p : ascii → bool) (c : ascii) :
    p c = true → lang (Re.Cls p) (String c "")
| lang_seq (r1 r2 : Re.regex) (u v : string) :
    lang r1 u → lang r2 v → lang (Re.Seq r1 r2) (u +:+ v)
| lang_alt_l (r1 r2 : Re.regex) (u : string) :
    lang r1 u → lang (Re.Alt r1 r2) u
| lang_alt_r (r1 r2 : Re.regex) (u : string) :
    lang r2 u → lang (Re.Alt r1 r2) u
| lang_star (p : ascii → bool) (u : string) :
    Shape.all_chars p u = true → lang (Re.Star p) u
| lang_group (r : Re.regex) (u : string) :
    lang r u → lang (Re.Group r) u.

(** A pattern without capture group. *)
Fixpoint group_free (r : Re.regex) : bool :=
  match r with
  | Re.Group _ => false
  | Re.Seq r1 r2 | Re.Alt r1 r2 => group_free r1 && group_free r2
  | Re.Eps | Re.Cls _ | Re.Star _ => true
  end.

(** A name as group 1 captures it: a non-empty name without double quote,
    slash and question mark, a dot, and one of the three extensions in lower
    case. *)
Definition captured (f : string) : Prop :=
  ∃ name ext, f = name +:+ "." +:+ ext ∧ name ≠ "" ∧
              Shape.all_chars Re.name_char name = true ∧ Field.is_extension ext.

End Lang.

(** ** The trace of the walk *)

Module Trace.

(** The file a printed line is about. *)
Definition event_file (ev : Locator.event) : string :=
  match ev with
  | Locator.Copied file _ => file
  | Locator.CopyError file => file
  end.

(** A file for which a copy is attempted: it has an image extension and
    some target name is a substring of its name. *)
Definition attempted (image_names : list string) (file : string) : bool :=
  Locator.has_image_extension file &&
  match Match.first_match image_names file with Some _ => true | None => false end.

(** The files of the walk, in the order they are visited. *)
Definition files_of (walk : list (string * list string)) : list string :=
  flat_map snd walk.

End Trace.

(** ** Records the Image Locator cannot read *)

Module Faults.

(** A [data] value on which the guard or the indexing of the locator raises
    [TypeError]: a number, a boolean or null (the membership test), a string
    with the substring image or a list with the element image (the
    indexing by a string). *)
Definition unreadable_data (data : json) : bool :=
  match data with
  | JNull | JBool _ | JInt _ | JFloat _ => true
  | JStr s => Str.contains "image" s
  | JList l => existsb (fun x => Py.eq_str x "image") l
  | JDict _ => false
  end.

Definition is_str (v : json) : bool :=
  match v with JStr _ => true | _ => false end.

End Faults.

(** * Annotation Viewer: the page shown ([streamlit_app.py], [main]) *)

Module Viewer.

Definition ITEMS_PER_PAGE : Z := 100.

(** How a slice bound is read against a list of [len] elements: a negative
    bound counts from the end, and every bound is clipped to the list. *)
Definition slice_bound (i len : Z) : Z :=
  (if i <? 0 then Z.max (i + len) 0 else Z.min i len)%Z.

(** [l[start:stop]] *)
Definition slice {A : Type} (l : list A) (start stop : Z) : list A :=
  let len := Z.of_nat (length l) in
  let lo := slice_bound start len in
  let hi := slice_bound stop len in
  take (Z.to_nat (hi - lo)) (drop (Z.to_nat lo) l).

(** [start_idx = (page_num - 1) * ITEMS_PER_PAGE] *)
Definition start_idx (page_num : Z) : Z := ((page_num - 1) * ITEMS_PER_PAGE)%Z.

(** [end_idx = min(start_idx + ITEMS_PER_PAGE, len(annotation_data))] *)
Definition end_idx {A : Type} (annotation_data : list A) (page_num : Z) : Z :=
  Z.min (start_idx page_num + ITEMS_PER_PAGE) (Z.of_nat (length annotation_data)).

(** [current_page_data = annotation_data[start_idx:end_idx]] *)
Definition current_page_data {A : Type} (annotation_data : list A) (page_num : Z)
  : list A :=
  slice annotation_data (start_idx page_num) (end_idx annotation_data page_num).

(** The pages [1 .. k], one after the other. *)
Definition pages {A : Type} (annotation_data : list A) (k : nat) : list (list A) :=
  map (fun i => current_page_data annotation_data (Z.of_nat (S i))) (seq 0 k).

End Viewer.

(** * Properties *)

(** ** Strings *)

Lemma append_cons (c : ascii) (s t : string) :
  String c s +:+ t = String c (s +:+ t).
Proof. reflexivity. Qed.

Lemma append_empty_r (s : string) : s +:+ "" = s.
Proof. induction s as [|c s IH]; [done|]. by rewrite !append_cons, IH. Qed.

Lemma append_assoc (s t u : string) : (s +:+ t) +:+ u = s +:+ (t +:+ u).
Proof. induction s as [|c s IH]; [done|]. by rewrite !append_cons, IH. Qed.

Lemma length_append (s t : string) :
  String.length (s +:+ t) = String.length s + String.length t.
Proof. induction s as [|c s IH]; [done|]. rewrite append_cons. cbn. by rewrite IH. Qed.

Lemma ascii_eqb_sym (a b : ascii) : Ascii.eqb a b = Ascii.eqb b a.
Proof.
  destruct (Ascii.eqb_spec a b) as [->|Hne].
  - symmetry. apply Ascii.eqb_refl.
  - symmetry. apply Ascii.eqb_neq. congruence.
Qed.

(** [c in s] with a one-character needle looks for the character. *)
Lemma contains_char (c : ascii) (s : string) :
  Str.contains (String c "") s = Str.has_char c s.
Proof.
  induction s as [|a s IH]; [reflexivity|].
  cbn [Str.contains Str.has_char Str.startswith]. rewrite IH.
  rewrite (ascii_eqb_sym c a). by destruct (Ascii.eqb a c).
Qed.

Lemma split_cons (sep : ascii) (s : string) :
  ∃ h t, Str.split sep s = h :: t.
Proof.
  induction s as [|c s (h & t & IH)]; [by eexists _, _|].
  cbn. destruct (Ascii.eqb c sep); [by eexists _, _|].
  rewrite IH. by eexists _, _.
Qed.

Lemma split_no_sep (sep : ascii) (s : string) :
  Str.has_char sep s = false → Str.split sep s = [s].
Proof.
  induction s as [|c s IH]; [done|].
  cbn. destruct (Ascii.eqb c sep); [done|].
  intros H. by rewrite (IH H).
Qed.

Lemma split_with_sep (sep : ascii) (s : string) :
  Str.has_char sep s = true → ∃ h x t, Str.split sep s = h :: x :: t.
Proof.
  induction s as [|c s IH]; [done|].
  cbn. destruct (Ascii.eqb c sep); cbn.
  - intros _. destruct (split_cons sep s) as (h & t & ->). by eexists _, _, _.
  - intros H. destruct (IH H) as (h & x & t & ->). by eexists _, _, _.
Qed.

(** The last piece of a split is what follows the last separator. *)
Lemma split_last (sep : ascii) (s : string) :
  ∃ seg, last (Str.split sep s) = Some seg ∧ Str.has_char sep seg = false ∧
         (Str.has_char sep s = false ∧ s = seg ∨
          Str.has_char sep s = true ∧ ∃ pre, s = pre +:+ String sep seg).
Proof.
  induction s as [|c s (seg & Hlast & Hseg & IH)].
  - exists "". split_and!; [done..|by left].
  - cbn [Str.split Str.has_char].
    destruct (Ascii.eqb_spec c sep) as [->|Hne].
    + destruct (split_cons sep s) as (h & t & Hsplit).
      exists seg. rewrite Hsplit, last_cons, <- Hsplit, Hlast.
      split_and!; [done..|]. right. split; [done|].
      destruct IH as [[_ ->]|[_ [pre ->]]]; [by exists ""|by exists (String sep pre)].
    + cbn [orb]. destruct IH as [[Hno ->]|[Hyes [pre ->]]].
      * rewrite (split_no_sep _ _ Hno).
        exists (String c seg). cbn. apply Ascii.eqb_neq in Hne. rewrite Hne.
        split_and!; [done..|by left].
      * destruct (split_with_sep _ _ Hyes) as (h & x & t & Hsplit).
        rewrite Hsplit in Hlast |- *.
        exists seg. split_and!; [|done|right; split; [done|by exists (String c pre)]].
        rewrite !last_cons in Hlast |- *. by destruct (last t).
Qed.

(** The first piece of a split is what precedes the first separator. *)
Lemma split_first (sep : ascii) (s : string) :
  ∃ h t, Str.split sep s = h :: t ∧ Str.has_char sep h = false ∧
         (s = h ∨ ∃ q, s = h +:+ String sep q).
Proof.
  induction s as [|c s (h & t & Hsplit & Hh & IH)].
  - exists "", []. split_and!; [done..|by left].
  - cbn [Str.split]. destruct (Ascii.eqb_spec c sep) as [->|Hne].
    + exists "", (Str.split sep s). split_and!; [done..|]. right. by exists s.
    + rewrite Hsplit. exists (String c h), t. split_and!; [done| |].
      * cbn. apply Ascii.eqb_neq in Hne. by rewrite Hne.
      * destruct IH as [->|[q ->]]; [by left|right; by exists q].
Qed.

Lemma after_last_no_sep (sep : ascii) (s : string) :
  Str.has_char sep s = false → Spec.after_last sep s = s.
Proof.
  destruct s as [|c s]; [done|]. cbn.
  destruct (Ascii.eqb c sep); [done|]. cbn. by intros ->.
Qed.

Lemma split_last_eq (sep : ascii) (s : string) :
  last (Str.split sep s) = Some (Spec.after_last sep s).
Proof.
  induction s as [|c s IH]; [done|].
  cbn [Str.split Spec.after_last].
  destruct (Str.has_char sep s) eqn:Hs.
  - destruct (split_with_sep _ _ Hs) as (h & x & t & Hsplit).
    rewrite Hsplit in IH |- *.
    rewrite last_cons_cons in IH.
    destruct (Ascii.eqb c sep); by rewrite !last_cons_cons.
  - rewrite (split_no_sep _ _ Hs). by destruct (Ascii.eqb c sep).
Qed.

Lemma split_first_eq (sep : ascii) (s : string) :
  head (Str.split sep s) = Some (Spec.before_first sep s).
Proof.
  induction s as [|c s IH]; [done|].
  cbn [Str.split Spec.before_first].
  destruct (Ascii.eqb c sep); [done|].
  destruct (split_cons sep s) as (h & t & Hsplit).
  rewrite Hsplit in IH |- *. by simplify_eq/=.
Qed.

Lemma before_first_no_sep (sep : ascii) (s : string) :
  Str.has_char sep s = false → Spec.before_first sep s = s.
Proof.
  induction s as [|c s IH]; [done|]. cbn.
  destruct (Ascii.eqb c sep); [done|]. cbn. by intros ->%IH.
Qed.

Lemma after_last_clean (sep : ascii) (s : string) :
  Str.has_char sep (Spec.after_last sep s) = false.
Proof.
  destruct (split_last sep s) as (seg & Hlast & Hseg & _).
  rewrite split_last_eq in Hlast. by simplify_eq.
Qed.

Lemma before_first_clean (sep : ascii) (s : string) :
  Str.has_char sep (Spec.before_first sep s) = false.
Proof.
  induction s as [|c s IH]; [done|]. cbn.
  destruct (Ascii.eqb c sep) eqn:E; [done|]. cbn. by rewrite E.
Qed.

Lemma before_first_keeps (sep c : ascii) (s : string) :
  Str.has_char c s = false → Str.has_char c (Spec.before_first sep s) = false.
Proof.
  induction s as [|a s IH]; [done|]. cbn.
  destruct (Ascii.eqb a sep); [done|]. cbn.
  destruct (Ascii.eqb a c); [done|]. apply IH.
Qed.

Lemma has_char_app_r (c : ascii) (u v : string) :
  Str.has_char c (u +:+ v) = false → Str.has_char c v = false.
Proof.
  induction u as [|a u IH]; [done|]. rewrite append_cons. cbn.
  intros [_ ?]%orb_false_iff. by apply IH.
Qed.

(** A bare filename has neither a slash nor a question mark, and sits in the
    image value behind the last slash, followed by the query suffix only. *)
Lemma bare_filename_spec (s : string) :
  Str.has_char "/" s = true →
  Str.has_char "/" (Spec.bare_filename s) = false ∧
  Str.has_char "?" (Spec.bare_filename s) = false ∧
  ∃ dir query,
    s = dir +:+ "/" +:+ Spec.bare_filename s +:+ query ∧
    Str.has_char "/" query = false ∧
    (query = "" ∨ ∃ q, query = String "?" q).
Proof.
  intros Hs. unfold Spec.bare_filename.
  split_and!.
  - apply before_first_keeps, after_last_clean.
  - apply before_first_clean.
  - destruct (split_last "/" s) as (seg & Hlast & Hseg & Hdec).
    rewrite split_last_eq in Hlast. simplify_eq.
    destruct Hdec as [[Hno _]|[_ [dir Hdir]]]; [congruence|].
    exists dir.
    destruct (split_first "?" (Spec.after_last "/" s)) as (h & t & Hsplit & Hh & Hq).
    pose proof (split_first_eq "?" (Spec.after_last "/" s)) as Hhead.
    rewrite Hsplit in Hhead. simplify_eq/=.
    destruct Hq as [Heq|[q Heq]].
    + exists "". split_and!; [|done|by left].
      rewrite <- Heq. by rewrite append_empty_r.
    + exists (String "?" q). split_and!; [| |right; by exists q].
      * by rewrite <- Heq.
      * rewrite Heq in Hseg. by apply has_char_app_r in Hseg.
Qed.

(** ** Python dictionaries *)

Lemma lookup_store_eq (k : string) (v : json) (kvs : list (string * json)) :
  Py.lookup k (Py.store k v kvs) = Some v.
Proof.
  induction kvs as [|[k' v'] kvs IH]; cbn.
  - by rewrite String.eqb_refl.
  - destruct (String.eqb k k') eqn:E; cbn; rewrite E; [done|apply IH].
Qed.

Lemma lookup_store_ne (k k' : string) (v : json) (kvs : list (string * json)) :
  k ≠ k' → Py.lookup k' (Py.store k v kvs) = Py.lookup k' kvs.
Proof.
  intros Hne. induction kvs as [|[k0 v0] kvs IH]; cbn.
  - destruct (String.eqb_spec k' k); [congruence|done].
  - destruct (String.eqb k k0) eqn:E; cbn; [|by rewrite IH].
    apply String.eqb_eq in E as ->.
    destruct (String.eqb_spec k' k0) as [->|]; [congruence|done].
Qed.

Lemma store_same (k : string) (v : json) (kvs : list (string * json)) :
  Py.lookup k kvs = Some v → Py.store k v kvs = kvs.
Proof.
  induction kvs as [|[k' v'] kvs IH]; cbn; [done|].
  destruct (String.eqb k k'); [congruence|]. intros H. by rewrite IH.
Qed.

(** ** Path Normalizer *)

(** The loop body on a record whose image value is a string with a slash. *)
Lemma clean_item_slash (kvs d : list (string * json)) (s : string) :
  Py.lookup "data" kvs = Some (JDict d) →
  Py.lookup "image" d = Some (JStr s) →
  Str.has_char "/" s = true →
  Normalizer.clean_item (JDict kvs) =
    Ok (JDict (Py.store "data"
                 (JDict (Py.store "image" (JStr (Spec.bare_filename s)) d)) kvs),
        true).
Proof.
  intros Hdata Himage Hslash. unfold Normalizer.clean_item. cbn.
  rewrite Hdata. cbn. rewrite Himage. cbn.
  rewrite contains_char, Hslash. cbn.
  unfold Py.last_item. rewrite split_last_eq. cbn.
  unfold Spec.bare_filename. rewrite contains_char.
  destruct (Str.has_char "?" (Spec.after_last "/" s)) eqn:Hq; cbn.
  - unfold Py.first_item.
    pose proof (split_first_eq "?" (Spec.after_last "/" s)) as Hhead.
    destruct (Str.split "?" (Spec.after_last "/" s)) as [|h t]; [done|].
    by simplify_eq/=.
  - by rewrite (before_first_no_sep _ _ Hq).
Qed.

(** The loop body on a record whose image value is a string without a
    slash: untouched, not counted. *)
Lemma clean_item_bare (kvs d : list (string * json)) (s : string) :
  Py.lookup "data" kvs = Some (JDict d) →
  Py.lookup "image" d = Some (JStr s) →
  Str.has_char "/" s = false →
  Normalizer.clean_item (JDict kvs) = Ok (JDict kvs, false).
Proof.
  intros Hdata Himage Hslash. unfold Normalizer.clean_item. cbn.
  rewrite Hdata. cbn. rewrite Himage. cbn.
  by rewrite contains_char, Hslash.
Qed.

Lemma clean_items_lookup (items items' : list json) (m n i : nat) (item : json) :
  Normalizer.clean_items items m = Ok (items', n) →
  items !! i = Some item →
  ∃ item' b, Normalizer.clean_item item = Ok (item', b) ∧ items' !! i = Some item'.
Proof.
  revert items' m i. induction items as [|x items IH]; intros items' m i; [done|].
  cbn. destruct (Normalizer.clean_item x) as [[x' b]|] eqn:Hx; [|done]. cbn.
  destruct (Normalizer.clean_items items _) as [[rest' k]|] eqn:Hrest; [|done]. cbn.
  intros [= <- <-]. destruct i as [|i]; cbn.
  - intros [= <-]. by eexists _, _.
  - intros Hi. by apply (IH _ _ _ Hrest).
Qed.

(** What the loop body can do to a record: nothing, or the rewrite of a
    string image value that has a slash. *)
Lemma clean_item_inv (item item' : json) (b : bool) :
  Normalizer.clean_item item = Ok (item', b) →
  (item' = item ∧ b = false) ∨
  ∃ kvs d s,
    item = JDict kvs ∧ Py.lookup "data" kvs = Some (JDict d) ∧
    Py.lookup "image" d = Some (JStr s) ∧ Str.has_char "/" s = true ∧
    item' = JDict (Py.store "data"
                     (JDict (Py.store "image" (JStr (Spec.bare_filename s)) d)) kvs) ∧
    b = true.
Proof.
  intros H. destruct item as [| | | | |l|kvs];
    try (left; unfold Normalizer.clean_item in H; by simplify_eq/=).
  destruct (Py.lookup "data" kvs) as [data|] eqn:Hdata.
  2:{ unfold Normalizer.clean_item in H. cbn in H. rewrite Hdata in H.
      left. by simplify_eq/=. }
  destruct data as [| | | |t|l|d];
    try (unfold Normalizer.clean_item in H; cbn in H; rewrite Hdata in H; by simplify_eq/=).
  - unfold Normalizer.clean_item in H; cbn in H; rewrite Hdata in H. cbn in H.
    destruct (Str.contains "image" t); [done|]. left. by simplify_eq/=.
  - unfold Normalizer.clean_item in H; cbn in H; rewrite Hdata in H. cbn in H.
    destruct (existsb _ l); [done|]. left. by simplify_eq/=.
  - destruct (Py.lookup "image" d) as [image_url|] eqn:Himage.
    2:{ unfold Normalizer.clean_item in H; cbn in H; rewrite Hdata in H. cbn in H.
        rewrite Himage in H. left. by simplify_eq/=. }
    destruct image_url as [| | | |s|l|kvs'];
      try (unfold Normalizer.clean_item in H; cbn in H; rewrite Hdata in H; cbn in H;
           rewrite Himage in H; by simplify_eq/=).
    + destruct (Str.has_char "/" s) eqn:Hslash.
      * rewrite (clean_item_slash _ _ _ Hdata Himage Hslash) in H.
        right. exists kvs, d, s. by simplify_eq.
      * rewrite (clean_item_bare _ _ _ Hdata Himage Hslash) in H.
        left. by simplify_eq.
    + unfold Normalizer.clean_item in H; cbn in H; rewrite Hdata in H; cbn in H.
      rewrite Himage in H. cbn in H. destruct (existsb _ l); [done|].
      left. by simplify_eq/=.
    + unfold Normalizer.clean_item in H; cbn in H; rewrite Hdata in H; cbn in H.
      rewrite Himage in H. cbn in H. destruct (Py.lookup "/" kvs'); [done|].
      left. by simplify_eq/=.
Qed.

Lemma clean_item_idem (item item' : json) (b : bool) :
  Normalizer.clean_item item = Ok (item', b) →
  Normalizer.clean_item item' = Ok (item', false).
Proof.
  intros H. destruct (clean_item_inv _ _ _ H) as [[-> ->]|(kvs & d & s & -> & Hd & Hi & Hs & -> & ->)];
    [done|].
  eapply clean_item_bare.
  - apply lookup_store_eq.
  - apply lookup_store_eq.
  - apply before_first_keeps, after_last_clean.
Qed.

Lemma clean_items_idem (items items' : list json) (m n : nat) :
  Normalizer.clean_items items m = Ok (items', n) →
  ∀ k, Normalizer.clean_items items' k = Ok (items', k).
Proof.
  revert items' m. induction items as [|x items IH]; intros items' m; cbn.
  - by intros [= <- <-].
  - destruct (Normalizer.clean_item x) as [[x' b]|] eqn:Hx; [|done]. cbn.
    destruct (Normalizer.clean_items items _) as [[rest' j]|] eqn:Hrest; [|done]. cbn.
    intros [= <- <-] k. cbn.
    rewrite (clean_item_idem _ _ _ Hx). cbn.
    by rewrite (IH _ _ Hrest).
Qed.

Lemma clean_items_strings (l : list string) (m : nat) :
  Normalizer.clean_items (map JStr l) m = Ok (map JStr l, m).
Proof.
  revert m. induction l as [|s l IH]; intros m; [done|].
  cbn. by rewrite IH.
Qed.

Lemma clean_data_dict (kvs : list (string * json)) :
  Normalizer.clean_data (JDict kvs) = Ok (JDict kvs, 0).
Proof.
  unfold Normalizer.clean_data. cbn.
  rewrite <- (map_map fst JStr kvs), clean_items_strings. done.
Qed.

Lemma clean_data_str (s : string) :
  Normalizer.clean_data (JStr s) = Ok (JStr s, 0).
Proof. unfold Normalizer.clean_data. cbn. by rewrite clean_items_strings. Qed.

(** The structured pass is idempotent on parsed documents. *)
Lemma clean_data_idem (data data' : json) (n : nat) :
  Normalizer.clean_data data = Ok (data', n) →
  Normalizer.clean_data data' = Ok (data', 0).
Proof.
  destruct data as [| | | |s|l|kvs]; try done.
  - rewrite clean_data_str. intros [= <- <-]. apply clean_data_str.
  - unfold Normalizer.clean_data. cbn.
    destruct (Normalizer.clean_items l 0) as [[l' k]|] eqn:Hl; [|done]. cbn.
    intros [= <- <-]. cbn. by rewrite (clean_items_idem _ _ _ _ Hl).
  - rewrite clean_data_dict. intros [= <- <-]. apply clean_data_dict.
Qed.

(** C5. For every record whose [data.image] value (a string) contains a
    slash, the loop body of the Path Normalizer replaces the value by its
    bare filename, the final path segment with the text from the first
    question mark on removed, and counts the record as modified; the record
    sits at its place in the normalized list.  The bare filename has no slash
    and no question mark, and the image value is a directory part, a slash,
    the bare filename and the query suffix.  In particular the image value
    http://x/y/name.png?token=abc becomes name.png. *)
Theorem normalizer_reduces_image_to_bare_filename
  (kvs d : list (string * json)) (s : string) :
  Py.lookup "data" kvs = Some (JDict d) →
  Py.lookup "image" d = Some (JStr s) →
  Str.has_char "/" s = true →
  let f := Spec.bare_filename s in
  let item' := JDict (Py.store "data" (JDict (Py.store "image" (JStr f) d)) kvs) in
  Normalizer.clean_item (JDict kvs) = Ok (item', true) ∧
  (∀ before after m items' n,
     Normalizer.clean_items (before ++ JDict kvs :: after) m = Ok (items', n) →
     items' !! length before = Some item') ∧
  Str.has_char "/" f = false ∧
  Str.has_char "?" f = false ∧
  (∃ dir query,
     s = dir +:+ "/" +:+ f +:+ query ∧
     Str.has_char "/" query = false ∧
     (query = "" ∨ ∃ q, query = String "?" q)) ∧
  Normalizer.clean_data Docs.raw_doc = Ok (Docs.clean_doc, 1).
Proof.
  intros Hdata Himage Hslash f item'.
  pose proof (clean_item_slash _ _ _ Hdata Himage Hslash) as Hitem.
  destruct (bare_filename_spec s Hslash) as (Hf1 & Hf2 & Hdec).
  split_and!; try done.
  intros before after m items' n Hrun.
  destruct (clean_items_lookup _ _ _ _ (length before) (JDict kvs) Hrun)
    as (x & b & Hx & Hlook).
  - by rewrite lookup_app_r, Nat.sub_diag.
  - rewrite Hitem in Hx. by simplify_eq.
Qed.

Lemma normalizer_reduces_image_to_bare_filename_witness :
  Normalizer.clean_item (Docs.image_record "http://x/y/name.png?token=abc") =
    Ok (Docs.image_record "name.png", true).
Proof.
  exact (proj1 (normalizer_reduces_image_to_bare_filename
                  [("data", JDict [("image", JStr "http://x/y/name.png?token=abc")])]
                  [("image", JStr "http://x/y/name.png?token=abc")]
                  "http://x/y/name.png?token=abc"
                  eq_refl eq_refl eq_refl)).
Defined.

(** C8. The Path Normalizer is idempotent on its structured path: when a
    run writes the document [data'] (with any count), a second run on the
    text of that document, read back as [data'], writes [data'] again and
    counts no record as modified. *)
Theorem normalizer_idempotent
  (json_loads : string → option json) (json_dumps : json → string)
  (json_content : string) (data' : json) (n : nat) :
  json_loads (json_dumps data') = Some data' →
  Normalizer.clean_image_paths_in_json json_loads json_content =
    Ok (Normalizer.Structured data' n) →
  Normalizer.clean_image_paths_in_json json_loads (json_dumps data') =
    Ok (Normalizer.Structured data' 0).
Proof.
  unfold Normalizer.clean_image_paths_in_json. intros Hread Hrun.
  rewrite Hread.
  destruct (json_loads json_content) as [data|]; [|done].
  destruct (Normalizer.clean_data data) as [[d k]|e] eqn:Hclean.
  - simplify_eq. by rewrite (clean_data_idem _ _ _ Hclean).
  - by destruct e.
Qed.

Lemma normalizer_idempotent_witness :
  Normalizer.clean_image_paths_in_json Docs.loads Docs.clean_text =
    Ok (Normalizer.Structured Docs.clean_doc 0).
Proof.
  exact (normalizer_idempotent Docs.loads Docs.dumps Docs.raw_text
           Docs.clean_doc 1 eq_refl eq_refl).
Defined.

(** ** The matcher and the substitution *)

Lemma star_k_shorter {A} (p : ascii → bool) (s : string)
      (k : string → option A) (x : A) :
  Re.star_k p s k = Some x →
  ∃ s', String.length s' ≤ String.length s ∧ k s' = Some x.
Proof.
  induction s as [|c s IH]; cbn.
  - intros H. by exists "".
  - destruct (p c).
    + destruct (Re.star_k p s k) as [y|] eqn:E.
      * intros [= ->]. destruct (IH eq_refl) as (s' & Hle & Hk).
        exists s'. split; [lia|done].
      * intros H. by exists (String c s).
    + intros H. by exists (String c s).
Qed.

(** A match hands a suffix of the text to what follows. *)
Lemma match_k_shorter {A} (r : Re.regex) (s : string) (cap : option string)
      (k : string → option string → option A) (x : A) :
  Re.match_k r s cap k = Some x →
  ∃ s' cap', String.length s' ≤ String.length s ∧ k s' cap' = Some x.
Proof.
  revert s cap k. induction r as [|p|r1 IH1 r2 IH2|r1 IH1 r2 IH2|p|r IH];
    intros s cap k; cbn.
  - intros H. by exists s, cap.
  - destruct s as [|c s]; [done|]. destruct (p c); [|done].
    intros H. exists s, cap. split; [cbn; lia|done].
  - intros H. destruct (IH1 _ _ _ H) as (s1 & cap1 & Hle1 & H1).
    destruct (IH2 _ _ _ H1) as (s2 & cap2 & Hle2 & H2).
    exists s2, cap2. split; [lia|done].
  - destruct (Re.match_k r1 s cap k) as [y|] eqn:E.
    + intros [= ->]. by apply IH1 in E.
    + by apply IH2.
  - intros H. destruct (star_k_shorter _ _ _ _ H) as (s' & Hle & Hk).
    by exists s', cap.
  - intros H. destruct (IH _ _ _ H) as (s1 & cap1 & Hle1 & H1).
    by exists s1, (Some (Re.consumed s s1)).
Qed.

Lemma match_k_lit_seq {A} (c : ascii) (l : string) (r : Re.regex) (s : string)
      (cap : option string) (k : string → option string → option A) (x : A) :
  Re.match_k (Re.Seq (Re.lit (String c l)) r) s cap k = Some x →
  ∃ s' cap', String.length s' < String.length s ∧ k s' cap' = Some x.
Proof.
  cbn. destruct s as [|a s]; [done|]. destruct (Ascii.eqb c a); [|done].
  intros H. apply match_k_shorter in H as (s1 & cap1 & Hle1 & H1).
  apply match_k_shorter in H1 as (s2 & cap2 & Hle2 & H2).
  exists s2, cap2. split; [cbn; lia|done].
Qed.

Lemma match_k_lit_seq_head {A} (c : ascii) (l : string) (r : Re.regex)
      (a : ascii) (s : string)
      (cap : option string) (k : string → option string → option A) :
  c ≠ a → Re.match_k (Re.Seq (Re.lit (String c l)) r) (String a s) cap k = None.
Proof. intros Hne. cbn. by destruct (Ascii.eqb_spec c a). Qed.

(** A match of the image pattern is never empty. *)
Lemma match_at_image_shorter (s cap rest : string) :
  Re.match_at Re.image_pattern s = Some (cap, rest) →
  String.length rest < String.length s.
Proof.
  unfold Re.match_at, Re.image_pattern. intros H.
  apply (match_k_lit_seq Str.dq ("image" +:+ Str.DQ)) in H as (s' & cap' & Hlt & H).
  by simplify_eq.
Qed.

(** The fuel of the substitution is enough: more fuel changes nothing. *)
Lemma sub_go_fuel (n m : nat) (s : string) :
  String.length s ≤ n → String.length s ≤ m → Re.sub_go n s = Re.sub_go m s.
Proof.
  revert m s. induction n as [|n IH]; intros m s Hn Hm.
  - destruct s; [|cbn in Hn; lia]. by destruct m.
  - destruct m as [|m]; [destruct s; [done|cbn in Hm; lia]|].
    destruct s as [|c s]; [done|]. cbn [Re.sub_go]. cbn in Hn, Hm.
    destruct (Re.match_at Re.image_pattern (String c s)) as [[cap rest]|] eqn:E.
    + apply match_at_image_shorter in E. cbn in E.
      f_equal. apply IH; lia.
    + f_equal. apply IH; lia.
Qed.

Lemma findall_go_fuel (n m : nat) (s : string) :
  String.length s ≤ n → String.length s ≤ m → Re.findall_go n s = Re.findall_go m s.
Proof.
  revert m s. induction n as [|n IH]; intros m s Hn Hm.
  - destruct s; [|cbn in Hn; lia]. by destruct m.
  - destruct m as [|m]; [destruct s; [done|cbn in Hm; lia]|].
    destruct s as [|c s]; [done|]. cbn [Re.findall_go]. cbn in Hn, Hm.
    destruct (Re.match_at Re.image_pattern (String c s)) as [[cap rest]|] eqn:E.
    + apply match_at_image_shorter in E. cbn in E.
      f_equal. apply IH; lia.
    + apply IH; lia.
Qed.

(** The equations of [re.sub]: a match at the front is replaced and the
    scan goes on behind it; otherwise the first character is copied. *)
Lemma sub_match (s cap rest : string) :
  Re.match_at Re.image_pattern s = Some (cap, rest) →
  Re.sub s = Re.image_replacement cap +:+ Re.sub rest.
Proof.
  intros H. pose proof (match_at_image_shorter _ _ _ H) as Hlt.
  unfold Re.sub. destruct s as [|c s]; [done|].
  cbn [String.length Re.sub_go]. rewrite H. f_equal.
  cbn in Hlt. apply sub_go_fuel; lia.
Qed.

Lemma sub_skip (c : ascii) (s : string) :
  Re.match_at Re.image_pattern (String c s) = None →
  Re.sub (String c s) = String c (Re.sub s).
Proof. intros H. unfold Re.sub. cbn [String.length Re.sub_go]. by rewrite H. Qed.

Lemma findall_match (s cap rest : string) :
  Re.match_at Re.image_pattern s = Some (cap, rest) →
  Re.findall s = cap :: Re.findall rest.
Proof.
  intros H. pose proof (match_at_image_shorter _ _ _ H) as Hlt.
  unfold Re.findall. destruct s as [|c s]; [done|].
  cbn [String.length Re.findall_go]. rewrite H. f_equal.
  cbn in Hlt. apply findall_go_fuel; lia.
Qed.

Lemma findall_skip (c : ascii) (s : string) :
  Re.match_at Re.image_pattern (String c s) = None →
  Re.findall (String c s) = Re.findall s.
Proof. intros H. unfold Re.findall. cbn [String.length Re.findall_go]. by rewrite H. Qed.

(** No match starts at a character that is not a double quote. *)
Lemma match_at_image_not_quote (c : ascii) (s : string) :
  c ≠ Str.dq → Re.match_at Re.image_pattern (String c s) = None.
Proof.
  intros Hc. unfold Re.match_at, Re.image_pattern.
  by apply (match_k_lit_seq_head Str.dq ("image" +:+ Str.DQ)).
Qed.

(** Text without a double quote is copied unchanged. *)
Lemma sub_no_quote (s : string) :
  Str.has_char Str.dq s = false → Re.sub s = s.
Proof.
  induction s as [|c s IH]; [done|]. cbn [Str.has_char].
  intros [Hc Hs]%orb_false_iff. apply Ascii.eqb_neq in Hc.
  rewrite sub_skip by by apply match_at_image_not_quote.
  by rewrite IH.
Qed.

Lemma match_k_lit {A} (l s : string) (cap : option string)
      (k : string → option string → option A) :
  Re.match_k (Re.lit l) (l +:+ s) cap k = k s cap.
Proof.
  induction l as [|c l IH]; [done|].
  rewrite append_cons. cbn. by rewrite Ascii.eqb_refl.
Qed.

(** A greedy star runs over a prefix of characters of its class. *)
Lemma star_k_prefix {A} (p : ascii → bool) (u w : string)
      (k : string → option A) (x : A) :
  Shape.all_chars p u = true →
  Re.star_k p w k = Some x →
  Re.star_k p (u +:+ w) k = Some x.
Proof.
  intros Hu Hw. induction u as [|c u IH]; [done|].
  rewrite append_cons. cbn in Hu |- *.
  apply andb_true_iff in Hu as [-> Hu]. by rewrite (IH Hu).
Qed.

Lemma star_k_stop {A} (p : ascii → bool) (c : ascii) (w : string)
      (k : string → option A) :
  p c = false → Re.star_k p (String c w) k = k (String c w).
Proof. intros H. cbn. by rewrite H. Qed.

(** Giving characters back does not help when what follows needs a
    character that the text does not have. *)
Lemma star_k_none {A} (p : ascii → bool) (sl : ascii) (u : string) (c : ascii)
      (w : string) (k : string → option A) :
  (∀ a t, a ≠ sl → k (String a t) = None) →
  Str.has_char sl u = false → c ≠ sl → p c = false →
  Re.star_k p (u +:+ String c w) k = None.
Proof.
  intros Hk Hu Hc Hp. induction u as [|a u IH].
  - change ("" +:+ String c w) with (String c w).
    rewrite star_k_stop by done. by apply Hk.
  - rewrite append_cons. cbn in Hu |- *.
    apply orb_false_iff in Hu as [Ha Hu]. apply Ascii.eqb_neq in Ha.
    rewrite (IH Hu), (Hk _ _ Ha). by destruct (p a).
Qed.

Lemma has_char_app (c : ascii) (u v : string) :
  Str.has_char c (u +:+ v) = Str.has_char c u || Str.has_char c v.
Proof.
  induction u as [|a u IH]; [done|]. rewrite append_cons. cbn.
  by rewrite IH, orb_assoc.
Qed.

Lemma all_chars_none_of (l : list ascii) (c : ascii) (u : string) :
  Shape.all_chars (Re.none_of l) u = true → c ∈ l → Str.has_char c u = false.
Proof.
  intros Hu Hc. induction u as [|a u IH]; [done|]. cbn in Hu |- *.
  apply andb_true_iff in Hu as [Ha Hu]. rewrite (IH Hu), orb_false_r.
  apply Ascii.eqb_neq. intros ->. unfold Re.none_of in Ha.
  apply negb_true_iff in Ha. apply not_true_iff_false in Ha. apply Ha.
  apply existsb_exists. exists c. split; [by apply list_elem_of_In|apply Ascii.eqb_refl].
Qed.

Lemma substring_app (u v : string) :
  String.substring 0 (String.length u) (u +:+ v) = u.
Proof.
  induction u as [|c u IH]; [by destruct v|].
  rewrite append_cons. cbn. by rewrite IH.
Qed.

Lemma consumed_app (u v : string) : Re.consumed (u +:+ v) v = u.
Proof.
  unfold Re.consumed. rewrite length_append.
  replace (String.length u + String.length v - String.length v)
    with (String.length u) by lia.
  apply substring_app.
Qed.

(** The optional query and the closing quote. *)
Lemma match_k_query {A} (query rest : string) (cap : option string)
      (k : string → option string → option A) (x : A) :
  (query = "" ∨ ∃ q, query = String "?" q ∧ Shape.all_chars Re.not_quote q = true) →
  k rest cap = Some x →
  Re.match_k (Re.Seq Re.query_part (Re.chr Str.dq)) (query +:+ String Str.dq rest) cap k
  = Some x.
Proof.
  intros [->|(q & -> & Hq)] Hk.
  - change ("" +:+ String Str.dq rest) with (String Str.dq rest).
    cbn. by rewrite Hk.
  - rewrite append_cons. cbn -[Re.star_k].
    erewrite star_k_prefix; [done|done|].
    rewrite star_k_stop by done. cbn. by rewrite Hk.
Qed.

Lemma match_k_ext {A} (ext W : string) (cap : option string)
      (k : string → option string → option A) (x : A) :
  ext = "jpg" ∨ ext = "jpeg" ∨ ext = "png" →
  k W cap = Some x →
  Re.match_k (Re.Alt (Re.lit "jpg") (Re.Alt (Re.lit "jpeg") (Re.lit "png")))
    (ext +:+ W) cap k = Some x.
Proof.
  intros [->|[->| ->]] Hk; run_match; by rewrite Hk.
Qed.

(** A greedy star in front of a character [sl] that what follows needs and
    that does not come again before the end of the run: the star gives back
    everything behind that character. *)
Lemma star_k_last {A} (p : ascii → bool) (sl : ascii) (u : string) (c : ascii)
      (w : string) (k : string → option A) :
  (∀ a t, a ≠ sl → k (String a t) = None) →
  Str.has_char sl u = false → c ≠ sl → p c = false →
  Re.star_k p (String sl (u +:+ String c w)) k = k (String sl (u +:+ String c w)).
Proof.
  intros Hk Hu Hc Hp. cbn [Re.star_k].
  rewrite (star_k_none p sl u c w k Hk Hu Hc Hp). by destruct (p sl).
Qed.

(** The inside of group 1 on a name, a dot and an extension, in front of a
    query or the closing quote. *)
Lemma match_k_filename_body {A} (name ext : string) (v0 : ascii) (V : string)
      (cap : option string) (k : string → option string → option A) (x : A) :
  name ≠ "" →
  Shape.all_chars Re.name_char name = true →
  ext = "jpg" ∨ ext = "jpeg" ∨ ext = "png" →
  v0 = Str.dq ∨ v0 = "?"%char →
  k (String v0 V) cap = Some x →
  Re.match_k
    (Re.Seq (Re.Plus Re.name_char)
       (Re.Seq (Re.chr ".") (Re.Alt (Re.lit "jpg") (Re.Alt (Re.lit "jpeg") (Re.lit "png")))))
    (name +:+ "." +:+ ext +:+ String v0 V) cap k = Some x.
Proof.
  intros Hne Hname Hext Hv0 Hk.
  destruct name as [|n0 name]; [done|]. cbn in Hname.
  apply andb_true_iff in Hname as [Hn0 Hname].
  cbn [Re.match_k Re.Plus].
  rewrite append_cons, Hn0.
  apply star_k_prefix; [done|].
  change ("." +:+ ext +:+ String v0 V) with (String "." (ext +:+ String v0 V)).
  rewrite star_k_last.
  - run_match. by apply match_k_ext.
  - intros a t Ha. run_match. by destruct (Ascii.eqb_spec "." a).
  - by destruct Hext as [->|[->| ->]].
  - by destruct Hv0 as [->| ->].
  - by destruct Hv0 as [->| ->].
Qed.

(** Group 1 captures the name and the extension. *)
Lemma match_k_filename {A} (name ext : string) (v0 : ascii) (V : string)
      (cap : option string) (k : string → option string → option A) (x : A) :
  name ≠ "" →
  Shape.all_chars Re.name_char name = true →
  ext = "jpg" ∨ ext = "jpeg" ∨ ext = "png" →
  v0 = Str.dq ∨ v0 = "?"%char →
  k (String v0 V) (Some (name +:+ "." +:+ ext)) = Some x →
  Re.match_k Re.filename_group (name +:+ "." +:+ ext +:+ String v0 V) cap k = Some x.
Proof.
  intros Hne Hname Hext Hv0 Hk.
  unfold Re.filename_group. cbn [Re.match_k].
  apply match_k_filename_body; [done..|].
  replace (name +:+ "." +:+ ext +:+ String v0 V)
    with ((name +:+ "." +:+ ext) +:+ String v0 V) by (by rewrite !append_assoc).
  by rewrite consumed_app.
Qed.

Lemma match_k_chr {A} (c : ascii) (s : string) (cap : option string)
      (k : string → option string → option A) :
  Re.match_k (Re.chr c) (String c s) cap k = k s cap.
Proof. cbn. by rewrite Ascii.eqb_refl. Qed.

Lemma match_k_chr_ne {A} (c a : ascii) (s : string) (cap : option string)
      (k : string → option string → option A) :
  a ≠ c → Re.match_k (Re.chr c) (String a s) cap k = None.
Proof. intros Hne. cbn. by destruct (Ascii.eqb_spec c a). Qed.

(** The pattern on an image field whose value is a directory part, a slash,
    a file name with one of the three extensions (lower case) and an
    optional query: the field matches and group 1 is the file name. *)
Lemma match_at_image_field (ws1 ws2 dir name ext query rest : string) :
  Shape.all_chars Re.is_space ws1 = true →
  Shape.all_chars Re.is_space ws2 = true →
  Shape.all_chars Re.not_quote dir = true →
  name ≠ "" →
  Shape.all_chars Re.name_char name = true →
  Field.is_extension ext →
  Field.is_query query →
  Re.match_at Re.image_pattern
    (Field.image_field ws1 ws2 (dir +:+ "/" +:+ name +:+ "." +:+ ext +:+ query) +:+ rest)
  = Some (name +:+ "." +:+ ext, rest).
Proof.
  intros Hws1 Hws2 Hdir Hne Hname Hext Hquery.
  unfold Re.match_at, Re.image_pattern, Field.image_field.
  rewrite !append_assoc.
  cbn [Re.match_k].
  change (Str.DQ +:+ "image" +:+ Str.DQ +:+ ?X)
    with ((Str.DQ +:+ "image" +:+ Str.DQ) +:+ X).
  rewrite match_k_lit.
  apply star_k_prefix; [done|].
  change (":" +:+ ?w) with (String ":" w).
  rewrite star_k_stop, match_k_chr by done.
  apply star_k_prefix; [done|].
  change (Str.DQ +:+ ?w) with (String Str.dq w).
  rewrite star_k_stop, match_k_chr by done.
  apply star_k_prefix; [done|].
  assert (Hslash : Str.has_char "/" (name +:+ "." +:+ ext +:+ query) = false).
  { rewrite !has_char_app, (all_chars_none_of _ "/" _ Hname) by set_solver.
    destruct Hext as [->|[->| ->]], Hquery as [->|(q & -> & _ & Hq)]; cbn; by rewrite ?Hq. }
  assert (Hv : ∃ v0 V, query +:+ String Str.dq rest = String v0 V ∧
                       (v0 = Str.dq ∨ v0 = "?"%char)).
  { destruct Hquery as [->|(q & -> & _)]; eexists _, _; (split; [done|]); by auto. }
  destruct Hv as (v0 & V & HV & Hv0).
  change ("/" +:+ ?w) with (String "/" w).
  change (Str.DQ +:+ rest) with (String Str.dq rest).
  replace (name +:+ "." +:+ ext +:+ query +:+ String Str.dq rest)
    with ((name +:+ "." +:+ ext +:+ query) +:+ String Str.dq rest)
    by (by rewrite !append_assoc).
  rewrite star_k_last;
    [|intros a t Ha; by apply match_k_chr_ne|done..].
  rewrite match_k_chr, !append_assoc, HV.
  apply match_k_filename; [done..|].
  rewrite <- HV. apply match_k_query; [|done].
  destruct Hquery as [->|(q & -> & Hq & _)]; [by left|right; by exists q].
Qed.

(** The substitution on an image field as in [match_at_image_field]: the
    field is rewritten to the key and the bare file name, and the scan goes
    on behind the field. *)
Lemma sub_image_field (ws1 ws2 dir name ext query rest : string) :
  Shape.all_chars Re.is_space ws1 = true →
  Shape.all_chars Re.is_space ws2 = true →
  Shape.all_chars Re.not_quote dir = true →
  name ≠ "" →
  Shape.all_chars Re.name_char name = true →
  Field.is_extension ext →
  Field.is_query query →
  Re.sub (Field.image_field ws1 ws2 (dir +:+ "/" +:+ name +:+ "." +:+ ext +:+ query)
            +:+ rest)
  = Field.image_field "" " " (name +:+ "." +:+ ext) +:+ Re.sub rest.
Proof.
  intros. erewrite sub_match by by apply match_at_image_field.
  unfold Re.image_replacement, Field.image_field. by rewrite !append_assoc.
Qed.

(** C3, as the code has it.  When the content is malformed JSON, or its
    top-level value is a number, a boolean or null, the Path Normalizer
    takes the fallback path and writes the pattern-based rewrite of the raw
    text.  A top-level object or string is not sent to the fallback: it is
    written back as parsed, with no record modified.  The rewrite turns an
    image field whose value is a directory part, a slash, a file name ending
    in .jpg, .jpeg or .png and an optional query into the field with the bare
    file name, copies a character at which the pattern does not match, and
    leaves text without a double quote unchanged. *)
Theorem normalizer_fallback_path
  (json_loads : string → option json) (json_content : string) :
  let run := Normalizer.clean_image_paths_in_json json_loads json_content in
  (json_loads json_content = None →
   run = Ok (Normalizer.Fallback (Re.sub json_content))) ∧
  (∀ v, json_loads json_content = Some v → Shape.scalar v = true →
        run = Ok (Normalizer.Fallback (Re.sub json_content))) ∧
  (∀ v, json_loads json_content = Some v →
        Shape.scalar v = false → Shape.is_list v = false →
        run = Ok (Normalizer.Structured v 0)) ∧
  (∀ ws1 ws2 dir name ext query rest,
     Shape.all_chars Re.is_space ws1 = true →
     Shape.all_chars Re.is_space ws2 = true →
     Shape.all_chars Re.not_quote dir = true →
     name ≠ "" →
     Shape.all_chars Re.name_char name = true →
     Field.is_extension ext →
     Field.is_query query →
     Re.sub (Field.image_field ws1 ws2
               (dir +:+ "/" +:+ name +:+ "." +:+ ext +:+ query) +:+ rest)
     = Field.image_field "" " " (name +:+ "." +:+ ext) +:+ Re.sub rest) ∧
  (∀ c s, Re.match_at Re.image_pattern (String c s) = None →
          Re.sub (String c s) = String c (Re.sub s)) ∧
  (∀ s, Str.has_char Str.dq s = false → Re.sub s = s).
Proof.
  intros run. unfold run, Normalizer.clean_image_paths_in_json.
  split_and!.
  - by intros ->.
  - intros v -> Hv. by destruct v.
  - intros v -> Hs Hl. destruct v as [| | | |s|l|kvs]; try done.
    + by rewrite clean_data_str.
    + by rewrite clean_data_dict.
  - apply sub_image_field.
  - apply sub_skip.
  - apply sub_no_quote.
Qed.

Lemma normalizer_fallback_path_witness :
  Normalizer.clean_image_paths_in_json Docs.loads Docs.broken_text =
    Ok (Normalizer.Fallback
          (Str.dquote "[{'data': {'image': 'FILENAME.jpg'}]")) ∧
  Normalizer.clean_image_paths_in_json Docs.loads Docs.number_text =
    Ok (Normalizer.Fallback "5") ∧
  Normalizer.clean_image_paths_in_json Docs.loads Docs.object_text =
    Ok (Normalizer.Structured Docs.object_doc 0).
Proof.
  split_and!.
  - exact (proj1 (normalizer_fallback_path Docs.loads Docs.broken_text) eq_refl).
  - exact (proj1 (proj2 (normalizer_fallback_path Docs.loads Docs.number_text))
             Docs.number_doc eq_refl eq_refl).
  - exact (proj1 (proj2 (proj2
             (normalizer_fallback_path Docs.loads Docs.object_text)))
             Docs.object_doc eq_refl eq_refl eq_refl).
Defined.

(** C3 as stated fails: a document whose top-level value is an object, not
    a list, is not sent to the fallback.  The run writes the parsed object
    back, image field untouched, where the textual rewrite would have
    reduced that field to the bare file name. *)
Lemma normalizer_object_not_fallback :
  Docs.loads Docs.object_text = Some Docs.object_doc ∧
  Shape.is_list Docs.object_doc = false ∧
  Normalizer.clean_image_paths_in_json Docs.loads Docs.object_text =
    Ok (Normalizer.Structured Docs.object_doc 0) ∧
  Re.sub Docs.object_text = Str.dquote "{'image': 'b.jpg'}" ∧
  Normalizer.clean_image_paths_in_json Docs.loads Docs.object_text ≠
    Ok (Normalizer.Fallback (Re.sub Docs.object_text)).
Proof. split_and!; [by vm_compute..|]. by vm_compute. Qed.

(** ** Annotation Extractor *)

Section ExtractorFacts.
Import Extractor.
Variable str_of : json → string.

Lemma image_path_nonempty (s : string) : String.eqb (IMAGE_PREFIX +:+ s) "" = false.
Proof. done. Qed.

(** A record without the [annotations] key is skipped, whatever else it
    holds. *)
Lemma extract_item_no_annotations (kvs : list (string * json)) (e : env) :
  Py.lookup "annotations" kvs = None →
  extract_item str_of (JDict kvs) e = Ok e.
Proof.
  intros Ha. unfold extract_item. cbn. rewrite Ha.
  by destruct (Py.lookup "data" kvs).
Qed.

Lemma extract_item_no_data (kvs : list (string * json)) (e : env) :
  Py.lookup "data" kvs = None →
  extract_item str_of (JDict kvs) e = Ok e.
Proof. intros Hd. unfold extract_item. cbn. by rewrite Hd. Qed.

(** A record with both keys and an image in its [data] mapping: the
    labels are extracted and one flat record is appended. *)
Lemma extract_item_image (kvs d : list (string * json)) (a v : json) (e : env) :
  Py.lookup "data" kvs = Some (JDict d) →
  Py.lookup "annotations" kvs = Some a →
  Py.lookup "image" d = Some v →
  extract_item str_of (JDict kvs) e =
    (l ← extract_labels a;
     Ok (Env (annotation_data e ++ [Flat (IMAGE_PREFIX +:+ format str_of v) v l])
             (Some v))).
Proof.
  intros Hd Ha Hv. unfold extract_item. cbn. rewrite Hd, Ha. cbn.
  rewrite Hv. cbn. by destruct (extract_labels a).
Qed.

(** A record with both keys whose [data] mapping has no image: the labels
    are extracted (which may raise) and nothing is appended. *)
Lemma extract_item_no_image (kvs d : list (string * json)) (a : json) (e : env) :
  Py.lookup "data" kvs = Some (JDict d) →
  Py.lookup "annotations" kvs = Some a →
  Py.lookup "image" d = None →
  extract_item str_of (JDict kvs) e =
    (l ← extract_labels a; Ok (Env (annotation_data e) (image_filename_var e))).
Proof.
  intros Hd Ha Hv. unfold extract_item. cbn. rewrite Hd, Ha. cbn.
  rewrite Hv. cbn. by destruct (extract_labels a).
Qed.

(** What an iteration of the loop over the records appends. *)
Lemma extract_item_appends (item : json) (e e' : env) :
  extract_item str_of item e = Ok e' →
  match Dataset.included_image item with
  | Some v => ∃ l, annotation_data e' =
                   annotation_data e ++ [Flat (IMAGE_PREFIX +:+ format str_of v) v l]
  | None => annotation_data e' = annotation_data e
  end.
Proof.
  intros H. destruct item as [| | | | | |kvs];
    try (unfold extract_item in H; by simplify_eq/=).
  cbn. destruct (Py.lookup "data" kvs) as [dv|] eqn:Hd.
  2:{ rewrite extract_item_no_data in H by done. by simplify_eq. }
  destruct (Py.lookup "annotations" kvs) as [a|] eqn:Ha.
  2:{ rewrite extract_item_no_annotations in H by done.
      destruct dv; by simplify_eq. }
  destruct dv as [| | | |t|l|d];
    try (unfold extract_item in H; cbn in H; rewrite Hd, Ha in H; by simplify_eq/=).
  - unfold extract_item in H; cbn in H; rewrite Hd, Ha in H. cbn in H.
    destruct (Str.contains "image" t); [done|]. cbn in H.
    destruct (extract_labels a); by simplify_eq/=.
  - unfold extract_item in H; cbn in H; rewrite Hd, Ha in H. cbn in H.
    destruct (existsb _ l); [done|]. cbn in H.
    destruct (extract_labels a); by simplify_eq/=.
  - destruct (Py.lookup "image" d) as [v|] eqn:Hv.
    + rewrite (extract_item_image _ _ _ _ _ Hd Ha Hv) in H.
      destruct (extract_labels a) as [l|]; [|done]. simplify_eq/=. by exists l.
    + rewrite (extract_item_no_image _ _ _ _ Hd Ha Hv) in H.
      destruct (extract_labels a) as [l|]; by simplify_eq/=.
Qed.

Lemma extract_items_filenames (items : list json) (e e' : env) :
  extract_items str_of items e = Ok e' →
  map image_filename (annotation_data e') =
    map image_filename (annotation_data e) ++ omap Dataset.included_image items.
Proof.
  revert e. induction items as [|item items IH]; intros e; cbn.
  - intros [= <-]. by rewrite app_nil_r.
  - destruct (extract_item str_of item e) as [e1|] eqn:H1; [|done]. cbn.
    intros H. rewrite (IH _ H). apply extract_item_appends in H1.
    destruct (Dataset.included_image item) as [v|].
    + destruct H1 as [l ->]. rewrite map_app. cbn. by rewrite <- app_assoc.
    + by rewrite H1.
Qed.

End ExtractorFacts.

(** C6. A record is included in the output of the Annotation Extractor if
    and only if it is a mapping that has both the [data] and the
    [annotations] key and whose [data] mapping contains an [image] value:
    an iteration that returns appends one flat record exactly for such a
    record, and the image file names of the output are those of the included
    records, in order.  A record with [data] but no [image] key is excluded,
    and a record without the [annotations] key is skipped even if
    [data.image] is present. *)
Theorem extractor_inclusion_rule (str_of : json → string) :
  (∀ item e e',
     Extractor.extract_item str_of item e = Ok e' →
     (is_Some (Dataset.included_image item) ↔
      ∃ fr, Extractor.annotation_data e' = Extractor.annotation_data e ++ [fr]) ∧
     (Dataset.included_image item = None ↔
      Extractor.annotation_data e' = Extractor.annotation_data e)) ∧
  (∀ items out,
     Extractor.extract_annotation_data str_of (JList items) = Ok out →
     map Extractor.image_filename out = omap Dataset.included_image items) ∧
  (∀ kvs d a e e',
     Py.lookup "data" kvs = Some (JDict d) →
     Py.lookup "image" d = None →
     Py.lookup "annotations" kvs = Some a →
     Extractor.extract_item str_of (JDict kvs) e = Ok e' →
     Extractor.annotation_data e' = Extractor.annotation_data e) ∧
  (∀ kvs e,
     Py.lookup "annotations" kvs = None →
     Extractor.extract_item str_of (JDict kvs) e = Ok e).
Proof.
  split_and!.
  - intros item e e' H. apply extract_item_appends in H.
    destruct (Dataset.included_image item) as [v|].
    + destruct H as [l H]. split.
      * split; [intros _; by eexists|done].
      * split; [done|]. rewrite H. intros Heq. apply (f_equal length) in Heq.
        rewrite length_app in Heq. cbn in Heq. lia.
    + split.
      * split; [by intros []|]. intros [fr Heq]. rewrite H in Heq.
        apply (f_equal length) in Heq. rewrite length_app in Heq. cbn in Heq. lia.
      * done.
  - intros items out. unfold Extractor.extract_annotation_data. cbn.
    destruct (Extractor.extract_items str_of items _) as [e'|] eqn:H; [|done].
    cbn. intros [= <-]. by rewrite (extract_items_filenames _ _ _ _ H).
  - intros kvs d a e e' Hd Hv Ha H.
    rewrite (extract_item_no_image _ _ _ _ _ Hd Ha Hv) in H.
    destruct (Extractor.extract_labels a); by simplify_eq/=.
  - intros kvs e Ha. by apply extract_item_no_annotations.
Qed.

Lemma extractor_inclusion_rule_witness :
  (is_Some (Dataset.included_image (Dataset.annotated "pizza2.png" (JList []))) ↔
   ∃ fr, [Extractor.Flat (Extractor.IMAGE_PREFIX +:+ "pizza2.png") (JStr "pizza2.png")
            Extractor.defaults] = [] ++ [fr]) ∧
  Extractor.extract_item Dataset.no_str (Docs.image_record "pizza3.png")
    (Extractor.Env [] None) = Ok (Extractor.Env [] None).
Proof.
  split.
  - exact (proj1 (proj1 (extractor_inclusion_rule Dataset.no_str)
             (Dataset.annotated "pizza2.png" (JList [])) (Extractor.Env [] None)
             _ eq_refl)).
  - exact (proj2 (proj2 (proj2 (extractor_inclusion_rule Dataset.no_str)))
             [("data", JDict [("image", JStr "pizza3.png")])] (Extractor.Env [] None)
             eq_refl).
Defined.

(** C2, as the code has it.  A record with an image in its [data] mapping
    and an [annotations] key whose value is empty (an empty list, or any
    other value that counts as false) yields a flat record whose four label
    fields are the sentinel N/A.  A record whose [annotations] key is absent
    yields no flat record: it is skipped. *)
Theorem extractor_empty_annotations
  (str_of : json → string) (kvs d : list (string * json)) (v : json)
  (e : Extractor.env) :
  Py.lookup "data" kvs = Some (JDict d) →
  Py.lookup "image" d = Some v →
  (∀ a, Py.lookup "annotations" kvs = Some a → Py.truthy a = false →
        Extractor.extract_item str_of (JDict kvs) e =
          Ok (Extractor.Env
                (Extractor.annotation_data e ++
                   [Extractor.Flat (Extractor.IMAGE_PREFIX +:+ Extractor.format str_of v)
                      v Extractor.defaults])
                (Some v))) ∧
  (Py.lookup "annotations" kvs = None →
   Extractor.extract_item str_of (JDict kvs) e = Ok e) ∧
  Extractor.defaults = Extractor.Labels "N/A" "N/A" "N/A" (JStr "N/A").
Proof.
  intros Hd Hv. split_and!; [|by apply extract_item_no_annotations|done].
  intros a Ha Hfalse. rewrite (extract_item_image _ _ _ _ _ _ Hd Ha Hv).
  unfold Extractor.extract_labels. by rewrite Hfalse.
Qed.

Lemma extractor_empty_annotations_witness :
  Extractor.extract_item Dataset.no_str (Dataset.annotated "pizza2.png" (JList []))
    (Extractor.Env [] None) =
  Ok (Extractor.Env
        [Extractor.Flat (Extractor.IMAGE_PREFIX +:+ "pizza2.png") (JStr "pizza2.png")
           (Extractor.Labels "N/A" "N/A" "N/A" (JStr "N/A"))]
        (Some (JStr "pizza2.png"))).
Proof.
  exact (proj1 (extractor_empty_annotations Dataset.no_str
                  [("data", JDict [("image", JStr "pizza2.png")]);
                   ("annotations", JList [])]
                  [("image", JStr "pizza2.png")] (JStr "pizza2.png")
                  (Extractor.Env [] None) eq_refl eq_refl)
           (JList []) eq_refl eq_refl).
Defined.

(** C2 as stated fails when the [annotations] key is absent: a record with
    an image file name and no [annotations] key yields no flat record at
    all. *)
Lemma extractor_absent_annotations_dropped :
  Py.lookup "annotations" [("data", JDict [("image", JStr "pizza3.png")])] = None ∧
  Extractor.extract_annotation_data Dataset.no_str
    (JList [Docs.image_record "pizza3.png"]) = Ok [] ∧
  ¬ ∃ fr, Extractor.extract_annotation_data Dataset.no_str
            (JList [Docs.image_record "pizza3.png"]) = Ok [fr] ∧
          Extractor.fields fr = Extractor.defaults.
Proof.
  split_and!; [done..|]. intros (fr & H & _). vm_compute in H. discriminate H.
Qed.

(** *** The chain on [from_name] *)

Lemma eq_str_true (v : json) (s : string) : Py.eq_str v s = true ↔ v = JStr s.
Proof.
  destruct v; cbn; try (split; [done|discriminate]).
  rewrite String.eqb_eq. split; [by intros ->|by intros [= ->]].
Qed.

Lemma eq_str_false (v : json) (s : string) : Py.eq_str v s = false ↔ v ≠ JStr s.
Proof. rewrite <- not_true_iff_false. by rewrite eq_str_true. Qed.

Lemma tagged_dict (from_name : json) (kvs : list (string * json)) (tg key : string) :
  Extractor.tagged from_name (JDict kvs) tg key =
    if Py.eq_str from_name tg then
      match Py.lookup "value" kvs with
      | Some value => Py.contains key value
      | None => Ok false
      end
    else Ok false.
Proof.
  unfold Extractor.tagged. cbn. destruct (Py.eq_str from_name tg); [|done].
  by destruct (Py.lookup "value" kvs).
Qed.

(** An entry with another [from_name] leaves the field of a tag alone. *)
Lemma apply_result_other (t : Dataset.tag) (x : json) (l l1 : Extractor.labels) :
  Py.get x "from_name" (JStr "") ≠ Ok (JStr (Dataset.tag_name t)) →
  Extractor.apply_result x l = Ok l1 →
  Dataset.field_of t l1 = Dataset.field_of t l.
Proof.
  intros Hne H. destruct x as [| | | | | |kvs]; try done.
  unfold Extractor.apply_result in H. cbn [Py.get mbind result_bind] in H.
  rewrite !tagged_dict in H.
  cbn in Hne.
  assert (Hfalse : Py.eq_str (match Py.lookup "from_name" kvs with
                              | Some x => x | None => JStr "" end)
                     (Dataset.tag_name t) = false).
  { apply eq_str_false. congruence. }
  destruct t; cbn in Hfalse; rewrite Hfalse in H; cbn in H;
    repeat step_ok H; done.
Qed.

(** An entry with the [from_name] of a tag, a [value] mapping and the key
    of the tag in it writes the field of the tag. *)
Lemma apply_result_sets (t : Dataset.tag) (kvs v : list (string * json))
      (payload : json) (l l1 : Extractor.labels) :
  Py.lookup "from_name" kvs = Some (JStr (Dataset.tag_name t)) →
  Py.lookup "value" kvs = Some (JDict v) →
  Py.lookup (Dataset.key_of t) v = Some payload →
  Extractor.apply_result (JDict kvs) l = Ok l1 →
  Dataset.render t payload = Ok (Dataset.field_of t l1).
Proof.
  intros Hn Hv Hp H.
  unfold Extractor.apply_result in H. cbn [Py.get mbind result_bind] in H.
  rewrite !tagged_dict, Hn, Hv in H.
  destruct t; cbn in Hp, H; rewrite Hp in H; cbn in H;
    unfold Extractor.joined_choices in H; cbn in H; rewrite ?Hv in H; cbn in H;
    rewrite ?Hp in H; cbn in H |- *;
    try (destruct (Py.join ", " payload); by simplify_eq/=);
    by simplify_eq/=.
Qed.

Lemma apply_results_app (xs ys : list json) (l : Extractor.labels) :
  Extractor.apply_results (xs ++ ys) l =
    (l1 ← Extractor.apply_results xs l; Extractor.apply_results ys l1).
Proof.
  revert l. induction xs as [|x xs IH]; intros l; [done|]. cbn.
  destruct (Extractor.apply_result x l); [apply IH|done].
Qed.

Lemma apply_annotation_results (a : json) (l l1 : Extractor.labels) :
  Extractor.apply_annotation a l = Ok l1 →
  Extractor.apply_results (Dataset.results_in a) l = Ok l1.
Proof.
  unfold Extractor.apply_annotation, Dataset.results_in.
  destruct (Py.contains "result" a) as [[|]|]; cbn; [|done..].
  destruct (Py.getitem a "result") as [r|]; cbn; [|done].
  by destruct (Py.iter r).
Qed.

(** The annotations of a record are walked as one sequence of entries. *)
Lemma apply_annotations_results (anns : list json) (l l1 : Extractor.labels) :
  Extractor.apply_annotations anns l = Ok l1 →
  Extractor.apply_results (flat_map Dataset.results_in anns) l = Ok l1.
Proof.
  revert l. induction anns as [|a anns IH]; intros l; [done|]. cbn.
  destruct (Extractor.apply_annotation a l) as [l2|] eqn:Ha; [|done]. cbn.
  intros H. rewrite apply_results_app, (apply_annotation_results _ _ _ Ha). cbn.
  by apply IH.
Qed.

Lemma apply_results_other (t : Dataset.tag) (xs : list json) (l l1 : Extractor.labels) :
  Forall (λ x, Py.get x "from_name" (JStr "") ≠ Ok (JStr (Dataset.tag_name t))) xs →
  Extractor.apply_results xs l = Ok l1 →
  Dataset.field_of t l1 = Dataset.field_of t l.
Proof.
  intros Hxs. revert l. induction Hxs as [|x xs Hx Hxs IH]; intros l; cbn.
  - by intros [= ->].
  - destruct (Extractor.apply_result x l) as [l2|] eqn:H2; [|done]. cbn.
    intros H. rewrite (IH _ H). by eapply apply_result_other.
Qed.

(** C7. Within one record the annotations and their result entries are
    walked in order and each recognized entry overwrites its output field:
    when the walk returns, the field of a tag is what the last entry with
    that [from_name] wrote (its choices joined, or its text).  Two entries
    with [from_name] comments and texts first, then second, give a flat
    record whose comments field is second. *)
Theorem extractor_last_entry_wins
  (t : Dataset.tag) (a : json) (annotations pre post : list json)
  (kvs v : list (string * json)) (payload : json) (l' : Extractor.labels) :
  Py.iter a = Ok annotations →
  Extractor.extract_labels a = Ok l' →
  flat_map Dataset.results_in annotations = pre ++ JDict kvs :: post →
  Py.lookup "from_name" kvs = Some (JStr (Dataset.tag_name t)) →
  Py.lookup "value" kvs = Some (JDict v) →
  Py.lookup (Dataset.key_of t) v = Some payload →
  Forall (λ x, Py.get x "from_name" (JStr "") ≠ Ok (JStr (Dataset.tag_name t))) post →
  Dataset.render t payload = Ok (Dataset.field_of t l') ∧
  Extractor.extract_annotation_data Dataset.no_str
    (JList [Dataset.annotated "pizza1.jpg" Samples.two_comments]) =
  Ok [Extractor.Flat (Extractor.IMAGE_PREFIX +:+ "pizza1.jpg") (JStr "pizza1.jpg")
        (Extractor.Labels "N/A" "N/A" "N/A" (JStr "second"))].
Proof.
  intros Hiter Hrun Hflat Hn Hv Hp Hpost. split; [|done].
  unfold Extractor.extract_labels in Hrun.
  destruct (Py.truthy a) eqn:Ht.
  2:{ destruct a as [| | | |[|c s]|[|x xs]|[|kv rest]]; simplify_eq/=; by destruct pre. }
  rewrite Hiter in Hrun. cbn in Hrun.
  apply apply_annotations_results in Hrun.
  rewrite Hflat, apply_results_app in Hrun.
  destruct (Extractor.apply_results pre _) as [l1|]; [|done].
  cbn [Extractor.apply_results mbind result_bind] in Hrun.
  destruct (Extractor.apply_result (JDict kvs) l1) as [l2|] eqn:H2; [|done].
  cbn [mbind result_bind] in Hrun. rewrite (apply_results_other t _ _ _ Hpost Hrun).
  by eapply apply_result_sets.
Qed.

Lemma extractor_last_entry_wins_witness :
  Dataset.render Dataset.Comments (JStr "second") =
    Ok (Dataset.field_of Dataset.Comments
          (Extractor.Labels "N/A" "N/A" "N/A" (JStr "second"))).
Proof.
  exact (proj1 (extractor_last_entry_wins Dataset.Comments Samples.two_comments
    [JDict [("result",
             JList [Dataset.entry "comments" "text" (JStr "first");
                    Dataset.entry "comments" "text" (JStr "second")])]]
    [Dataset.entry "comments" "text" (JStr "first")] []
    [("from_name", JStr "comments"); ("value", JDict [("text", JStr "second")])]
    [("text", JStr "second")] (JStr "second")
    (Extractor.Labels "N/A" "N/A" "N/A" (JStr "second"))
    eq_refl eq_refl eq_refl eq_refl eq_refl eq_refl (Forall_nil_2 _))).
Defined.

(** *** The extractor returns on typed records *)

Lemma as_strings_ok (l : list json) :
  forallb (λ x, match x with JStr _ => true | _ => false end) l = true →
  ∃ strs, Py.as_strings l = Ok strs.
Proof.
  induction l as [|x l IH]; cbn; [by eexists|].
  intros [Hx Hl]%andb_true_iff. destruct x; try done.
  destruct (IH Hl) as [strs ->]. by eexists.
Qed.

Lemma join_strings (sep : string) (c : json) :
  Typed.strings c = true → ∃ s, Py.join sep c = Ok s.
Proof.
  destruct c as [| | | | |l|]; try done. cbn. intros Hl.
  unfold Py.join. cbn. destruct (as_strings_ok l Hl) as [strs ->]. by eexists.
Qed.

Lemma apply_result_ok (r : json) (l : Extractor.labels) :
  Typed.result_ok r = true → ∃ l', Extractor.apply_result r l = Ok l'.
Proof.
  destruct r as [| | | | | |kvs]; try done. cbn. intros Hr.
  unfold Extractor.apply_result. cbn [Py.get mbind result_bind].
  rewrite !tagged_dict. unfold Extractor.joined_choices. cbn [Py.getitem].
  generalize (match Py.lookup "from_name" kvs with Some x => x | None => JStr "" end).
  intros fn.
  destruct (Py.lookup "value" kvs) as [val|].
  - destruct val as [| | | | | |kv]; try (by cbn in Hr). cbn in Hr.
    cbn [Py.contains Py.getitem].
    destruct (Py.lookup "choices" kv) as [c|] eqn:Hc,
             (Py.lookup "text" kv) as [x|] eqn:Hx;
      try (destruct (join_strings ", " c Hr) as [s Hs]);
      destruct (Py.eq_str fn "image_quality"), (Py.eq_str fn "pizza_quality"),
        (Py.eq_str fn "pizza_quality_reason"), (Py.eq_str fn "comments");
      cbn; rewrite ?Hc, ?Hx; cbn; rewrite ?Hs; cbn; by eexists.
  - destruct (Py.eq_str fn "image_quality"), (Py.eq_str fn "pizza_quality"),
      (Py.eq_str fn "pizza_quality_reason"), (Py.eq_str fn "comments");
      cbn; by eexists.
Qed.

Lemma apply_results_ok (rs : list json) (l : Extractor.labels) :
  forallb Typed.result_ok rs = true → ∃ l', Extractor.apply_results rs l = Ok l'.
Proof.
  revert l. induction rs as [|r rs IH]; intros l; cbn; [by eexists|].
  intros [Hr Hrs]%andb_true_iff.
  destruct (apply_result_ok r l Hr) as [l1 ->]. cbn. by apply IH.
Qed.

Lemma apply_annotation_ok (a : json) (l : Extractor.labels) :
  Typed.annotation_ok a = true → ∃ l', Extractor.apply_annotation a l = Ok l'.
Proof.
  destruct a as [| | | | | |kvs]; try done. cbn. intros Ha.
  unfold Extractor.apply_annotation. cbn.
  destruct (Py.lookup "result" kvs) as [rs|]; cbn; [|by eexists].
  destruct rs as [| | | | |rs|]; try done. cbn. by apply apply_results_ok.
Qed.

Lemma apply_annotations_ok (anns : list json) (l : Extractor.labels) :
  forallb Typed.annotation_ok anns = true →
  ∃ l', Extractor.apply_annotations anns l = Ok l'.
Proof.
  revert l. induction anns as [|a anns IH]; intros l; cbn; [by eexists|].
  intros [Ha Hanns]%andb_true_iff.
  destruct (apply_annotation_ok a l Ha) as [l1 ->]. cbn. by apply IH.
Qed.

Lemma extract_labels_ok (a : json) :
  Typed.annotations_ok a = true → ∃ l, Extractor.extract_labels a = Ok l.
Proof.
  intros Ha. unfold Extractor.extract_labels.
  destruct a as [| | | | |anns|];
    try (unfold Typed.annotations_ok in Ha; apply negb_true_iff in Ha;
         rewrite Ha; by eexists).
  destruct (Py.truthy (JList anns)); [|by eexists].
  cbn. by apply apply_annotations_ok.
Qed.

Lemma extract_item_ok (str_of : json → string) (item : json) (e : Extractor.env) :
  Typed.record_ok item = true → ∃ e', Extractor.extract_item str_of item e = Ok e'.
Proof.
  destruct item as [| | | | | |kvs]; try (by eexists). cbn [Typed.record_ok].
  destruct (Py.lookup "data" kvs) as [d|] eqn:Hd.
  2:{ rewrite extract_item_no_data by done. by eexists. }
  destruct (Py.lookup "annotations" kvs) as [a|] eqn:Ha.
  2:{ rewrite extract_item_no_annotations by done. by eexists. }
  intros [Hdict Hann]%andb_true_iff. destruct d as [| | | | | |dd]; try done.
  destruct (extract_labels_ok a Hann) as [l Hl].
  destruct (Py.lookup "image" dd) as [v|] eqn:Hv.
  - rewrite (extract_item_image _ _ _ _ _ _ Hd Ha Hv), Hl. by eexists.
  - rewrite (extract_item_no_image _ _ _ _ _ Hd Ha Hv), Hl. by eexists.
Qed.

Lemma extract_items_ok (str_of : json → string) (items : list json) (e : Extractor.env) :
  forallb Typed.record_ok items = true →
  ∃ e', Extractor.extract_items str_of items e = Ok e'.
Proof.
  revert e. induction items as [|item items IH]; intros e; cbn; [by eexists|].
  intros [Hitem Hitems]%andb_true_iff.
  destruct (extract_item_ok str_of item e Hitem) as [e1 ->]. cbn. by apply IH.
Qed.

(** C10, as the code has it.  On a list of records that follow the types
    of the data model (mappings where the walk expects mappings, lists where
    it expects lists, strings as choices) the Annotation Extractor returns
    and raises nothing.  An annotation without a [result] key contributes
    nothing, and a result entry whose [from_name] is one of the four
    recognized tags but which lacks the [value] key, or whose [value]
    mapping lacks the key of the tag ([choices] for the categorical tags,
    [text] for comments), is ignored: the labels stay as they were. *)
Theorem extractor_returns_on_typed_records (str_of : json → string) :
  (∀ items, forallb Typed.record_ok items = true →
            ∃ out, Extractor.extract_annotation_data str_of (JList items) = Ok out) ∧
  (∀ kvs l, Py.lookup "result" kvs = None →
            Extractor.apply_annotation (JDict kvs) l = Ok l) ∧
  (∀ t kvs l,
     Py.lookup "from_name" kvs = Some (JStr (Dataset.tag_name t)) →
     Py.lookup "value" kvs = None →
     Extractor.apply_result (JDict kvs) l = Ok l) ∧
  (∀ t kvs v l,
     Py.lookup "from_name" kvs = Some (JStr (Dataset.tag_name t)) →
     Py.lookup "value" kvs = Some (JDict v) →
     Py.lookup (Dataset.key_of t) v = None →
     Extractor.apply_result (JDict kvs) l = Ok l).
Proof.
  split_and!.
  - intros items Hitems. unfold Extractor.extract_annotation_data. cbn.
    destruct (extract_items_ok str_of items (Extractor.Env [] None) Hitems) as [e' ->].
    by eexists.
  - intros kvs l Hr. unfold Extractor.apply_annotation. cbn. by rewrite Hr.
  - intros t kvs l Hn Hv. unfold Extractor.apply_result. cbn [Py.get mbind result_bind].
    rewrite !tagged_dict, Hn, Hv. by destruct t.
  - intros t kvs v l Hn Hv Hk. unfold Extractor.apply_result.
    cbn [Py.get mbind result_bind].
    rewrite !tagged_dict, Hn, Hv. destruct t; cbn in Hk |- *; by rewrite Hk.
Qed.

Lemma extractor_returns_on_typed_records_witness :
  (∃ out, Extractor.extract_annotation_data Dataset.no_str
            (JList [Dataset.annotated "pizza1.jpg" Samples.two_comments;
                    Docs.image_record "pizza3.png"; JInt 7]) = Ok out) ∧
  Extractor.apply_annotation (JDict [("id", JInt 1)]) Extractor.defaults =
    Ok Extractor.defaults ∧
  Extractor.apply_result (JDict [("from_name", JStr "comments")]) Extractor.defaults =
    Ok Extractor.defaults ∧
  Extractor.apply_result
    (JDict [("from_name", JStr "image_quality"); ("value", JDict [("text", JStr "x")])])
    Extractor.defaults = Ok Extractor.defaults.
Proof.
  split_and!.
  - exact (proj1 (extractor_returns_on_typed_records Dataset.no_str)
             [Dataset.annotated "pizza1.jpg" Samples.two_comments;
              Docs.image_record "pizza3.png"; JInt 7] eq_refl).
  - exact (proj1 (proj2 (extractor_returns_on_typed_records Dataset.no_str))
             [("id", JInt 1)] Extractor.defaults eq_refl).
  - exact (proj1 (proj2 (proj2 (extractor_returns_on_typed_records Dataset.no_str)))
             Dataset.Comments [("from_name", JStr "comments")] Extractor.defaults
             eq_refl eq_refl).
  - exact (proj2 (proj2 (proj2 (extractor_returns_on_typed_records Dataset.no_str)))
             Dataset.ImageQuality
             [("from_name", JStr "image_quality"); ("value", JDict [("text", JStr "x")])]
             [("text", JStr "x")] Extractor.defaults eq_refl eq_refl eq_refl).
Defined.

(** C10 as stated fails: the extractor is not total on JSON-shaped input.
    A result entry with a recognized tag whose [value] is null makes the
    membership test on the value raise [TypeError], and nothing catches
    it. *)
Lemma extractor_raises_on_null_value :
  Extractor.extract_annotation_data Dataset.no_str
    (JList [Dataset.annotated "pizza1.jpg" Samples.null_value]) = Raise TypeError.
Proof. reflexivity. Qed.

(** ** Image Locator *)

(** A name that ends in an extension mentions it. *)
Lemma endswith_contains (suf s : string) :
  Str.endswith suf s = true → Str.contains suf s = true.
Proof.
  induction s as [|c s IH]; cbn.
  - rewrite orb_false_r. intros ->%String.eqb_eq. done.
  - intros [Heq|Hs]%orb_true_iff.
    + apply String.eqb_eq in Heq as ->. apply orb_true_iff. left.
      cbn. rewrite Ascii.eqb_refl. clear. induction s as [|a s IH]; [done|].
      cbn. by rewrite Ascii.eqb_refl.
    + apply orb_true_iff. right. by apply IH.
Qed.

Lemma has_extension_mentions (filename : string) :
  Locator.has_image_extension filename = true →
  Locator.mentions_image_extension filename = true.
Proof.
  unfold Locator.has_image_extension, Locator.mentions_image_extension.
  rewrite !existsb_exists. intros (ext & Hin & Hext).
  exists ext. split; [done|]. by apply endswith_contains.
Qed.

(** The name-extraction loop body on a record with a string image value. *)
Lemma name_of_item_string (kvs d : list (string * json)) (s : string) :
  Py.lookup "data" kvs = Some (JDict d) →
  Py.lookup "image" d = Some (JStr s) →
  Locator.name_of_item (JDict kvs) =
    Ok (if Locator.mentions_image_extension (Spec.bare_filename s)
        then Some (Spec.bare_filename s) else None).
Proof.
  intros Hd Hi. unfold Locator.name_of_item. cbn. rewrite Hd. cbn. rewrite Hi. cbn.
  destruct (split_cons "/" s) as (h & t & Hsplit). rewrite Hsplit.
  unfold Py.last_item. rewrite <- Hsplit, split_last_eq. cbn.
  pose proof (split_first_eq "?" (Spec.after_last "/" s)) as Hhead.
  destruct (Str.split "?" (Spec.after_last "/" s)) as [|q qs]; [done|].
  cbn in Hhead |- *. simplify_eq. fold (Spec.bare_filename s).
  by destruct (_ || _).
Qed.

(** A record whose bare file name ends in an image extension is collected. *)
Lemma name_of_item_with_extension (kvs d : list (string * json)) (s : string) :
  Py.lookup "data" kvs = Some (JDict d) →
  Py.lookup "image" d = Some (JStr s) →
  Locator.has_image_extension (Spec.bare_filename s) = true →
  Locator.name_of_item (JDict kvs) = Ok (Some (Spec.bare_filename s)).
Proof.
  intros Hd Hi Hext. rewrite (name_of_item_string _ _ _ Hd Hi).
  by rewrite (has_extension_mentions _ Hext).
Qed.

(** C1 fails on the code.  The name-extraction phase collects an image
    value as soon as its lower-cased bare file name contains one of the
    three extensions anywhere: photo.jpg.bak does not end in an image
    extension and is collected all the same, while the pattern of the
    fallback path of the same function finds no name in that text. *)
Theorem locator_collects_inner_extension :
  Locator.has_image_extension "photo.jpg.bak" = false ∧
  Locator.mentions_image_extension "photo.jpg.bak" = true ∧
  Locator.name_of_item (Docs.image_record "imgs/photo.jpg.bak") =
    Ok (Some "photo.jpg.bak") ∧
  Locator.extract_image_names_from_json Docs.loads Docs.backup_text =
    Ok ["photo.jpg.bak"] ∧
  Re.findall Docs.backup_text = [].
Proof. split_and!; by vm_compute. Qed.

Section LocatorFacts.
Variable FS : Type.
Variable copy2 : FS → string → string → FS * bool.
Variable target_dir : string.
Variable image_names : list string.

(** The scan over the target names stops at the first one that is a
    substring of the file name. *)
Lemma scan_names_first (root file : string) (names : list string) (st : Locator.state FS) :
  Locator.scan_names copy2 target_dir root file names st =
    match Match.first_match names file with
    | Some n => Locator.copy_matched copy2 target_dir root file n st
    | None => st
    end.
Proof.
  induction names as [|n names IH]; [done|].
  cbn. by destruct (Str.contains n file).
Qed.

Lemma first_match_split (names : list string) (file n : string) :
  Match.first_match names file = Some n →
  ∃ pre post, names = pre ++ n :: post ∧
              Forall (λ m, Str.contains m file = false) pre ∧
              Str.contains n file = true.
Proof.
  induction names as [|m names IH]; [done|]. cbn.
  destruct (Str.contains m file) eqn:Hm.
  - intros [= ->]. by exists [], names.
  - intros (pre & post & -> & Hpre & Hn)%IH.
    exists (m :: pre), post. split_and!; [done| |done]. by constructor.
Qed.

Lemma first_match_none (names : list string) (file : string) :
  Match.first_match names file = None →
  Forall (λ m, Str.contains m file = false) names.
Proof.
  induction names as [|m names IH]; [by constructor|]. cbn.
  destruct (Str.contains m file) eqn:Hm; [done|].
  intros H. constructor; [done|by apply IH].
Qed.

(** What copying a matched file does to the state: one call of
    [shutil.copy2], one line printed, and the name marked found exactly when
    the copy returned. *)
Lemma copy_matched_spec (root file n : string) (st : Locator.state FS) :
  let r := copy2 (Locator.fs st) (Locator.path_join root file)
                 (Locator.path_join target_dir file) in
  Locator.copy_matched copy2 target_dir root file n st =
    if r.2
    then Locator.State r.1 ({[n]} ∪ Locator.found_images st)
           (Locator.log st ++ [Locator.Copied file n])
    else Locator.State r.1 (Locator.found_images st)
           (Locator.log st ++ [Locator.CopyError file]).
Proof. unfold Locator.copy_matched. cbn. by destruct (copy2 _ _ _) as [fs' [|]]. Qed.

(** *** The names marked found are those of the copies made *)

Lemma tallied_visit_file (root file : string) (st : Locator.state FS) :
  Match.tallied image_names st →
  Match.tallied image_names
    (Locator.visit_file copy2 target_dir image_names root file st).
Proof.
  intros [Hfound Hlog]. unfold Locator.visit_file.
  destruct (Locator.has_image_extension file) eqn:Hext; [|done].
  rewrite scan_names_first.
  destruct (Match.first_match image_names file) as [n|] eqn:Hn; [|done].
  rewrite copy_matched_spec. cbn zeta.
  destruct (copy2 _ _ _) as [fs' [|]]; cbn [fst snd]; split; cbn.
  - intros m. rewrite elem_of_union, elem_of_singleton, Hfound.
    setoid_rewrite elem_of_app. setoid_rewrite list_elem_of_singleton.
    split.
    + intros [->|[f Hf]]; [exists file; by right|exists f; by left].
    + intros [f [Hf|[= _ ->]]]; [right; by exists f|by left].
  - intros f m [Hf|[= -> ->]%list_elem_of_singleton]%elem_of_app; [by apply Hlog|done].
  - intros m. rewrite Hfound.
    setoid_rewrite elem_of_app. setoid_rewrite list_elem_of_singleton.
    split; [intros [f Hf]; exists f; by left|by intros [f [Hf|[=]]]; exists f].
  - intros f m [Hf|[=]%list_elem_of_singleton]%elem_of_app. by apply Hlog.
Qed.

Lemma tallied_visit_files (root : string) (files : list string) (st : Locator.state FS) :
  Match.tallied image_names st →
  Match.tallied image_names
    (Locator.visit_files copy2 target_dir image_names root files st).
Proof.
  revert st. induction files as [|file files IH]; intros st Hst; [done|].
  cbn. apply IH. by apply tallied_visit_file.
Qed.

Lemma tallied_visit_dirs (walk : list (string * list string)) (st : Locator.state FS) :
  Match.tallied image_names st →
  Match.tallied image_names (Locator.visit_dirs copy2 target_dir image_names walk st).
Proof.
  revert st. induction walk as [|[root files] walk IH]; intros st Hst; [done|].
  cbn. apply IH. by apply tallied_visit_files.
Qed.

End LocatorFacts.

(** C4. During the walk, for every file with an image extension, the
    target names are checked in the order they were extracted and the first
    one that is a substring of the file name is the match of that file: the
    file is copied once, from its directory to the destination directory,
    one line is printed for it, and the scan over the names stops, so that
    at most that one name is marked found for the file.  A file that no
    target name matches leaves the state as it was. *)
Theorem locator_first_match_wins
  {FS : Type} (copy2 : FS → string → string → FS * bool)
  (target_dir : string) (image_names : list string)
  (root file : string) (st : Locator.state FS) :
  Locator.has_image_extension file = true →
  let st' := Locator.visit_file copy2 target_dir image_names root file st in
  match Match.first_match image_names file with
  | Some n =>
      (∃ pre post, image_names = pre ++ n :: post ∧
                   Forall (λ m, Str.contains m file = false) pre ∧
                   Str.contains n file = true) ∧
      st' = Locator.copy_matched copy2 target_dir root file n st ∧
      Locator.fs st' = (copy2 (Locator.fs st) (Locator.path_join root file)
                          (Locator.path_join target_dir file)).1 ∧
      (Locator.log st' = Locator.log st ++ [Locator.Copied file n] ∧
       Locator.found_images st' = {[n]} ∪ Locator.found_images st
       ∨
       Locator.log st' = Locator.log st ++ [Locator.CopyError file] ∧
       Locator.found_images st' = Locator.found_images st)
  | None =>
      Forall (λ m, Str.contains m file = false) image_names ∧ st' = st
  end.
Proof.
  intros Hext st'. unfold st', Locator.visit_file. rewrite Hext, scan_names_first.
  destruct (Match.first_match image_names file) as [n|] eqn:Hn.
  - split_and!; [by apply first_match_split|done|..];
      rewrite copy_matched_spec; cbn zeta;
      destruct (copy2 _ _ _) as [fs' [|]]; cbn; [done|done|by left|by right].
  - split; [by apply first_match_none|done].
Qed.

Lemma locator_first_match_wins_witness :
  Locator.visit_file Match.copy_unless_locked "label_images" ["abc.jpg"; "bc.jpg"; "c.jpg"]
    "src/a" "xbc.jpg" (Locator.State [] ∅ []) =
  Locator.copy_matched Match.copy_unless_locked "label_images" "src/a" "xbc.jpg" "bc.jpg"
    (Locator.State [] ∅ []).
Proof.
  exact (proj1 (proj2 (locator_first_match_wins Match.copy_unless_locked "label_images"
                         ["abc.jpg"; "bc.jpg"; "c.jpg"] "src/a" "xbc.jpg"
                         (Locator.State [] ∅ []) eq_refl))).
Defined.

(** C9. When copying a matched file fails, the error is caught and the
    walk goes on with the remaining files; the matched target name is not
    marked found by that file, and no later target name is tried for it:
    the only trace of the file is the error line.  At the end a target name
    is reported missing exactly when no copy made for it returned, and each
    copy that returned was of a file whose first match is that name. *)
Theorem locator_copy_failure
  {FS : Type} (path_exists : FS → string → bool) (makedirs : FS → string → option FS)
  (copy2 : FS → string → string → FS * bool)
  (target_dir : string) (image_names : list string)
  (root file n : string) (rest : list string) (fs' : FS) (st : Locator.state FS) :
  Locator.has_image_extension file = true →
  Match.first_match image_names file = Some n →
  copy2 (Locator.fs st) (Locator.path_join root file)
        (Locator.path_join target_dir file) = (fs', false) →
  let st' := Locator.State fs' (Locator.found_images st)
               (Locator.log st ++ [Locator.CopyError file]) in
  Locator.visit_file copy2 target_dir image_names root file st = st' ∧
  Locator.visit_files copy2 target_dir image_names root (file :: rest) st =
    Locator.visit_files copy2 target_dir image_names root rest st' ∧
  (∀ walk fs0 r,
     Locator.recursive_search_and_copy path_exists makedirs copy2 target_dir
       image_names walk fs0 = Ok r →
     (∀ m, m ∈ Locator.not_found r ↔
           m ∈ image_names ∧
           ¬ ∃ f, Locator.Copied f m ∈ Locator.log (Locator.final r)) ∧
     (∀ f m, Locator.Copied f m ∈ Locator.log (Locator.final r) →
             Locator.has_image_extension f = true ∧
             Match.first_match image_names f = Some m)).
Proof.
  intros Hext Hn Hcopy st'.
  assert (Hfile : Locator.visit_file copy2 target_dir image_names root file st = st').
  { unfold Locator.visit_file. rewrite Hext, scan_names_first, Hn, copy_matched_spec.
    cbn zeta. by rewrite Hcopy. }
  split_and!; [done|by cbn; rewrite Hfile|].
  intros walk fs0 r. unfold Locator.recursive_search_and_copy.
  destruct (if path_exists fs0 target_dir then _ else _) as [fs1|]; [|done]. cbn.
  intros [= <-]. cbn.
  destruct (tallied_visit_dirs FS copy2 target_dir image_names walk
              (Locator.State fs1 ∅ [])) as [Hfound Hlog].
  { split; cbn; [|by intros f m ?%elem_of_nil].
    intros m. split; [by intros ?%elem_of_empty|by intros [f ?%elem_of_nil]]. }
  split; [|done].
  intros m. rewrite elem_of_difference, elem_of_list_to_set, Hfound. done.
Qed.

Lemma locator_copy_failure_witness :
  Locator.visit_file Match.copy_unless_locked "label_images" ["bc.jpg"; "c.jpg"]
    "src/locked" "xbc.jpg" (Locator.State [] ∅ []) =
  Locator.State [] ∅ [Locator.CopyError "xbc.jpg"].
Proof.
  exact (proj1 (locator_copy_failure (λ _ _, true) (λ fs _, Some fs)
                  Match.copy_unless_locked "label_images" ["bc.jpg"; "c.jpg"]
                  "src/locked" "xbc.jpg" "bc.jpg" [] [] (Locator.State [] ∅ [])
                  eq_refl eq_refl eq_refl)).
Defined.

(** ** Worked examples *)

(** The scenario of the specification: the first image is reduced to its
    bare name and counted, the other two records are unchanged; the
    extraction yields two flat records, the third record is dropped. *)
Example scenario_normalized :
  Normalizer.clean_data Scenario.input = Ok (Scenario.normalized, 1).
Proof. reflexivity. Qed.

Example scenario_extracted :
  Extractor.extract_annotation_data Dataset.no_str Scenario.normalized =
  Ok [Extractor.Flat (Extractor.IMAGE_PREFIX +:+ "pizza1.jpg") (JStr "pizza1.jpg")
        (Extractor.Labels "N/A" "Good" "N/A" (JStr "N/A"));
      Extractor.Flat (Extractor.IMAGE_PREFIX +:+ "pizza2.png") (JStr "pizza2.png")
        (Extractor.Labels "N/A" "N/A" "N/A" (JStr "N/A"))].
Proof. reflexivity. Qed.

(** The pattern on the example of the source comment. *)
Example sub_source_comment :
  Re.sub (Str.dquote "'image': 'azure-blob://pizza-image/FILENAME.jpg?QUERY'") =
  Str.dquote "'image': 'FILENAME.jpg'".
Proof. by vm_compute. Qed.

(** The greedy directory part takes the last slash behind which the rest
    still matches. *)
Example sub_last_slash :
  Re.sub (Str.dquote "'image':'a/b.jpg?x/c.png?y'") = Str.dquote "'image': 'c.png'".
Proof. by vm_compute. Qed.

Example sub_query_with_slash :
  Re.sub (Str.dquote "'image':'a/b.jpeg?x/c'") = Str.dquote "'image': 'b.jpeg'".
Proof. by vm_compute. Qed.

(** The pattern is case sensitive and wants the extension at the end of
    the name. *)
Example sub_upper_case :
  Re.sub (Str.dquote "'image':'a/b.JPG'") = Str.dquote "'image':'a/b.JPG'".
Proof. by vm_compute. Qed.

Example sub_not_at_end :
  Re.sub (Str.dquote "'image':'a/b.jpgx' 'image':'a/b.jpg/c.txt' 'image':'/.jpg'") =
  Str.dquote "'image':'a/b.jpgx' 'image':'a/b.jpg/c.txt' 'image':'/.jpg'".
Proof. by vm_compute. Qed.

Example findall_two_fields :
  Re.findall (Str.dquote "{'image' :  'azure-blob://pizza-image/a?b/FILE.x.jpg?QUERY=1/2', 'image':'a/b.jpeg''image':'a/b.JPG'") =
  ["FILE.x.jpg"; "b.jpeg"].
Proof. by vm_compute. Qed.

(** Substring matching of target names (P5 of the specification). *)
Example substring_matching :
  Str.contains "abc.jpg" "abc.jpg" = true ∧
  Str.contains "abc.jpg" "xxx_abc.jpg" = true ∧
  Str.contains "abc.jpg" "abc.jpg.bak" = true ∧
  Str.contains "abc.jpg" "ab.jpg" = false.
Proof. by split_and!. Qed.

(** * Further properties of the scripts *)

(** ** Path Normalizer: counting, invariants, failures *)

Lemma slash_image_spec (item : json) :
  Rewrite.slash_image item = true ↔
  ∃ kvs d s, item = JDict kvs ∧ Py.lookup "data" kvs = Some (JDict d) ∧
             Py.lookup "image" d = Some (JStr s) ∧ Str.has_char "/" s = true.
Proof.
  unfold Rewrite.slash_image, Rewrite.image_string. split.
  - destruct item as [| | | | | |kvs]; try done.
    destruct (Py.lookup "data" kvs) as [[| | | | | |d]|] eqn:Hd; try done.
    destruct (Py.lookup "image" d) as [[| | | |s| |]|] eqn:Hi; try done.
    intros Hs. by exists kvs, d, s.
  - intros (kvs & d & s & -> & -> & -> & Hs). done.
Qed.

(** The loop body counts a record exactly when its image value is a string
    with a slash, and leaves a record that is not one. *)
Lemma clean_item_counts (item item' : json) (b : bool) :
  Normalizer.clean_item item = Ok (item', b) →
  b = Rewrite.slash_image item ∧ Rewrite.slash_image item' = false.
Proof.
  intros H. destruct (Rewrite.slash_image item) eqn:Hsl.
  - apply slash_image_spec in Hsl as (kvs & d & s & -> & Hd & Hi & Hs).
    rewrite (clean_item_slash _ _ _ Hd Hi Hs) in H. simplify_eq. split; [done|].
    apply not_true_iff_false. intros (kvs' & d' & s' & Heq & Hd' & Hi' & Hs')%slash_image_spec.
    simplify_eq. rewrite lookup_store_eq in Hd'. simplify_eq.
    rewrite lookup_store_eq in Hi'. simplify_eq.
    pose proof (before_first_keeps "?" "/" _ (after_last_clean "/" s)) as Hno.
    unfold Spec.bare_filename in Hs'. congruence.
  - destruct (clean_item_inv _ _ _ H) as [[-> ->]|(kvs & d & s & -> & Hd & Hi & Hs & _)];
      [done|].
    assert (Rewrite.slash_image (JDict kvs) = true) by (apply slash_image_spec; eauto 10).
    congruence.
Qed.

Lemma clean_items_counts (items items' : list json) (m n : nat) :
  Normalizer.clean_items items m = Ok (items', n) →
  n = m + length (filter (λ x, Rewrite.slash_image x = true) items) ∧
  length items' = length items ∧
  Forall (λ x, Rewrite.slash_image x = false) items'.
Proof.
  revert items' m n. induction items as [|x items IH]; intros items' m n.
  - intros [= <- <-]. split_and!; [cbn; lia|done|constructor].
  - cbn [Normalizer.clean_items].
    destruct (Normalizer.clean_item x) as [[x' b]|] eqn:Hx; [|done].
    cbn [mbind result_bind].
    destruct (Normalizer.clean_items items _) as [[rest' k]|] eqn:Hrest; [|done].
    cbn [mbind result_bind].
    intros [= <- <-]. destruct (IH _ _ _ Hrest) as (-> & Hlen & Hall).
    destruct (clean_item_counts _ _ _ Hx) as [-> Hx'].
    split_and!; [|cbn; by rewrite Hlen|by constructor].
    rewrite filter_cons. destruct (Rewrite.slash_image x) eqn:Hs.
    + rewrite decide_True by done. cbn. lia.
    + rewrite decide_False by (by intros ?). lia.
Qed.

(** X1.  On the structured path the count that the Path Normalizer reports
    is the number of records whose image value is a string with a slash, and
    the written list has as many records as the input. *)
Theorem normalizer_counts_slash_images
  (json_loads : string → option json) (json_content : string)
  (items : list json) (data' : json) (n : nat) :
  json_loads json_content = Some (JList items) →
  Normalizer.clean_image_paths_in_json json_loads json_content =
    Ok (Normalizer.Structured data' n) →
  n = length (filter (λ x, Rewrite.slash_image x = true) items) ∧
  ∃ items', data' = JList items' ∧ length items' = length items.
Proof.
  unfold Normalizer.clean_image_paths_in_json, Normalizer.clean_data.
  intros -> H. cbn in H.
  destruct (Normalizer.clean_items items 0) as [[items' k]|e] eqn:Hrun; cbn in H.
  - simplify_eq. destruct (clean_items_counts _ _ _ _ Hrun) as (-> & Hlen & _).
    split; [done|]. by exists items'.
  - by destruct e.
Qed.

Lemma normalizer_counts_slash_images_witness :
  1 = length (filter (λ x, Rewrite.slash_image x = true) [Docs.image_record "http://x/y/name.png?token=abc"]) ∧
  ∃ items', Docs.clean_doc = JList items' ∧ length items' = 1.
Proof.
  exact (normalizer_counts_slash_images Docs.loads Docs.raw_text
           [Docs.image_record "http://x/y/name.png?token=abc"] Docs.clean_doc 1
           eq_refl eq_refl).
Defined.

(** X2.  After a structured run no record of the written list has a string
    image value with a slash. *)
Theorem normalizer_output_has_no_slash
  (items items' : list json) (n : nat) (i : nat)
  (kvs d : list (string * json)) (s : string) :
  Normalizer.clean_data (JList items) = Ok (JList items', n) →
  items' !! i = Some (JDict kvs) →
  Py.lookup "data" kvs = Some (JDict d) →
  Py.lookup "image" d = Some (JStr s) →
  Str.has_char "/" s = false.
Proof.
  unfold Normalizer.clean_data. cbn.
  destruct (Normalizer.clean_items items 0) as [[l k]|] eqn:Hrun; [|done]. cbn.
  intros [= <- <-] Hi Hd Him.
  destruct (clean_items_counts _ _ _ _ Hrun) as (_ & _ & Hall).
  rewrite Forall_lookup in Hall. specialize (Hall _ _ Hi).
  apply not_true_iff_false. intros Hs. apply not_true_iff_false in Hall. apply Hall.
  apply slash_image_spec. by exists kvs, d, s.
Qed.

Lemma normalizer_output_has_no_slash_witness :
  Str.has_char "/" "name.png" = false.
Proof.
  exact (normalizer_output_has_no_slash
           [Docs.image_record "http://x/y/name.png?token=abc"]
           [Docs.image_record "name.png"] 1 0
           [("data", JDict [("image", JStr "name.png")])] [("image", JStr "name.png")]
           "name.png" eq_refl eq_refl eq_refl eq_refl).
Defined.

Lemma store_keys (k : string) (v x : json) (kvs : list (string * json)) :
  Py.lookup k kvs = Some x → map fst (Py.store k v kvs) = map fst kvs.
Proof.
  induction kvs as [|[k' v'] kvs IH]; cbn; [done|].
  destruct (String.eqb k k'); cbn; [done|]. intros H. by rewrite IH.
Qed.

(** X3.  The structured pass changes nothing but the image value: a record
    of the written list either is the input record, or it is a mapping with
    the same keys in the same order, the same value under every key but
    [data], and a [data] mapping with the same keys in the same order and
    the same value under every key but [image], which holds the bare file
    name. *)
Theorem normalizer_keeps_everything_else
  (items items' : list json) (m n i : nat) (item : json) :
  Normalizer.clean_items items m = Ok (items', n) →
  items !! i = Some item →
  items' !! i = Some item ∨
  ∃ kvs d s kvs' d',
    item = JDict kvs ∧ Py.lookup "data" kvs = Some (JDict d) ∧
    Py.lookup "image" d = Some (JStr s) ∧
    items' !! i = Some (JDict kvs') ∧
    map fst kvs' = map fst kvs ∧
    (∀ k, k ≠ "data" → Py.lookup k kvs' = Py.lookup k kvs) ∧
    Py.lookup "data" kvs' = Some (JDict d') ∧
    map fst d' = map fst d ∧
    (∀ k, k ≠ "image" → Py.lookup k d' = Py.lookup k d) ∧
    Py.lookup "image" d' = Some (JStr (Spec.bare_filename s)).
Proof.
  intros Hrun Hi.
  destruct (clean_items_lookup _ _ _ _ _ _ Hrun Hi) as (item' & b & Hitem & Hi').
  destruct (clean_item_inv _ _ _ Hitem)
    as [[-> ->]|(kvs & d & s & -> & Hd & Him & Hs & -> & ->)]; [by left|].
  right.
  exists kvs, d, s,
    (Py.store "data" (JDict (Py.store "image" (JStr (Spec.bare_filename s)) d)) kvs),
    (Py.store "image" (JStr (Spec.bare_filename s)) d).
  split_and!; [done|done|done|done|..].
  - by eapply store_keys.
  - intros k Hk. by apply lookup_store_ne.
  - apply lookup_store_eq.
  - by eapply store_keys.
  - intros k Hk. by apply lookup_store_ne.
  - apply lookup_store_eq.
Qed.

Lemma normalizer_keeps_everything_else_witness :
  [Dataset.annotated "pizza1.jpg" (JList [])] !! 0 =
    Some (Dataset.annotated "x/pizza1.jpg" (JList [])) ∨
  ∃ kvs d s kvs' d',
    Dataset.annotated "x/pizza1.jpg" (JList []) = JDict kvs ∧
    Py.lookup "data" kvs = Some (JDict d) ∧
    Py.lookup "image" d = Some (JStr s) ∧
    [Dataset.annotated "pizza1.jpg" (JList [])] !! 0 = Some (JDict kvs') ∧
    map fst kvs' = map fst kvs ∧
    (∀ k, k ≠ "data" → Py.lookup k kvs' = Py.lookup k kvs) ∧
    Py.lookup "data" kvs' = Some (JDict d') ∧
    map fst d' = map fst d ∧
    (∀ k, k ≠ "image" → Py.lookup k d' = Py.lookup k d) ∧
    Py.lookup "image" d' = Some (JStr (Spec.bare_filename s)).
Proof.
  exact (normalizer_keeps_everything_else
           [Dataset.annotated "x/pizza1.jpg" (JList [])]
           [Dataset.annotated "pizza1.jpg" (JList [])] 0 1 0
           (Dataset.annotated "x/pizza1.jpg" (JList [])) eq_refl eq_refl).
Defined.

Lemma clean_items_app (xs ys : list json) (m : nat) :
  Normalizer.clean_items (xs ++ ys) m =
    ('(xs', k) ← Normalizer.clean_items xs m;
     '(ys', n) ← Normalizer.clean_items ys k;
     Ok (xs' ++ ys', n)).
Proof.
  revert m. induction xs as [|x xs IH]; intros m.
  - cbn. by destruct (Normalizer.clean_items ys m) as [[ys' n]|].
  - cbn [Normalizer.clean_items app].
    destruct (Normalizer.clean_item x) as [[x' b]|]; [|done].
    cbn [mbind result_bind]. rewrite IH.
    destruct (Normalizer.clean_items xs _) as [[xs' k]|]; [|done].
    cbn [mbind result_bind].
    by destruct (Normalizer.clean_items ys k) as [[ys' n]|].
Qed.

(** The first record that cannot be processed decides how the loop ends. *)
Lemma clean_items_first_failure (before after : list json) (x : json) (m : nat)
      (r : list json * nat) (e : exn) :
  Normalizer.clean_items before m = Ok r →
  Normalizer.clean_item x = Raise e →
  Normalizer.clean_items (before ++ x :: after) m = Raise e.
Proof.
  intros Hb Hx. rewrite clean_items_app, Hb. destruct r as [b' k].
  cbn [mbind result_bind Normalizer.clean_items]. by rewrite Hx.
Qed.

(** A record whose [data] is a number, a boolean or null, or whose image
    value is one, makes a membership test raise [TypeError]. *)
Lemma clean_item_type_error (kvs : list (string * json)) (data : json) :
  Py.lookup "data" kvs = Some data →
  Shape.scalar data = true ∨
  (∃ d v, data = JDict d ∧ Py.lookup "image" d = Some v ∧ Shape.scalar v = true) →
  Normalizer.clean_item (JDict kvs) = Raise TypeError.
Proof.
  intros Hd [Hs|(d & v & -> & Hv & Hs)]; unfold Normalizer.clean_item; cbn;
    rewrite Hd; cbn.
  - by destruct data.
  - rewrite Hv. cbn. by destruct v.
Qed.

(** X4.  When the records are read one after the other and the first one
    that cannot be processed has a number, a boolean or null as its [data]
    or as its image value, the run takes the fallback path: what is written
    is the pattern-based rewrite of the raw text, and the changes made to
    the records before it are dropped. *)
Theorem normalizer_type_error_falls_back
  (json_loads : string → option json) (json_content : string)
  (before after : list json) (kvs : list (string * json)) (data : json)
  (r : list json * nat) :
  json_loads json_content = Some (JList (before ++ JDict kvs :: after)) →
  Normalizer.clean_items before 0 = Ok r →
  Py.lookup "data" kvs = Some data →
  Shape.scalar data = true ∨
  (∃ d v, data = JDict d ∧ Py.lookup "image" d = Some v ∧ Shape.scalar v = true) →
  Normalizer.clean_image_paths_in_json json_loads json_content =
    Ok (Normalizer.Fallback (Re.sub json_content)).
Proof.
  intros Hload Hb Hd Hbad.
  unfold Normalizer.clean_image_paths_in_json, Normalizer.clean_data. rewrite Hload.
  cbn [Py.len Py.iter mbind result_bind].
  by rewrite (clean_items_first_failure _ _ _ _ _ _ Hb (clean_item_type_error _ _ Hd Hbad)).
Qed.

(** X5.  When the first record that cannot be processed has, as image
    value, a list with the element slash or a mapping with the key slash,
    [split] is called on it and the [AttributeError] is not caught: the run
    writes nothing and raises. *)
Theorem normalizer_attribute_error_escapes
  (json_loads : string → option json) (json_content : string)
  (before after : list json) (kvs d : list (string * json)) (v : json)
  (r : list json * nat) :
  json_loads json_content = Some (JList (before ++ JDict kvs :: after)) →
  Normalizer.clean_items before 0 = Ok r →
  Py.lookup "data" kvs = Some (JDict d) →
  Py.lookup "image" d = Some v →
  Rewrite.splits_non_string v = true →
  Normalizer.clean_image_paths_in_json json_loads json_content = Raise AttributeError.
Proof.
  intros Hload Hb Hd Hv Hbad.
  unfold Normalizer.clean_image_paths_in_json, Normalizer.clean_data. rewrite Hload.
  cbn [Py.len Py.iter mbind result_bind].
  rewrite (clean_items_first_failure _ _ _ _ _ AttributeError Hb); [done|].
  unfold Normalizer.clean_item. cbn. rewrite Hd. cbn. rewrite Hv. cbn.
  destruct v as [| | | | |l|kv]; try done; cbn in Hbad |- *.
  - by rewrite Hbad.
  - by destruct (Py.lookup "/" kv).
Qed.

Lemma normalizer_type_error_falls_back_witness :
  Normalizer.clean_image_paths_in_json MoreDocs.loads MoreDocs.number_data_text =
    Ok (Normalizer.Fallback
          (Str.dquote "[{'data': {'image': 'a.jpg'}}, {'data': 5}]")).
Proof.
  exact (normalizer_type_error_falls_back MoreDocs.loads MoreDocs.number_data_text
           [Docs.image_record "imgs/a.jpg"] [] [("data", JInt 5)] (JInt 5)
           ([Docs.image_record "a.jpg"], 1)
           eq_refl eq_refl eq_refl (or_introl eq_refl)).
Defined.

Lemma normalizer_attribute_error_escapes_witness :
  Normalizer.clean_image_paths_in_json MoreDocs.loads MoreDocs.list_image_text =
    Raise AttributeError.
Proof.
  exact (normalizer_attribute_error_escapes MoreDocs.loads MoreDocs.list_image_text
           [] [] [("data", JDict [("image", JList [JStr "/"])])]
           [("image", JList [JStr "/"])] (JList [JStr "/"]) ([], 0)
           eq_refl eq_refl eq_refl eq_refl eq_refl).
Defined.

(** ** Image Locator: the names it extracts *)

Lemma bare_filename_idem (s : string) :
  Spec.bare_filename (Spec.bare_filename s) = Spec.bare_filename s.
Proof.
  unfold Spec.bare_filename at 1.
  rewrite (after_last_no_sep "/" (Spec.bare_filename s)).
  - apply before_first_no_sep. apply before_first_clean.
  - apply before_first_keeps, after_last_clean.
Qed.

Lemma bare_filename_clean (s : string) :
  Str.has_char "/" (Spec.bare_filename s) = false ∧
  Str.has_char "?" (Spec.bare_filename s) = false.
Proof.
  split; [apply before_first_keeps, after_last_clean|apply before_first_clean].
Qed.

(** What the name-extraction loop body can return. *)
Lemma name_of_item_inv (item : json) (o : option string) :
  Locator.name_of_item item = Ok o →
  o = None ∨
  ∃ s, Rewrite.image_string item = Some s ∧ o = Some (Spec.bare_filename s) ∧
       Locator.mentions_image_extension (Spec.bare_filename s) = true.
Proof.
  intros H. destruct item as [| | | | | |kvs];
    try (left; unfold Locator.name_of_item in H; by simplify_eq/=).
  destruct (Py.lookup "data" kvs) as [data|] eqn:Hd.
  2:{ unfold Locator.name_of_item in H. cbn in H. rewrite Hd in H.
      left. by simplify_eq/=. }
  destruct data as [| | | |t|l|d];
    try (unfold Locator.name_of_item in H; cbn in H; rewrite Hd in H; by simplify_eq/=).
  - unfold Locator.name_of_item in H; cbn in H; rewrite Hd in H. cbn in H.
    destruct (Str.contains "image" t); [done|]. left. by simplify_eq/=.
  - unfold Locator.name_of_item in H; cbn in H; rewrite Hd in H. cbn in H.
    destruct (existsb _ l); [done|]. left. by simplify_eq/=.
  - destruct (Py.lookup "image" d) as [image_url|] eqn:Hi.
    2:{ unfold Locator.name_of_item in H; cbn in H; rewrite Hd in H. cbn in H.
        rewrite Hi in H. left. by simplify_eq/=. }
    destruct image_url as [| | | |s| |];
      try (unfold Locator.name_of_item in H; cbn in H; rewrite Hd in H; cbn in H;
           rewrite Hi in H; by simplify_eq/=).
    rewrite (name_of_item_string _ _ _ Hd Hi) in H.
    destruct (Locator.mentions_image_extension (Spec.bare_filename s)) eqn:Hm;
      simplify_eq; [right|by left].
    exists s. unfold Rewrite.image_string. by rewrite Hd, Hi.
Qed.

Lemma collect_names_app (items : list json) (acc names : list string) :
  Locator.collect_names items acc = Ok names →
  ∃ new, names = acc ++ new ∧
         Forall (λ f, Str.has_char "/" f = false ∧ Str.has_char "?" f = false ∧
                      Locator.mentions_image_extension f = true) new ∧
         length new ≤ length items.
Proof.
  revert acc. induction items as [|item items IH]; intros acc; cbn.
  - intros [= <-]. exists []. by rewrite app_nil_r.
  - destruct (Locator.name_of_item item) as [o|] eqn:Ho; [|done]. cbn.
    intros (new & -> & Hnew & Hlen)%IH.
    destruct (name_of_item_inv _ _ Ho) as [->|(s & _ & -> & Hm)].
    + exists new. split_and!; [done|done|lia].
    + exists (Spec.bare_filename s :: new). rewrite <- app_assoc.
      split_and!; [done| |cbn; lia].
      constructor; [|done]. destruct (bare_filename_clean s). done.
Qed.

(** X6.  On the structured path every name the Image Locator extracts is a
    bare file name, without slash and without question mark, whose
    lower-case form contains one of the three extensions; there are at most
    as many names as records. *)
Theorem locator_names_are_bare
  (json_loads : string → option json) (json_content : string)
  (items : list json) (image_names : list string) :
  json_loads json_content = Some (JList items) →
  Locator.collect_names items [] = Ok image_names →
  Locator.extract_image_names_from_json json_loads json_content = Ok image_names ∧
  Forall (λ f, Str.has_char "/" f = false ∧ Str.has_char "?" f = false ∧
               Locator.mentions_image_extension f = true) image_names ∧
  length image_names ≤ length items.
Proof.
  intros Hload Hrun. unfold Locator.extract_image_names_from_json.
  rewrite Hload. cbn [Py.len Py.iter mbind result_bind]. rewrite Hrun.
  destruct (collect_names_app _ _ _ Hrun) as (new & -> & Hnew & Hlen). done.
Qed.

Lemma locator_names_are_bare_witness :
  Locator.extract_image_names_from_json Docs.loads Docs.raw_text = Ok ["name.png"] ∧
  Forall (λ f, Str.has_char "/" f = false ∧ Str.has_char "?" f = false ∧
               Locator.mentions_image_extension f = true) ["name.png"] ∧
  length ["name.png"] ≤ length [Docs.image_record "http://x/y/name.png?token=abc"].
Proof.
  exact (locator_names_are_bare Docs.loads Docs.raw_text
           [Docs.image_record "http://x/y/name.png?token=abc"] ["name.png"]
           eq_refl eq_refl).
Defined.

Lemma clean_item_same_name (item item' : json) (b : bool) :
  Normalizer.clean_item item = Ok (item', b) →
  Locator.name_of_item item' = Locator.name_of_item item.
Proof.
  intros H.
  destruct (clean_item_inv _ _ _ H)
    as [[-> ->]|(kvs & d & s & -> & Hd & Hi & Hs & -> & ->)]; [done|].
  rewrite (name_of_item_string _ _ _ Hd Hi).
  rewrite (name_of_item_string _ _ (Spec.bare_filename s)
             (lookup_store_eq _ _ _) (lookup_store_eq _ _ _)).
  by rewrite bare_filename_idem.
Qed.

(** X7.  Normalizing first does not change what the Image Locator
    extracts: on the list the structured pass writes, the name-extraction
    loop returns (or raises) exactly what it does on the input list. *)
Theorem locator_names_survive_normalization
  (items items' : list json) (m n : nat) (acc : list string) :
  Normalizer.clean_items items m = Ok (items', n) →
  Locator.collect_names items' acc = Locator.collect_names items acc.
Proof.
  revert items' m acc. induction items as [|x items IH]; intros items' m acc.
  - by intros [= <- <-].
  - cbn [Normalizer.clean_items].
    destruct (Normalizer.clean_item x) as [[x' b]|] eqn:Hx; [|done].
    cbn [mbind result_bind].
    destruct (Normalizer.clean_items items _) as [[rest' k]|] eqn:Hrest; [|done].
    cbn [mbind result_bind]. intros [= <- <-].
    cbn [Locator.collect_names]. rewrite (clean_item_same_name _ _ _ Hx).
    destruct (Locator.name_of_item x) as [o|]; [|done]. cbn [mbind result_bind].
    by apply (IH _ _ _ Hrest).
Qed.

Lemma locator_names_survive_normalization_witness :
  Locator.collect_names [Docs.image_record "name.png"] [] =
  Locator.collect_names [Docs.image_record "http://x/y/name.png?token=abc"] [].
Proof.
  exact (locator_names_survive_normalization
           [Docs.image_record "http://x/y/name.png?token=abc"]
           [Docs.image_record "name.png"] 0 1 [] eq_refl).
Defined.

(** ** The fallback pattern: what it can capture *)

Lemma star_k_sound {A} (p : ascii → bool) (s : string) (k : string → option A) (x : A) :
  Re.star_k p s k = Some x →
  ∃ u s', s = u +:+ s' ∧ Shape.all_chars p u = true ∧ k s' = Some x.
Proof.
  induction s as [|c s IH]; cbn.
  - intros H. by exists "", "".
  - destruct (p c) eqn:Hc.
    + destruct (Re.star_k p s k) as [y|] eqn:E.
      * intros [= ->]. destruct (IH eq_refl) as (u & s' & -> & Hu & Hk).
        exists (String c u), s'. split_and!; [done| |done]. cbn. by rewrite Hc.
      * intros H. by exists "", (String c s).
    + intros H. by exists "", (String c s).
Qed.

(** When the matcher succeeds, the pattern matches a prefix of the text
    and what follows succeeds on the rest. *)
Lemma match_k_sound {A} (r : Re.regex) (s : string) (cap : option string)
      (k : string → option string → option A) (x : A) :
  Re.match_k r s cap k = Some x →
  ∃ u s' cap', s = u +:+ s' ∧ Lang.lang r u ∧ k s' cap' = Some x.
Proof.
  revert s cap k. induction r as [|p|r1 IH1 r2 IH2|r1 IH1 r2 IH2|p|r IH];
    intros s cap k; cbn.
  - intros H. exists "", s, cap. split_and!; [done|constructor|done].
  - destruct s as [|c s]; [done|]. destruct (p c) eqn:Hc; [|done].
    intros H. exists (String c ""), s, cap. split_and!; [done|by constructor|done].
  - intros H. destruct (IH1 _ _ _ H) as (u1 & s1 & cap1 & -> & Hl1 & H1).
    destruct (IH2 _ _ _ H1) as (u2 & s2 & cap2 & -> & Hl2 & H2).
    exists (u1 +:+ u2), s2, cap2. rewrite append_assoc.
    split_and!; [done|by constructor|done].
  - destruct (Re.match_k r1 s cap k) as [y|] eqn:E.
    + intros [= ->]. destruct (IH1 _ _ _ E) as (u & s' & cap' & -> & Hl & Hk).
      exists u, s', cap'. split_and!; [done|by apply Lang.lang_alt_l|done].
    + intros H. destruct (IH2 _ _ _ H) as (u & s' & cap' & -> & Hl & Hk).
      exists u, s', cap'. split_and!; [done|by apply Lang.lang_alt_r|done].
  - intros H. destruct (star_k_sound _ _ _ _ H) as (u & s' & -> & Hu & Hk).
    exists u, s', cap. split_and!; [done|by constructor|done].
  - intros H. destruct (IH _ _ _ H) as (u & s' & cap' & -> & Hl & Hk).
    exists u, s', (Some (Re.consumed (u +:+ s') s')).
    split_and!; [done|by constructor|done].
Qed.

(** The capture group hands on the text it matched. *)
Lemma match_k_group {A} (r : Re.regex) (s : string) (cap : option string)
      (k : string → option string → option A) (x : A) :
  Re.match_k (Re.Group r) s cap k = Some x →
  ∃ u s', s = u +:+ s' ∧ Lang.lang r u ∧ k s' (Some u) = Some x.
Proof.
  cbn. intros H. destruct (match_k_sound _ _ _ _ _ H) as (u & s' & cap' & -> & Hl & Hk).
  rewrite consumed_app in Hk. by exists u, s'.
Qed.

(** A pattern without group leaves the capture as it is. *)
Lemma match_k_free {A} (r : Re.regex) (s : string) (cap : option string)
      (k : string → option string → option A) (x : A) :
  Lang.group_free r = true →
  Re.match_k r s cap k = Some x → ∃ s', k s' cap = Some x.
Proof.
  revert s cap k. induction r as [|p|r1 IH1 r2 IH2|r1 IH1 r2 IH2|p|r IH];
    intros s cap k Hfree; cbn in Hfree |- *; try done.
  - intros H. by exists s.
  - destruct s as [|c s]; [done|]. destruct (p c); [|done]. intros H. by exists s.
  - apply andb_true_iff in Hfree as [Hf1 Hf2].
    intros H. destruct (IH1 _ _ _ Hf1 H) as (s1 & H1). by apply (IH2 _ _ _ Hf2 H1).
  - apply andb_true_iff in Hfree as [Hf1 Hf2].
    destruct (Re.match_k r1 s cap k) as [y|] eqn:E.
    + intros [= ->]. by apply (IH1 _ _ _ Hf1 E).
    + by apply IH2.
  - intros H. destruct (star_k_sound _ _ _ _ H) as (u & s' & -> & Hu & Hk). by exists s'.
Qed.

Lemma match_k_seq_inv {A} (r1 r2 : Re.regex) (s : string) (cap : option string)
      (k : string → option string → option A) (x : A) :
  Re.match_k (Re.Seq r1 r2) s cap k = Some x →
  ∃ s1 cap1, Re.match_k r2 s1 cap1 k = Some x.
Proof.
  cbn. intros H. destruct (match_k_shorter _ _ _ _ _ H) as (s1 & cap1 & _ & H1).
  by exists s1, cap1.
Qed.

Lemma lang_seq_inv (r1 r2 : Re.regex) (u : string) :
  Lang.lang (Re.Seq r1 r2) u → ∃ a b, u = a +:+ b ∧ Lang.lang r1 a ∧ Lang.lang r2 b.
Proof. intros H. inversion H; subst. by eexists _, _. Qed.

Lemma lang_cls_inv (p : ascii → bool) (u : string) :
  Lang.lang (Re.Cls p) u → ∃ c, u = String c "" ∧ p c = true.
Proof. intros H. inversion H; subst. by eexists. Qed.

Lemma lang_star_inv (p : ascii → bool) (u : string) :
  Lang.lang (Re.Star p) u → Shape.all_chars p u = true.
Proof. intros H. by inversion H. Qed.

Lemma lang_alt_inv (r1 r2 : Re.regex) (u : string) :
  Lang.lang (Re.Alt r1 r2) u → Lang.lang r1 u ∨ Lang.lang r2 u.
Proof. intros H. inversion H; subst; by auto. Qed.

Lemma lang_lit (l u : string) : Lang.lang (Re.lit l) u → u = l.
Proof.
  revert u. induction l as [|c l IH]; intros u H; cbn in H.
  - by inversion H.
  - apply lang_seq_inv in H as (a & b & -> & Ha & Hb).
    apply lang_cls_inv in Ha as (c' & -> & Hc).
    apply Ascii.eqb_eq in Hc as <-. by rewrite (IH _ Hb).
Qed.

(** What the inside of group 1 matches. *)
Lemma lang_filename (u : string) :
  Lang.lang
    (Re.Seq (Re.Plus Re.name_char)
       (Re.Seq (Re.chr ".") (Re.Alt (Re.lit "jpg") (Re.Alt (Re.lit "jpeg") (Re.lit "png")))))
    u →
  Lang.captured u.
Proof.
  intros H.
  apply lang_seq_inv in H as (a & b & -> & Ha & Hb).
  apply lang_seq_inv in Ha as (a1 & w & -> & Ha1 & Hw).
  apply lang_cls_inv in Ha1 as (c & -> & Hc).
  apply lang_star_inv in Hw.
  apply lang_seq_inv in Hb as (b1 & e & -> & Hb1 & He).
  apply lang_cls_inv in Hb1 as (c' & -> & Hc').
  apply Ascii.eqb_eq in Hc' as <-.
  exists (String c w), e. split_and!; [done|done|cbn; by rewrite Hc|].
  apply lang_alt_inv in He as [He|He]; [left; by apply lang_lit|].
  apply lang_alt_inv in He as [He|He]; [right; left|right; right]; by apply lang_lit.
Qed.

(** A match of the pattern captures a name with one of the extensions. *)
Lemma match_at_image_captured (s cap rest : string) :
  Re.match_at Re.image_pattern s = Some (cap, rest) → Lang.captured cap.
Proof.
  unfold Re.match_at, Re.image_pattern. intros H.
  do 7 (apply match_k_seq_inv in H as (? & ? & H)).
  change (Re.match_k (Re.Seq ?r1 ?r2) ?s ?c ?k)
    with (Re.match_k r1 s c (λ s' cap', Re.match_k r2 s' cap' k)) in H.
  unfold Re.filename_group in H.
  apply match_k_group in H as (u & s' & -> & Hl & H).
  apply match_k_free in H as (s'' & H); [|done].
  cbn in H. simplify_eq. by apply lang_filename.
Qed.

Lemma findall_go_captured (n : nat) (s : string) :
  Forall Lang.captured (Re.findall_go n s).
Proof.
  revert s. induction n as [|n IH]; intros s; cbn [Re.findall_go]; [constructor|].
  destruct s as [|c s]; [constructor|].
  destruct (Re.match_at Re.image_pattern (String c s)) as [[cap rest]|] eqn:E;
    [|by apply IH].
  constructor; [by eapply match_at_image_captured|by apply IH].
Qed.

Lemma lower_append (u v : string) : Str.lower (u +:+ v) = Str.lower u +:+ Str.lower v.
Proof. induction u as [|c u IH]; [done|]. rewrite append_cons. cbn. by rewrite IH. Qed.

Lemma endswith_refl (s : string) : Str.endswith s s = true.
Proof. destruct s; cbn; [done|]. by rewrite Ascii.eqb_refl, String.eqb_refl. Qed.

Lemma endswith_append (u suf : string) : Str.endswith suf (u +:+ suf) = true.
Proof.
  induction u as [|c u IH]; [apply endswith_refl|].
  rewrite append_cons. cbn. rewrite IH. apply orb_true_r.
Qed.

(** A captured name ends in an image extension and has no slash, no
    question mark and no double quote. *)
Lemma captured_spec (f : string) :
  Lang.captured f →
  Locator.has_image_extension f = true ∧
  Str.has_char "/" f = false ∧ Str.has_char "?" f = false ∧
  Str.has_char Str.dq f = false.
Proof.
  intros (name & ext & -> & Hne & Hname & Hext). split_and!.
  - unfold Locator.has_image_extension. rewrite lower_append.
    destruct Hext as [->|[->| ->]]; cbn -[Str.endswith];
      change (Str.lower name +:+ String "." ?e) with (Str.lower name +:+ ("." +:+ e))%string;
      rewrite ?endswith_append, ?orb_true_r; done.
  - rewrite !has_char_app, (all_chars_none_of _ "/" _ Hname) by set_solver.
    by destruct Hext as [->|[->| ->]].
  - rewrite !has_char_app, (all_chars_none_of _ "?" _ Hname) by set_solver.
    by destruct Hext as [->|[->| ->]].
  - rewrite !has_char_app, (all_chars_none_of _ Str.dq _ Hname) by set_solver.
    by destruct Hext as [->|[->| ->]].
Qed.

(** X8.  On the fallback path (the text is not JSON, or its top-level value
    is a number, a boolean or null) the Image Locator returns the names the
    pattern finds in the raw text, and every such name ends in .jpg, .jpeg
    or .png in lower case and has no slash, no question mark and no double
    quote. *)
Theorem locator_fallback_names_end_in_extension
  (json_loads : string → option json) (json_content : string) :
  json_loads json_content = None ∨
  (∃ v, json_loads json_content = Some v ∧ Shape.scalar v = true) →
  Locator.extract_image_names_from_json json_loads json_content =
    Ok (Re.findall json_content) ∧
  Forall (λ f, Lang.captured f ∧
               Locator.has_image_extension f = true ∧
               Str.has_char "/" f = false ∧ Str.has_char "?" f = false ∧
               Str.has_char Str.dq f = false)
         (Re.findall json_content).
Proof.
  intros Hload. split.
  - unfold Locator.extract_image_names_from_json.
    destruct Hload as [->|(v & -> & Hv)]; [done|]. by destruct v.
  - eapply Forall_impl; [apply findall_go_captured|].
    intros f Hf. split; [done|]. by apply captured_spec.
Qed.

Lemma locator_fallback_names_end_in_extension_witness :
  Locator.extract_image_names_from_json Docs.loads Docs.broken_text =
    Ok (Re.findall Docs.broken_text) ∧
  Forall (λ f, Lang.captured f ∧
               Locator.has_image_extension f = true ∧
               Str.has_char "/" f = false ∧ Str.has_char "?" f = false ∧
               Str.has_char Str.dq f = false)
         (Re.findall Docs.broken_text).
Proof.
  exact (locator_fallback_names_end_in_extension Docs.loads Docs.broken_text
           (or_introl eq_refl)).
Defined.

(** ** The two paths of the Path Normalizer agree *)






(** ** Annotation Extractor: what the output records hold *)

Section ExtractorMore.
Import Extractor.
Variable str_of : json → string.

(** What an iteration appends does not depend on the records before it:
    nothing, or the flat record of the image value of the record. *)
Lemma extract_item_any_env (item : json) (e e1 : env) :
  extract_item str_of item e = Ok e1 →
  ∃ new,
    annotation_data e1 = annotation_data e ++ new ∧
    (∀ e', ∃ v', extract_item str_of item e' = Ok (Env (annotation_data e' ++ new) v')) ∧
    (new = [] ∨
     ∃ v l, Dataset.included_image item = Some v ∧
            new = [Flat (IMAGE_PREFIX +:+ format str_of v) v l]).
Proof.
  assert (Hskip : ∀ e' : env, ∃ v', Ok e' = Ok (Env (annotation_data e' ++ []) v')).
  { intros [ad v]. exists v. cbn. by rewrite app_nil_r. }
  intros H. destruct item as [| | | | | |kvs];
    try (unfold extract_item in H; cbn in H; simplify_eq; exists [];
         rewrite app_nil_r; split_and!; [done|apply Hskip|by left]).
  destruct (Py.lookup "data" kvs) as [dv|] eqn:Hd.
  2:{ rewrite extract_item_no_data in H by done. simplify_eq. exists [].
      rewrite app_nil_r. split_and!; [done| |by left].
      intros e'. rewrite extract_item_no_data by done. apply Hskip. }
  destruct (Py.lookup "annotations" kvs) as [a|] eqn:Ha.
  2:{ rewrite extract_item_no_annotations in H by done. simplify_eq. exists [].
      rewrite app_nil_r. split_and!; [done| |by left].
      intros e'. rewrite extract_item_no_annotations by done. apply Hskip. }
  destruct dv as [| | | |t|l|d];
    try (unfold extract_item in H; cbn in H; rewrite Hd, Ha in H; by simplify_eq/=).
  - unfold extract_item in H |- *; cbn in H |- *; rewrite Hd, Ha in H |- *. cbn in H |- *.
    destruct (Str.contains "image" t); [done|]. cbn in H |- *.
    destruct (extract_labels a); [|done]. cbn in H |- *. simplify_eq. exists [].
    cbn. rewrite app_nil_r. split_and!; [done| |by left].
    intros e'. eexists. by rewrite app_nil_r.
  - unfold extract_item in H |- *; cbn in H |- *; rewrite Hd, Ha in H |- *. cbn in H |- *.
    destruct (existsb _ l); [done|]. cbn in H |- *.
    destruct (extract_labels a); [|done]. cbn in H |- *. simplify_eq. exists [].
    cbn. rewrite app_nil_r. split_and!; [done| |by left].
    intros e'. eexists. by rewrite app_nil_r.
  - destruct (Py.lookup "image" d) as [v|] eqn:Hv.
    + rewrite (extract_item_image _ _ _ _ _ _ Hd Ha Hv) in H.
      destruct (extract_labels a) as [l|] eqn:Hl; [|done]. cbn in H. simplify_eq.
      exists [Flat (IMAGE_PREFIX +:+ format str_of v) v l]. cbn [annotation_data].
      split_and!; [done| |right].
      * intros e'. rewrite (extract_item_image _ _ _ _ _ _ Hd Ha Hv), Hl. by eexists.
      * exists v, l. unfold Dataset.included_image. by rewrite Hd, Ha.
    + rewrite (extract_item_no_image _ _ _ _ _ Hd Ha Hv) in H.
      destruct (extract_labels a) as [l|] eqn:Hl; [|done]. cbn in H. simplify_eq.
      exists []. cbn [annotation_data]. rewrite app_nil_r. split_and!; [done| |by left].
      intros e'. rewrite (extract_item_no_image _ _ _ _ _ Hd Ha Hv), Hl.
      eexists. cbn. by rewrite app_nil_r.
Qed.

Lemma extract_items_records (items : list json) (e e' : env) :
  extract_items str_of items e = Ok e' →
  ∃ new,
    annotation_data e' = annotation_data e ++ new ∧
    Forall (λ fr, image fr = IMAGE_PREFIX +:+ format str_of (image_filename fr) ∧
                  ∃ item, item ∈ items ∧
                          Dataset.included_image item = Some (image_filename fr)) new.
Proof.
  revert e. induction items as [|item items IH]; intros e; cbn.
  - intros [= <-]. exists []. by rewrite app_nil_r.
  - destruct (extract_item str_of item e) as [e1|] eqn:H1; [|done]. cbn.
    intros (new & -> & Hnew)%IH.
    destruct (extract_item_any_env _ _ _ H1) as (n1 & -> & _ & Hn1).
    exists (n1 ++ new). rewrite app_assoc. split; [done|].
    apply Forall_app. split.
    + destruct Hn1 as [->|(v & l & Hv & ->)]; [constructor|].
      constructor; [|constructor]. cbn. split; [done|].
      exists item. split; [by left|done].
    + eapply Forall_impl; [apply Hnew|]. intros fr (Him & x & Hx & Hinc).
      split; [done|]. exists x. split; [by right|done].
Qed.

End ExtractorMore.

(** X10.  Every flat record of the output carries the image value of a
    record of the input as [image_filename], and its [image] is the
    configured prefix followed by that value: the substitute N/A for an
    unbound [image_filename] is never used, and no value carries over from
    an earlier record. *)
Theorem extractor_image_is_prefix_and_filename
  (str_of : json → string) (items : list json) (out : list Extractor.FlatRecord) :
  Extractor.extract_annotation_data str_of (JList items) = Ok out →
  Forall (λ fr,
            Extractor.image fr =
              Extractor.IMAGE_PREFIX +:+ Extractor.format str_of (Extractor.image_filename fr) ∧
            ∃ item, item ∈ items ∧
                    Dataset.included_image item = Some (Extractor.image_filename fr))
         out.
Proof.
  unfold Extractor.extract_annotation_data. cbn.
  destruct (Extractor.extract_items str_of items _) as [e'|] eqn:H; [|done]. cbn.
  intros [= <-]. by destruct (extract_items_records _ _ _ _ H) as (new & -> & Hnew).
Qed.

Lemma extractor_image_is_prefix_and_filename_witness :
  Forall (λ fr,
            Extractor.image fr =
              Extractor.IMAGE_PREFIX +:+
                Extractor.format Dataset.no_str (Extractor.image_filename fr) ∧
            ∃ item, item ∈ [Dataset.annotated "pizza2.png" (JList [])] ∧
                    Dataset.included_image item = Some (Extractor.image_filename fr))
         [Extractor.Flat (Extractor.IMAGE_PREFIX +:+ "pizza2.png") (JStr "pizza2.png")
            Extractor.defaults].
Proof.
  exact (extractor_image_is_prefix_and_filename Dataset.no_str
           [Dataset.annotated "pizza2.png" (JList [])] _ eq_refl).
Defined.

(** ** Annotation Extractor after the Path Normalizer *)

Lemma included_image_normalized (item : json) (v : json) :
  Rewrite.slash_image item = false →
  Dataset.included_image item = Some v →
  Rewrite.normalized_value v = v.
Proof.
  intros Hsl Hinc. destruct v as [| | | |s| |]; try done. cbn.
  destruct (Str.has_char "/" s) eqn:Hs; [|done].
  apply not_true_iff_false in Hsl. destruct Hsl. apply slash_image_spec.
  destruct item as [| | | | | |kvs]; try done. cbn in Hinc.
  destruct (Py.lookup "data" kvs) as [[| | | | | |d]|] eqn:Hd; try done.
  destruct (Py.lookup "annotations" kvs); [|done]. by exists kvs, d, s.
Qed.

(** One record: what the extractor appends for the normalized record is
    what it appends for the input record, with the image value normalized. *)
Lemma extract_item_after_clean
  (str_of : json → string) (item item' : json) (b : bool) (e e1 : Extractor.env) :
  Normalizer.clean_item item = Ok (item', b) →
  Extractor.extract_item str_of item e = Ok e1 →
  ∃ new new',
    Extractor.annotation_data e1 = Extractor.annotation_data e ++ new ∧
    (∀ e', ∃ v', Extractor.extract_item str_of item' e' =
                   Ok (Extractor.Env (Extractor.annotation_data e' ++ new') v')) ∧
    map Extractor.fields new' = map Extractor.fields new ∧
    map Extractor.image_filename new' =
      map Rewrite.normalized_value (map Extractor.image_filename new).
Proof.
  intros Hclean Hrun.
  destruct (clean_item_counts _ _ _ Hclean) as [Hb _].
  destruct (clean_item_inv _ _ _ Hclean)
    as [[-> ->]|(kvs & d & s & -> & Hd & Hi & Hs & -> & _)].
  - destruct (extract_item_any_env _ _ _ _ Hrun) as (new & Hnew & Hany & Hshape).
    exists new, new. split_and!; [done..|].
    destruct Hshape as [->|(v & l & Hv & ->)]; [done|]. cbn.
    by rewrite (included_image_normalized _ _ (eq_sym Hb) Hv).
  - destruct (Py.lookup "annotations" kvs) as [a|] eqn:Ha.
    + rewrite (extract_item_image _ _ _ _ _ _ Hd Ha Hi) in Hrun.
      destruct (Extractor.extract_labels a) as [l|] eqn:Hl; [|done].
      cbn in Hrun. simplify_eq. eexists [_], [_]. cbn [Extractor.annotation_data].
      split_and!; [done| |..].
      * intros e'.
        rewrite (extract_item_image str_of _
                   (Py.store "image" (JStr (Spec.bare_filename s)) d) a
                   (JStr (Spec.bare_filename s)) e').
        -- rewrite Hl. by eexists.
        -- apply lookup_store_eq.
        -- by rewrite lookup_store_ne.
        -- apply lookup_store_eq.
      * done.
      * cbn. by rewrite Hs.
    + rewrite extract_item_no_annotations in Hrun by done. simplify_eq.
      exists [], []. rewrite app_nil_r. split_and!; [done| |done..].
      intros [ad v]. exists v. rewrite extract_item_no_annotations.
      * cbn. by rewrite app_nil_r.
      * by rewrite lookup_store_ne.
Qed.

Lemma extract_items_after_clean
  (str_of : json → string) (items items' : list json) (m n : nat)
  (e e1 e' : Extractor.env) :
  Normalizer.clean_items items m = Ok (items', n) →
  Extractor.extract_items str_of items e = Ok e1 →
  ∃ new new' v',
    Extractor.annotation_data e1 = Extractor.annotation_data e ++ new ∧
    Extractor.extract_items str_of items' e' =
      Ok (Extractor.Env (Extractor.annotation_data e' ++ new') v') ∧
    map Extractor.fields new' = map Extractor.fields new ∧
    map Extractor.image_filename new' =
      map Rewrite.normalized_value (map Extractor.image_filename new).
Proof.
  revert items' m e e'. induction items as [|x items IH]; intros items' m e e'.
  - intros [= <- <-] [= <-]. exists [], [], (Extractor.image_filename_var e').
    rewrite !app_nil_r. by destruct e'.
  - cbn [Normalizer.clean_items Extractor.extract_items].
    destruct (Normalizer.clean_item x) as [[x' b]|] eqn:Hx; [|done].
    cbn [mbind result_bind].
    destruct (Normalizer.clean_items items _) as [[rest' k]|] eqn:Hrest; [|done].
    cbn [mbind result_bind]. intros [= <- <-].
    destruct (Extractor.extract_item str_of x e) as [e2|] eqn:H2; [|done].
    cbn [mbind result_bind]. intros Hrun.
    destruct (extract_item_after_clean _ _ _ _ _ _ Hx H2)
      as (n1 & n1' & Hn1 & Hany & Hf1 & Hi1).
    destruct (Hany e') as (v1 & Hx').
    destruct (IH _ _ e2 (Extractor.Env (Extractor.annotation_data e' ++ n1') v1) Hrest Hrun)
      as (n2 & n2' & v2 & Hn2 & Hrest' & Hf2 & Hi2).
    exists (n1 ++ n2), (n1' ++ n2'), v2.
    cbn [Extractor.extract_items]. rewrite Hx'. cbn [mbind result_bind].
    rewrite Hrest', Hn2, Hn1. cbn [Extractor.annotation_data].
    rewrite !app_assoc, !map_app, Hf1, Hf2, Hi1, Hi2. done.
Qed.

(** X11.  Normalizing first changes nothing for the Annotation Extractor
    but the image values: when the extractor returns on a list of records,
    it returns on the list the structured pass writes, with as many flat
    records, the same four label fields in each, and as [image_filename] the
    normalized image value (a string with a slash reduced to its bare file
    name, anything else as it was). *)
Theorem extractor_after_normalizer
  (str_of : json → string) (items items' : list json) (m n : nat)
  (out : list Extractor.FlatRecord) :
  Normalizer.clean_items items m = Ok (items', n) →
  Extractor.extract_annotation_data str_of (JList items) = Ok out →
  ∃ out',
    Extractor.extract_annotation_data str_of (JList items') = Ok out' ∧
    map Extractor.fields out' = map Extractor.fields out ∧
    map Extractor.image_filename out' =
      map Rewrite.normalized_value (map Extractor.image_filename out).
Proof.
  intros Hclean. unfold Extractor.extract_annotation_data.
  cbn [Py.iter mbind result_bind].
  destruct (Extractor.extract_items str_of items _) as [e1|] eqn:Hrun; [|done].
  cbn [mbind result_bind]. intros [= <-].
  destruct (extract_items_after_clean str_of _ _ _ _ _ _ (Extractor.Env [] None)
              Hclean Hrun) as (new & new' & v' & Hnew & Hrun' & Hf & Hi).
  rewrite Hrun'. cbn in Hnew |- *. exists new'. by rewrite Hnew.
Qed.

Lemma extractor_after_normalizer_witness :
  ∃ out',
    Extractor.extract_annotation_data Dataset.no_str Scenario.normalized = Ok out' ∧
    map Extractor.fields out' =
      map Extractor.fields
        [Extractor.Flat (Extractor.IMAGE_PREFIX +:+ "https://cdn/x/pizza1.jpg?sig=1")
           (JStr "https://cdn/x/pizza1.jpg?sig=1")
           (Extractor.Labels "N/A" "Good" "N/A" (JStr "N/A"));
         Extractor.Flat (Extractor.IMAGE_PREFIX +:+ "pizza2.png") (JStr "pizza2.png")
           (Extractor.Labels "N/A" "N/A" "N/A" (JStr "N/A"))] ∧
    map Extractor.image_filename out' =
      map Rewrite.normalized_value
        (map Extractor.image_filename
           [Extractor.Flat (Extractor.IMAGE_PREFIX +:+ "https://cdn/x/pizza1.jpg?sig=1")
              (JStr "https://cdn/x/pizza1.jpg?sig=1")
              (Extractor.Labels "N/A" "Good" "N/A" (JStr "N/A"));
            Extractor.Flat (Extractor.IMAGE_PREFIX +:+ "pizza2.png") (JStr "pizza2.png")
              (Extractor.Labels "N/A" "N/A" "N/A" (JStr "N/A"))]).
Proof.
  exact (extractor_after_normalizer Dataset.no_str
           [Dataset.annotated "https://cdn/x/pizza1.jpg?sig=1" Scenario.good_pizza;
            Dataset.annotated "pizza2.png" (JList []);
            Docs.image_record "pizza3.png"]
           [Dataset.annotated "pizza1.jpg" Scenario.good_pizza;
            Dataset.annotated "pizza2.png" (JList []);
            Docs.image_record "pizza3.png"]
           0 1 _ eq_refl eq_refl).
Defined.

(** ** Annotation Extractor: entries and documents it passes over *)

Lemma apply_result_unrecognized (kvs : list (string * json)) (l : Extractor.labels) :
  (∀ t, Py.lookup "from_name" kvs ≠ Some (JStr (Dataset.tag_name t))) →
  Extractor.apply_result (JDict kvs) l = Ok l.
Proof.
  intros Hno. unfold Extractor.apply_result. cbn [Py.get mbind result_bind].
  rewrite !tagged_dict.
  assert (Hf : ∀ t, Py.eq_str (match Py.lookup "from_name" kvs with
                               | Some x => x | None => JStr "" end)
                      (Dataset.tag_name t) = false).
  { intros t. apply eq_str_false. specialize (Hno t).
    destruct (Py.lookup "from_name" kvs); [congruence|by destruct t]. }
  pose proof (Hf Dataset.ImageQuality) as H1. pose proof (Hf Dataset.PizzaQuality) as H2.
  pose proof (Hf Dataset.PizzaQualityReason) as H3. pose proof (Hf Dataset.Comments) as H4.
  cbn in H1, H2, H3, H4. by rewrite H1, H2, H3, H4.
Qed.

(** X12.  A result entry whose [from_name] is missing or is none of the
    four recognized tags is passed over whatever its [value] is: the walk
    over the entries gives the same labels, or raises the same, with and
    without that entry. *)
Theorem extractor_skips_unrecognized_entries
  (before after : list json) (kvs : list (string * json)) (l : Extractor.labels) :
  (∀ t, Py.lookup "from_name" kvs ≠ Some (JStr (Dataset.tag_name t))) →
  Extractor.apply_results (before ++ JDict kvs :: after) l =
    Extractor.apply_results (before ++ after) l.
Proof.
  intros Hno. rewrite !apply_results_app.
  destruct (Extractor.apply_results before l) as [l1|]; [|done].
  cbn [mbind result_bind Extractor.apply_results].
  by rewrite (apply_result_unrecognized _ _ Hno).
Qed.

Lemma extractor_skips_unrecognized_entries_witness :
  Extractor.apply_results
    ([Dataset.entry "comments" "text" (JStr "first")] ++
     JDict [("from_name", JStr "bbox"); ("value", JNull)] :: [])
    Extractor.defaults =
  Extractor.apply_results ([Dataset.entry "comments" "text" (JStr "first")] ++ [])
    Extractor.defaults.
Proof.
  refine (extractor_skips_unrecognized_entries
            [Dataset.entry "comments" "text" (JStr "first")] []
            [("from_name", JStr "bbox"); ("value", JNull)] Extractor.defaults _).
  intros t H. destruct t; discriminate H.
Defined.

Lemma extract_items_strings (str_of : json → string) (l : list string) (e : Extractor.env) :
  Extractor.extract_items str_of (map JStr l) e = Ok e.
Proof. induction l as [|s l IH]; [done|]. cbn. apply IH. Qed.

(** X13.  A document whose top-level value is a mapping or a string gives
    an empty output, since the loop then runs over keys or characters; a
    number, a boolean or null makes the extractor raise [TypeError]. *)
Theorem extractor_on_non_list_document (str_of : json → string) (data : json) :
  Shape.is_list data = false →
  Extractor.extract_annotation_data str_of data =
    if Shape.scalar data then Raise TypeError else Ok [].
Proof.
  intros Hl. destruct data as [| | | |s|l|kvs]; try done.
  - unfold Extractor.extract_annotation_data. cbn [Py.iter mbind result_bind].
    by rewrite extract_items_strings.
  - unfold Extractor.extract_annotation_data. cbn [Py.iter mbind result_bind].
    by rewrite <- (map_map fst JStr kvs), extract_items_strings.
Qed.

Lemma extractor_on_non_list_document_witness :
  Extractor.extract_annotation_data Dataset.no_str Docs.object_doc = Ok [] ∧
  Extractor.extract_annotation_data Dataset.no_str Docs.number_doc = Raise TypeError.
Proof.
  split.
  - exact (extractor_on_non_list_document Dataset.no_str Docs.object_doc eq_refl).
  - exact (extractor_on_non_list_document Dataset.no_str Docs.number_doc eq_refl).
Defined.

(** ** Image Locator: the walk as a whole *)

Section WalkFacts.
Variable FS : Type.
Variable copy2 : FS → string → string → FS * bool.
Variable target_dir : string.
Variable image_names : list string.

(** A file for which no copy is attempted leaves the state as it is. *)
Lemma visit_file_not_attempted (root file : string) (st : Locator.state FS) :
  Trace.attempted image_names file = false →
  Locator.visit_file copy2 target_dir image_names root file st = st.
Proof.
  unfold Trace.attempted, Locator.visit_file.
  destruct (Locator.has_image_extension file); [|done]. cbn.
  rewrite scan_names_first. by destruct (Match.first_match image_names file).
Qed.

(** A file for which a copy is attempted adds one line about itself. *)
Lemma visit_file_attempted (root file : string) (st : Locator.state FS) :
  Trace.attempted image_names file = true →
  map Trace.event_file
      (Locator.log (Locator.visit_file copy2 target_dir image_names root file st)) =
    map Trace.event_file (Locator.log st) ++ [file].
Proof.
  unfold Trace.attempted, Locator.visit_file.
  destruct (Locator.has_image_extension file); [|done]. cbn [andb].
  rewrite scan_names_first.
  destruct (Match.first_match image_names file) as [n|]; [|done]. intros _.
  rewrite copy_matched_spec. cbn zeta.
  destruct (copy2 _ _ _) as [fs' [|]]; cbn; by rewrite map_app.
Qed.

Lemma visit_files_cons (root file : string) (files : list string) (st : Locator.state FS) :
  Locator.visit_files copy2 target_dir image_names root (file :: files) st =
    Locator.visit_files copy2 target_dir image_names root files
      (Locator.visit_file copy2 target_dir image_names root file st).
Proof. reflexivity. Qed.

Lemma visit_dirs_cons (root : string) (files : list string)
  (walk : list (string * list string)) (st : Locator.state FS) :
  Locator.visit_dirs copy2 target_dir image_names ((root, files) :: walk) st =
    Locator.visit_dirs copy2 target_dir image_names walk
      (Locator.visit_files copy2 target_dir image_names root files st).
Proof. reflexivity. Qed.

Lemma visit_files_trace (root : string) (files : list string) (st : Locator.state FS) :
  map Trace.event_file
      (Locator.log (Locator.visit_files copy2 target_dir image_names root files st)) =
    map Trace.event_file (Locator.log st) ++
    filter (λ f, Trace.attempted image_names f = true) files.
Proof.
  revert st. induction files as [|file files IH]; intros st.
  - cbn. by rewrite app_nil_r.
  - rewrite visit_files_cons, IH, filter_cons.
    destruct (Trace.attempted image_names file) eqn:Ha.
    + rewrite decide_True by done. rewrite visit_file_attempted by done.
      by rewrite <- app_assoc.
    + rewrite decide_False by (by intros ?). by rewrite visit_file_not_attempted.
Qed.

Lemma visit_files_untouched (root : string) (files : list string) (st : Locator.state FS) :
  Forall (λ f, Trace.attempted image_names f = false) files →
  Locator.visit_files copy2 target_dir image_names root files st = st.
Proof.
  intros Hall. revert st. induction Hall as [|file files Hf Hall IH]; intros st; [done|].
  rewrite visit_files_cons, visit_file_not_attempted by done. apply IH.
Qed.

Lemma visit_dirs_trace (walk : list (string * list string)) (st : Locator.state FS) :
  map Trace.event_file
      (Locator.log (Locator.visit_dirs copy2 target_dir image_names walk st)) =
    map Trace.event_file (Locator.log st) ++
    filter (λ f, Trace.attempted image_names f = true) (Trace.files_of walk).
Proof.
  revert st. induction walk as [|[root files] walk IH]; intros st.
  - cbn. by rewrite app_nil_r.
  - rewrite visit_dirs_cons, IH, visit_files_trace. unfold Trace.files_of. cbn [flat_map snd].
    by rewrite filter_app, app_assoc.
Qed.

Lemma visit_dirs_untouched (walk : list (string * list string)) (st : Locator.state FS) :
  Forall (λ f, Trace.attempted image_names f = false) (Trace.files_of walk) →
  Locator.visit_dirs copy2 target_dir image_names walk st = st.
Proof.
  revert st. induction walk as [|[root files] walk IH]; intros st; [done|].
  unfold Trace.files_of. cbn [flat_map snd]. intros [Hf Hw]%Forall_app.
  rewrite visit_dirs_cons, visit_files_untouched by done. by apply IH.
Qed.

End WalkFacts.

Lemma size_list_to_set_le (l : list string) : size (list_to_set l : gset string) ≤ length l.
Proof.
  induction l as [|x l IH]; cbn.
  - by rewrite size_empty.
  - rewrite size_union_alt, size_singleton.
    assert (Hle : size (list_to_set l ∖ {[x]} : gset string) ≤ size (list_to_set l : gset string))
      by (apply subseteq_size; intros y [? _]%elem_of_difference; done).
    lia.
Qed.

(** X14.  The walk attempts exactly one copy for every file that has an
    image extension and contains a target name, in the order the files are
    visited, and none for any other file: the files of the printed lines are
    those files, each once per visit.  When there is no such file, the
    state after the walk is the state before it. *)
Theorem locator_one_attempt_per_matching_file
  {FS : Type} (path_exists : FS → string → bool) (makedirs : FS → string → option FS)
  (copy2 : FS → string → string → FS * bool)
  (target_dir : string) (image_names : list string)
  (walk : list (string * list string)) (fs0 : FS) (r : Locator.report FS) :
  Locator.recursive_search_and_copy path_exists makedirs copy2 target_dir image_names
    walk fs0 = Ok r →
  map Trace.event_file (Locator.log (Locator.final r)) =
    filter (λ f, Trace.attempted image_names f = true) (Trace.files_of walk) ∧
  (Forall (λ f, Trace.attempted image_names f = false) (Trace.files_of walk) →
   Locator.log (Locator.final r) = [] ∧
   Locator.found_images (Locator.final r) = ∅ ∧
   Locator.not_found r = list_to_set image_names ∧
   Locator.fs (Locator.final r) =
     if path_exists fs0 target_dir then fs0
     else default fs0 (makedirs fs0 target_dir)).
Proof.
  unfold Locator.recursive_search_and_copy.
  destruct (path_exists fs0 target_dir) eqn:Hex.
  - cbn. intros [= <-]. cbn. split; [by rewrite visit_dirs_trace|].
    intros Hnone. rewrite visit_dirs_untouched by done. cbn. split_and!; try done.
    apply difference_empty_L.
  - destruct (makedirs fs0 target_dir) as [fs1|]; [|done]. cbn. intros [= <-]. cbn.
    split; [by rewrite visit_dirs_trace|].
    intros Hnone. rewrite visit_dirs_untouched by done. cbn. split_and!; try done.
    apply difference_empty_L.
Qed.

Lemma locator_one_attempt_per_matching_file_witness :
  map Trace.event_file
    [Locator.Copied "xbc.jpg" "bc.jpg"; Locator.CopyError "locked_c.jpg"] =
  filter (λ f, Trace.attempted ["bc.jpg"; "c.jpg"] f = true)
    (Trace.files_of [("src", ["xbc.jpg"; "notes.txt"]); ("src/sub", ["locked_c.jpg"; "d.png"])]).
Proof.
  exact (proj1 (locator_one_attempt_per_matching_file (λ _ _, true) (λ fs _, Some fs)
                  Match.copy_unless_locked "label_images" ["bc.jpg"; "c.jpg"]
                  [("src", ["xbc.jpg"; "notes.txt"]); ("src/sub", ["locked_c.jpg"; "d.png"])]
                  [] _ eq_refl)).
Defined.

(** X15.  The names marked found are target names, and the names reported
    missing are exactly the other target names: found and missing split the
    set of target names, and the number of found names printed at the end is
    at most the number of target names. *)
Theorem locator_found_and_missing_split_targets
  {FS : Type} (path_exists : FS → string → bool) (makedirs : FS → string → option FS)
  (copy2 : FS → string → string → FS * bool)
  (target_dir : string) (image_names : list string)
  (walk : list (string * list string)) (fs0 : FS) (r : Locator.report FS) :
  Locator.recursive_search_and_copy path_exists makedirs copy2 target_dir image_names
    walk fs0 = Ok r →
  let found := Locator.found_images (Locator.final r) in
  found ⊆ list_to_set image_names ∧
  found ∪ Locator.not_found r = list_to_set image_names ∧
  found ## Locator.not_found r ∧
  size found + size (Locator.not_found r) = size (list_to_set image_names : gset string) ∧
  size found ≤ length image_names.
Proof.
  intros Hrun found.
  assert (Hsub : found ⊆ list_to_set image_names).
  { revert Hrun. unfold found, Locator.recursive_search_and_copy.
    destruct (if path_exists fs0 target_dir then _ else _) as [fs1|]; [|done]. cbn.
    intros [= <-]. cbn.
    destruct (tallied_visit_dirs FS copy2 target_dir image_names walk
                (Locator.State fs1 ∅ [])) as [Hfound Hlog].
    { split; cbn; [|by intros f m ?%elem_of_nil].
      intros m. split; [by intros ?%elem_of_empty|by intros [f ?%elem_of_nil]]. }
    intros m [f Hf]%Hfound. apply Hlog in Hf as [_ Hm].
    apply first_match_split in Hm as (pre & post & -> & _).
    apply elem_of_list_to_set, elem_of_app. right. by left. }
  assert (Hnf : Locator.not_found r = list_to_set image_names ∖ found).
  { revert Hrun. unfold found, Locator.recursive_search_and_copy.
    destruct (if path_exists fs0 target_dir then _ else _) as [fs1|]; [|done]. cbn.
    by intros [= <-]. }
  split_and!.
  - done.
  - rewrite Hnf. apply set_eq. intros m. rewrite elem_of_union, elem_of_difference.
    split; [intros [?|[? _]]; [by apply Hsub|done]|].
    intros Hm. destruct (decide (m ∈ found)); [by left|by right].
  - rewrite Hnf. apply elem_of_disjoint. by intros m Hm [_ Hn]%elem_of_difference.
  - rewrite Hnf, size_difference by done.
    pose proof (subseteq_size _ _ Hsub). lia.
  - pose proof (subseteq_size _ _ Hsub). pose proof (size_list_to_set_le image_names). lia.
Qed.

Lemma locator_found_and_missing_split_targets_witness :
  let found : gset string := {["bc.jpg"]} ∪ ∅ in
  found ⊆ list_to_set ["bc.jpg"; "c.jpg"] ∧
  found ∪ (list_to_set ["bc.jpg"; "c.jpg"] ∖ found) = list_to_set ["bc.jpg"; "c.jpg"] ∧
  found ## list_to_set ["bc.jpg"; "c.jpg"] ∖ found ∧
  size found + size (list_to_set ["bc.jpg"; "c.jpg"] ∖ found : gset string) =
    size (list_to_set ["bc.jpg"; "c.jpg"] : gset string) ∧
  size found ≤ length ["bc.jpg"; "c.jpg"].
Proof.
  exact (locator_found_and_missing_split_targets (λ _ _, true) (λ fs _, Some fs)
           Match.copy_unless_locked "label_images" ["bc.jpg"; "c.jpg"]
           [("src", ["xbc.jpg"; "notes.txt"]); ("src/sub", ["locked_c.jpg"; "d.png"])]
           [] _ eq_refl).
Defined.

(** ** Image Locator: records it cannot read *)

Lemma collect_names_first_failure (before after : list json) (x : json)
      (acc names : list string) (e : exn) :
  Locator.collect_names before acc = Ok names →
  Locator.name_of_item x = Raise e →
  Locator.collect_names (before ++ x :: after) acc = Raise e.
Proof.
  revert acc. induction before as [|b before IH]; intros acc Hb Hx; cbn in Hb |- *.
  - by rewrite Hx.
  - destruct (Locator.name_of_item b) as [o|]; [|done]. cbn in Hb |- *. by apply IH.
Qed.

Lemma name_of_item_type_error (kvs : list (string * json)) (data : json) :
  Py.lookup "data" kvs = Some data →
  Faults.unreadable_data data = true →
  Locator.name_of_item (JDict kvs) = Raise TypeError.
Proof.
  intros Hd Hbad. unfold Locator.name_of_item. cbn. rewrite Hd. cbn.
  destruct data as [| | | |s|l|d]; try done; cbn in Hbad |- *; by rewrite Hbad.
Qed.

Lemma name_of_item_attribute_error (kvs d : list (string * json)) (v : json) :
  Py.lookup "data" kvs = Some (JDict d) →
  Py.lookup "image" d = Some v →
  Faults.is_str v = false →
  Locator.name_of_item (JDict kvs) = Raise AttributeError.
Proof.
  intros Hd Hv Hbad. unfold Locator.name_of_item. cbn. rewrite Hd. cbn. rewrite Hv. cbn.
  by destruct v.
Qed.

(** X16.  When the first record the locator cannot read is a mapping whose
    [data] is a number, a boolean, null, a string with the substring image
    or a list with the element image, the [TypeError] is caught: the names
    collected from the records before it are dropped, and the names returned
    are those the pattern finds in the raw text. *)
Theorem locator_type_error_falls_back
  (json_loads : string → option json) (json_content : string)
  (before after : list json) (kvs : list (string * json)) (data : json)
  (names : list string) :
  json_loads json_content = Some (JList (before ++ JDict kvs :: after)) →
  Locator.collect_names before [] = Ok names →
  Py.lookup "data" kvs = Some data →
  Faults.unreadable_data data = true →
  Locator.extract_image_names_from_json json_loads json_content =
    Ok (Re.findall json_content).
Proof.
  intros Hload Hb Hd Hbad. unfold Locator.extract_image_names_from_json. rewrite Hload.
  cbn [Py.len Py.iter mbind result_bind].
  by rewrite (collect_names_first_failure _ _ _ _ _ _ Hb (name_of_item_type_error _ _ Hd Hbad)).
Qed.

Lemma locator_type_error_falls_back_witness :
  Locator.extract_image_names_from_json MoreDocs.loads MoreDocs.number_data_text =
    Ok (Re.findall MoreDocs.number_data_text).
Proof.
  exact (locator_type_error_falls_back MoreDocs.loads MoreDocs.number_data_text
           [Docs.image_record "imgs/a.jpg"] [] [("data", JInt 5)] (JInt 5) ["a.jpg"]
           eq_refl eq_refl eq_refl eq_refl).
Defined.

(** X17.  When the first record the locator cannot read has an image value
    that is not a string (a number, a boolean, null, a list or a mapping),
    [split] is called on it and the [AttributeError] is not caught: no name
    is returned and the call raises.  The normalizer takes the fallback
    path on a number, a boolean or null in the same place. *)
Theorem locator_non_string_image_escapes
  (json_loads : string → option json) (json_content : string)
  (before after : list json) (kvs d : list (string * json)) (v : json)
  (names : list string) :
  json_loads json_content = Some (JList (before ++ JDict kvs :: after)) →
  Locator.collect_names before [] = Ok names →
  Py.lookup "data" kvs = Some (JDict d) →
  Py.lookup "image" d = Some v →
  Faults.is_str v = false →
  Locator.extract_image_names_from_json json_loads json_content = Raise AttributeError.
Proof.
  intros Hload Hb Hd Hv Hbad. unfold Locator.extract_image_names_from_json. rewrite Hload.
  cbn [Py.len Py.iter mbind result_bind].
  by rewrite (collect_names_first_failure _ _ _ _ _ _ Hb
                (name_of_item_attribute_error _ _ _ Hd Hv Hbad)).
Qed.

Lemma locator_non_string_image_escapes_witness :
  Locator.extract_image_names_from_json MoreDocs.loads MoreDocs.list_image_text =
    Raise AttributeError.
Proof.
  exact (locator_non_string_image_escapes MoreDocs.loads MoreDocs.list_image_text
           [] [] [("data", JDict [("image", JList [JStr "/"])])]
           [("image", JList [JStr "/"])] (JList [JStr "/"]) []
           eq_refl eq_refl eq_refl eq_refl eq_refl).
Defined.

(** ** Annotation Viewer: pages *)

Section Pages.
Context {A : Type}.
Implicit Types (l : list A) (p : Z).

(** For a page number from 1 on, the slice is the next hundred records
    after those of the pages before. *)
Lemma current_page_data_take_drop l p :
  (1 ≤ p)%Z →
  Viewer.current_page_data l p =
    take 100 (drop (Z.to_nat (Viewer.start_idx p)) l).
Proof.
  intros Hp. unfold Viewer.current_page_data, Viewer.slice, Viewer.end_idx,
    Viewer.slice_bound, Viewer.start_idx, Viewer.ITEMS_PER_PAGE.
  set (len := Z.of_nat (length l)). set (s := ((p - 1) * 100)%Z).
  assert (0 ≤ s)%Z by (unfold s; lia). assert (0 ≤ len)%Z by (unfold len; lia).
  rewrite (proj2 (Z.ltb_ge s 0)) by done.
  rewrite (proj2 (Z.ltb_ge (Z.min (s + 100) len) 0)) by lia.
  destruct (decide (s ≤ len)%Z) as [Hle|Hgt].
  - replace (Z.min s len) with s by lia.
    replace (Z.min (Z.min (s + 100) len) len) with (Z.min (s + 100) len) by lia.
    apply list_eq. intros i.
    destruct (decide (i < 100)) as [Hi|Hi].
    + rewrite (lookup_take_lt _ 100) by done.
      destruct (decide (i < Z.to_nat (Z.min (s + 100) len - s))) as [Hj|Hj].
      * by rewrite lookup_take_lt.
      * rewrite lookup_take_ge by lia. symmetry. rewrite lookup_drop.
        apply lookup_ge_None_2. unfold len in *. lia.
    + rewrite !lookup_take_ge by lia. done.
  - replace (Z.min s len) with len by lia.
    replace (Z.min (Z.min (s + 100) len) len) with len by lia.
    rewrite Z.sub_diag. cbn [Z.to_nat take].
    rewrite (drop_ge l (Z.to_nat s)) by (unfold len in *; lia). by rewrite take_nil.
Qed.

Lemma pages_concat l (k : nat) :
  concat (Viewer.pages l k) = take (100 * k) l.
Proof.
  unfold Viewer.pages. induction k as [|k IH].
  - by rewrite Nat.mul_0_r.
  - rewrite seq_S, map_app, concat_app, IH. cbn [map concat Nat.add].
    rewrite app_nil_r, current_page_data_take_drop by lia.
    unfold Viewer.start_idx, Viewer.ITEMS_PER_PAGE.
    replace (Z.to_nat ((Z.of_nat (S k) - 1) * 100)) with (100 * k) by lia.
    rewrite take_take_drop. f_equal. lia.
Qed.

End Pages.

(** X18.  For a page number from 1 on, the record at position [j] of the
    page shown is the record at position [100 * (page_num - 1) + j] of the
    extracted list, for [j] below 100, and the page has no further
    position.  When the page starts inside the list, it holds
    [end_idx - start_idx] records, between 1 and 100 (the range the
    subheader announces); when it starts at or after the end, it is
    empty. *)
Theorem viewer_page_holds_its_hundred
  {A : Type} (annotation_data : list A) (page_num : Z) :
  (1 ≤ page_num)%Z →
  let page := Viewer.current_page_data annotation_data page_num in
  let first := Z.to_nat (Viewer.start_idx page_num) in
  (∀ j : nat, page !! j = if decide (j < 100) then annotation_data !! (first + j) else None) ∧
  (first < length annotation_data →
     Z.of_nat (length page) =
       (Viewer.end_idx annotation_data page_num - Viewer.start_idx page_num)%Z ∧
     1 ≤ length page ≤ 100) ∧
  (length annotation_data ≤ first → page = []).
Proof.
  intros Hp page first. unfold page. rewrite current_page_data_take_drop by done.
  fold first. split_and!.
  - intros j. destruct (decide (j < 100)).
    + by rewrite lookup_take_lt, lookup_drop.
    + by rewrite lookup_take_ge by lia.
  - intros Hin. rewrite length_take, length_drop.
    unfold Viewer.end_idx, first in *. unfold Viewer.start_idx, Viewer.ITEMS_PER_PAGE in *.
    lia.
  - intros Hout. by rewrite drop_ge.
Qed.

Lemma viewer_page_holds_its_hundred_witness :
  let page := Viewer.current_page_data (seq 0 250) 3 in
  let first := Z.to_nat (Viewer.start_idx 3) in
  (∀ j : nat, page !! j = if decide (j < 100) then seq 0 250 !! (first + j) else None) ∧
  (first < length (seq 0 250) →
     Z.of_nat (length page) = (Viewer.end_idx (seq 0 250) 3 - Viewer.start_idx 3)%Z ∧
     1 ≤ length page ≤ 100) ∧
  (length (seq 0 250) ≤ first → page = []).
Proof.
  exact (viewer_page_holds_its_hundred (seq 0 250) 3 ltac:(lia)).
Defined.

(** X19.  The pages 1 to [k], put one after the other, are the first
    [100 * k] records of the extracted list in their order: as soon as
    [100 * k] reaches the length of the list, every record is on exactly one
    of these pages, and every later page is empty. *)
Theorem viewer_pages_cover_the_records
  {A : Type} (annotation_data : list A) (k : nat) :
  length annotation_data ≤ 100 * k →
  concat (Viewer.pages annotation_data k) = annotation_data ∧
  ∀ page_num : Z, (Z.of_nat k < page_num)%Z →
    Viewer.current_page_data annotation_data page_num = [].
Proof.
  intros Hk. split.
  - rewrite pages_concat. by apply take_ge.
  - intros p Hp. rewrite current_page_data_take_drop by lia.
    rewrite drop_ge; [done|]. unfold Viewer.start_idx, Viewer.ITEMS_PER_PAGE. lia.
Qed.

Lemma viewer_pages_cover_the_records_witness :
  concat (Viewer.pages (seq 0 250) 3) = seq 0 250 ∧
  ∀ page_num : Z, (Z.of_nat 3 < page_num)%Z →
    Viewer.current_page_data (seq 0 250) page_num = [].
Proof.
  exact (viewer_pages_cover_the_records (seq 0 250) 3 ltac:(cbn; lia)).
Defined.
